(** * time-sync: the reconciliation engine of [src/sync.js]

    A shallow embedding of the Clockify -> YouTrack synchronisation script
    and the properties of its reconciliation logic.

    Modelling conventions.
    - A JavaScript string is a [string]: a sequence of code units, each an
      [ascii] read as a Latin-1 code point (0..255).
    - [null] and [undefined] are [None]; a JavaScript truthiness test on a
      string-or-null value is [truthy].
    - A finite JavaScript number is the rational it denotes; [Number.of_Q]
      rounds a real to the nearest double.
    - A thrown exception is [Throw e]; the network is an explicit state. *)

From Stdlib Require Import ZArith QArith Qpower Qfield Qabs Ascii String.
From stdpp Require Import gmap strings list.

Local Open Scope string_scope.
Local Open Scope Z_scope.
Local Open Scope list_scope.

(** ** Errors *)

Inductive Error : Type :=
| TypeError        (* property access on null / undefined *)
| RangeError       (* Temporal rejects a duration or an instant *)
| AssertionError   (* node:assert *)
| HttpError        (* axios rejects (non-2xx answer) *)
| OutOfFuel.       (* the model ran out of loop iterations *)

Inductive result (A : Type) : Type :=
| Ok (a : A)
| Throw (e : Error).
Arguments Ok {A} a.
Arguments Throw {A} e.

Definition is_ok {A} (r : result A) : bool :=
  match r with Ok _ => true | Throw _ => false end.

(** ** JavaScript strings *)

Module JS.

Definition code (c : ascii) : N := N_of_ascii c.

Definition in_range (lo hi : N) (c : ascii) : bool :=
  ((lo <=? code c) && (code c <=? hi))%N.

(** [\d] *)
Definition is_digit (c : ascii) : bool := in_range 48 57 c.
(** [A-Z] *)
Definition is_upper (c : ascii) : bool := in_range 65 90 c.
(** [a-z] *)
Definition is_lower (c : ascii) : bool := in_range 97 122 c.
(** [a-z\d] *)
Definition is_lower_alnum (c : ascii) : bool := is_lower c || is_digit c.
(** [A-Z0-9] *)
Definition is_upper_alnum (c : ascii) : bool := is_upper c || is_digit c.

(** WhiteSpace and LineTerminator code points below 256: TAB, LF, VT, FF,
    CR, SP and NBSP. *)
Definition is_space (c : ascii) : bool :=
  in_range 9 13 c || (code c =? 32)%N || (code c =? 160)%N.

(** Truthiness of a string: only the empty string is falsy. *)
Definition nonempty (s : string) : bool :=
  match s with EmptyString => false | String _ _ => true end.

(** Truthiness of a string-or-null value. *)
Definition truthy (o : option string) : bool :=
  match o with Some s => nonempty s | None => false end.

(** A value read from a plain object whose own properties hold strings: a
    string, or the member of [Object.prototype] of the given name (a
    function; for [__proto__] the prototype object itself). *)
Inductive Value : Type :=
| Str (s : string)
| Inherited (member : string).

(** Truthiness of such a value: functions and objects are truthy. *)
Definition truthy_value (o : option Value) : bool :=
  match o with
  | Some (Str s) => nonempty s
  | Some (Inherited _) => true
  | None => false
  end.

(** The property names of [Object.prototype]. *)
Definition Object_prototype : list string :=
  [ "constructor"; "__defineGetter__"; "__defineSetter__"; "hasOwnProperty";
    "__lookupGetter__"; "__lookupSetter__"; "isPrototypeOf";
    "propertyIsEnumerable"; "toString"; "valueOf"; "__proto__";
    "toLocaleString" ]%string.

(** [o[k]] for a plain object [o] (created by an object literal) with the
    own properties [own]: an own property first, then the prototype. *)
Definition get_property (own : gmap string string) (k : string) : option Value :=
  match own !! k with
  | Some v => Some (Str v)
  | None => if bool_decide (k ∈ Object_prototype) then Some (Inherited k) else None
  end.

(** [String.prototype.trimStart] *)
Fixpoint trimStart (s : string) : string :=
  match s with
  | EmptyString => EmptyString
  | String c r => if is_space c then trimStart r else s
  end.

(** [String.prototype.trimEnd] *)
Fixpoint trimEnd (s : string) : string :=
  match s with
  | EmptyString => EmptyString
  | String c r =>
      match trimEnd r with
      | EmptyString => if is_space c then EmptyString else String c EmptyString
      | r' => String c r'
      end
  end.

(** [String.prototype.trim] *)
Definition trim (s : string) : string := trimEnd (trimStart s).

(** [String.prototype.toLowerCase] on Latin-1: A-Z and the accented
    capitals U+00C0..U+00DE (without the multiplication sign U+00D7) move
    up by 32. *)
Definition lower_char (c : ascii) : ascii :=
  if is_upper c || (in_range 192 222 c && negb (code c =? 215)%N)
  then ascii_of_N (code c + 32)
  else c.

Fixpoint toLowerCase (s : string) : string :=
  match s with
  | EmptyString => EmptyString
  | String c r => String (lower_char c) (toLowerCase r)
  end.

(** The longest prefix of [s] whose characters satisfy [p], and the rest:
    a greedy [p+] or [p*]. *)
Fixpoint span (p : ascii -> bool) (s : string) : string * string :=
  match s with
  | EmptyString => (EmptyString, EmptyString)
  | String c r =>
      if p c then let '(a, b) := span p r in (String c a, b)
      else (EmptyString, s)
  end.

(** Exactly [n] characters satisfying [p] at the head of [s], and the
    rest: [p{n}]. *)
Fixpoint exactly (p : ascii -> bool) (n : nat) (s : string)
  : option (string * string) :=
  match n with
  | O => Some (EmptyString, s)
  | S n' =>
      match s with
      | EmptyString => None
      | String c r =>
          if p c then
            match exactly p n' r with
            | Some (a, b) => Some (String c a, b)
            | None => None
            end
          else None
      end
  end.

End JS.

(** ** The two extraction patterns *)

(** [/^([A-Z0-9]+-\d+)/] applied at the head of [s]; the result is capture
    group 1. The first class excludes the hyphen, so the greedy run is the
    only split a backtracking matcher can succeed with. *)
Definition match_issue_key (s : string) : option string :=
  let '(key, r1) := JS.span JS.is_upper_alnum s in
  match key, r1 with
  | String _ _, String "-" r2 =>
      let '(num, _) := JS.span JS.is_digit r2 in
      match num with
      | String _ _ => Some (key +:+ "-" +:+ num)
      | EmptyString => None
      end
  | _, _ => None
  end.

(** [/\[([a-z\d]{24})]/] anchored at the head of [s]. *)
Definition marker_here (s : string) : option string :=
  match s with
  | String "[" r =>
      match JS.exactly JS.is_lower_alnum 24 r with
      | Some (tok, String "]" _) => Some tok
      | _ => None
      end
  | _ => None
  end.

(** [s.match(/\[([a-z\d]{24})]/)]: the leftmost match, capture group 1. *)
Fixpoint match_marker (s : string) : option string :=
  match marker_here s with
  | Some tok => Some tok
  | None =>
      match s with
      | EmptyString => None
      | String _ r => match_marker r
      end
  end.

(** [RegExp.prototype.test] for the same pattern, as [assert.match] uses it. *)
Definition test_marker (s : string) : bool :=
  match match_marker s with Some _ => true | None => false end.

Definition extractIssueId (text : string) : option string :=
  match_issue_key (JS.trim text).

Definition extractInternalId (text : string) : option string :=
  match_marker (JS.trim text).

(** The shape of a Clockify entry id: 24 characters from [a-z\d]. *)
Definition is_marker_shape (id : string) : bool :=
  match JS.exactly JS.is_lower_alnum 24 id with
  | Some (_, EmptyString) => true
  | _ => false
  end.

(** ** The Temporal calls of the script

    [temporal-polyfill] is a dependency of the script. Only the calls the
    script makes are modelled, after the Temporal proposal: parsing of ISO
    8601 duration strings with the limits on the size of a duration,
    [Duration.prototype.total("minutes")], and [ZonedDateTime] arithmetic in
    the UTC time zone with the limits on instants. *)

(** The Number value for a real: the nearest double, ties to even.
    Overflow to infinity (beyond 2^1024) is not modelled; no number of the
    script comes near it. *)
Module Number.

(** 2^e *)
Definition pow2 (e : Z) : Q := (2 ^ e)%Q.

(** floor (log2 (a / d)) for [a] positive. *)
Definition floor_log2 (a : Z) (d : positive) : Z :=
  let e := Z.log2 a - Z.log2 (Zpos d) in
  if Qle_bool (pow2 e) (a # d) then e else e - 1.

(** (a / d) / 2^k rounded to the nearest integer, ties to even, for [a]
    not negative. *)
Definition scaled_round (a : Z) (d : positive) (k : Z) : Z :=
  let num := if 0 <=? k then a else a * 2 ^ (- k) in
  let den := if 0 <=? k then Zpos d * 2 ^ k else Zpos d in
  let f := num / den in
  let r := 2 * (num mod den) in
  if r <? den then f
  else if den <? r then f + 1
  else if Z.even f then f else f + 1.

(** The double nearest to [q]: 53 significant bits, exponent not below
    that of the subnormal numbers. *)
Definition of_Q (q : Q) : Q :=
  let a := Z.abs (Qnum q) in
  if a =? 0 then 0%Q
  else
    let k := Z.max (floor_log2 a (Qden q)) (-1022) - 52 in
    Qred (inject_Z (Z.sgn (Qnum q) * scaled_round a (Qden q) k) * pow2 k).

End Number.

Module Temporal.

Definition ns_per_second : Z := 1000000000.
Definition ns_per_minute : Z := 60 * ns_per_second.
Definition ns_per_hour : Z := 60 * ns_per_minute.
Definition ns_per_day : Z := 24 * ns_per_hour.

(** A duration: its sign, its date fields, and its time part (hours,
    minutes, seconds and fraction) as a total of nanoseconds. *)
Record Duration : Type := {
  sign : Z;
  years : Z;
  months : Z;
  weeks : Z;
  days : Z;
  time_ns : Z
}.

Definition digit_value (c : ascii) : Z := Z.of_N (JS.code c) - 48.

Fixpoint digits_value_from (acc : Z) (ds : string) : Z :=
  match ds with
  | EmptyString => acc
  | String c r => digits_value_from (10 * acc + digit_value c) r
  end.

Definition digits_value (ds : string) : Z := digits_value_from 0 ds.

(** Designators are matched without regard to case. *)
Definition designator (des c : ascii) : bool :=
  Ascii.eqb (JS.lower_char c) (JS.lower_char des).

Definition is_decimal_separator (c : ascii) : bool :=
  Ascii.eqb c "." || Ascii.eqb c ",".

(** An optional date component: digits and the designator [des]. *)
Definition date_component (des : ascii) (s : string) : option Z * string :=
  let '(ds, r) := JS.span JS.is_digit s in
  match ds, r with
  | String _ _, String c r' =>
      if designator des c then (Some (digits_value ds), r') else (None, s)
  | _, _ => (None, s)
  end.

(** An optional time component: digits, an optional fraction of one to
    nine digits, and the designator [des]. The value is in nanoseconds,
    [unit_ns] being the length of the unit; the flag tells whether a
    fraction was written. *)
Definition time_component (des : ascii) (unit_ns : Z) (s : string)
  : option (Z * bool) * string :=
  let '(ds, r) := JS.span JS.is_digit s in
  match ds, r with
  | String _ _, String c r1 =>
      if is_decimal_separator c then
        let '(fs, r2) := JS.span JS.is_digit r1 in
        match fs, r2 with
        | String _ _, String d r3 =>
            if (String.length fs <=? 9)%nat && designator des d then
              (Some (digits_value ds * unit_ns
                     + digits_value fs * unit_ns / 10 ^ Z.of_nat (String.length fs),
                     true), r3)
            else (None, s)
        | _, _ => (None, s)
        end
      else if designator des c then (Some (digits_value ds * unit_ns, false), r1)
      else (None, s)
  | _, _ => (None, s)
  end.

Definition present {A} (o : option A) : bool :=
  match o with Some _ => true | None => false end.

Definition value (o : option Z) : Z := default 0 o.

Definition ns_of (o : option (Z * bool)) : Z :=
  match o with Some (n, _) => n | None => 0 end.

Definition has_fraction (o : option (Z * bool)) : bool :=
  match o with Some (_, f) => f | None => false end.

(** The optional sign at the head of a duration string. *)
Definition parse_sign (s : string) : Z * string :=
  match s with
  | String "-" r => (-1, r)
  | String "+" r => (1, r)
  | _ => (1, s)
  end.

(** The reading of a duration string:
    sign, [P], years, months, weeks, days, and after [T] hours, minutes,
    seconds, in that order and each optional; at least one component, at
    least one after [T], a fraction only on the last one. *)
Definition parse (s : string) : result Duration :=
  let '(sgn, s1) := parse_sign s in
  match s1 with
  | String p s2 =>
      if designator "P" p then
        let '(y, s3) := date_component "Y" s2 in
        let '(mo, s4) := date_component "M" s3 in
        let '(w, s5) := date_component "W" s4 in
        let '(d, s6) := date_component "D" s5 in
        match s6 with
        | EmptyString =>
            if present y || present mo || present w || present d then
              Ok {| sign := sgn; years := value y; months := value mo;
                    weeks := value w; days := value d; time_ns := 0 |}
            else Throw RangeError
        | String t s7 =>
            if designator "T" t then
              let '(h, s8) := time_component "H" ns_per_hour s7 in
              let '(mi, s9) := time_component "M" ns_per_minute s8 in
              let '(sec, s10) := time_component "S" ns_per_second s9 in
              match s10 with
              | EmptyString =>
                  if (present h || present mi || present sec)
                     && negb (has_fraction h && (present mi || present sec))
                     && negb (has_fraction mi && present sec)
                  then
                    Ok {| sign := sgn; years := value y; months := value mo;
                          weeks := value w; days := value d;
                          time_ns := ns_of h + ns_of mi + ns_of sec |}
                  else Throw RangeError
              | String _ _ => Throw RangeError
              end
            else Throw RangeError
        end
      else Throw RangeError
  | EmptyString => Throw RangeError
  end.

(** The limits on a duration: years, months and weeks below 2^32, and
    days and time together below 2^53 seconds. *)
Definition is_valid (d : Duration) : bool :=
  (years d <? 2 ^ 32) && (months d <? 2 ^ 32) && (weeks d <? 2 ^ 32)
  && (days d * ns_per_day + time_ns d <? 2 ^ 53 * ns_per_second).

(** [Temporal.Duration.from(s)] for a string [s]: the string is read and
    the duration checked against the limits. *)
Definition from (s : string) : result Duration :=
  match parse s with
  | Ok d => if is_valid d then Ok d else Throw RangeError
  | Throw e => Throw e
  end.

(** The length of a duration without years, months and weeks in minutes,
    as a real: a day is 24 hours. *)
Definition exact_minutes (d : Duration) : Q :=
  Qmake (sign d * (days d * ns_per_day + time_ns d)) (Z.to_pos ns_per_minute).

(** [d.total("minutes")] without [relativeTo]: years, months and weeks
    cannot be converted and are rejected unless zero; the result is the
    Number for the exact length. *)
Definition total_minutes (d : Duration) : result Q :=
  if (years d =? 0) && (months d =? 0) && (weeks d =? 0) then
    Ok (Number.of_Q (exact_minutes d))
  else Throw RangeError.

(** A [ZonedDateTime] in the UTC time zone, by its epoch nanoseconds. *)
Record ZonedDateTime : Type := { epochNanoseconds : Z }.

(** In UTC a day is always 24 hours long and starts at a multiple of it. *)
Definition startOfDay (t : ZonedDateTime) : ZonedDateTime :=
  {| epochNanoseconds := epochNanoseconds t - epochNanoseconds t mod ns_per_day |}.

(** The instants of Temporal: 10^8 days on either side of the epoch. *)
Definition max_instant : Z := 10 ^ 8 * ns_per_day.

Definition in_range (ns : Z) : bool :=
  (- max_instant <=? ns) && (ns <=? max_instant).

(** A number of days that makes a duration within the limits. *)
Definition valid_days (n : Z) : bool := Z.abs n * 86400 <? 2 ^ 53.

(** [t.add({ days: n })]: a [RangeError] when the days are no duration or
    the result is no instant. *)
Definition add_days (t : ZonedDateTime) (n : Z) : result ZonedDateTime :=
  let ns := epochNanoseconds t + n * ns_per_day in
  if valid_days n && in_range ns then Ok {| epochNanoseconds := ns |}
  else Throw RangeError.

(** [t.subtract({ days: n })] *)
Definition subtract_days (t : ZonedDateTime) (n : Z) : result ZonedDateTime :=
  let ns := epochNanoseconds t - n * ns_per_day in
  if valid_days n && in_range ns then Ok {| epochNanoseconds := ns |}
  else Throw RangeError.

(** Days from 1970-01-01 to the proleptic Gregorian date [y]-[m]-[d]. *)
Definition days_from_civil (y m d : Z) : Z :=
  let y' := if m <=? 2 then y - 1 else y in
  let era := y' / 400 in
  let yoe := y' - era * 400 in
  let mp := (m + 9) mod 12 in
  let doy := (153 * mp + 2) / 5 + d - 1 in
  let doe := yoe * 365 + yoe / 4 - yoe / 100 + doy in
  era * 146097 + doe - 719468.

(** The instant written [y-m-dThh:mi:ssZ]. *)
Definition utc (y m d hh mi ss : Z) : ZonedDateTime :=
  {| epochNanoseconds :=
       days_from_civil y m d * ns_per_day
       + hh * ns_per_hour + mi * ns_per_minute + ss * ns_per_second |}.

Definition is_midnight (t : ZonedDateTime) : Prop :=
  epochNanoseconds t mod ns_per_day = 0.

End Temporal.

(** ** Data *)

(** A JavaScript [Date] is represented by the string handed to its
    constructor. What the script reads off it, [toDateString()] for the
    console and [getTime()] for the payload, is a function of the object and
    is represented by the object itself. *)
Inductive Date : Type := new_Date (s : string).

Module Tag.
Record t : Type := { name : option string }.
End Tag.

Module Task.
Record t : Type := { name : option string }.
End Task.

Module TimeInterval.
Record t : Type := { start : option string; duration : option string }.
End TimeInterval.

(** An element of the Clockify answer. *)
Module BillableEntry.
Record t : Type := {
  id : string;
  description : string;
  billable : bool;
  tags : option (list Tag.t);
  task : option Task.t;
  timeInterval : option TimeInterval.t
}.
End BillableEntry.

(** The object built by [createTimeEntry]. *)
Module TimeEntry.
Record t : Type := {
  id : string;
  description : string;
  type : option string;
  issueId : option string;
  startDate : option Date;
  durationMinutes : option Q
}.
End TimeEntry.

(** The object [data] built by the loop of [sync] and handed to
    [postIssueWorkItem]. *)
Module WorkItemData.
Record t : Type := {
  description : string;
  date : Date;
  durationMinutes : option Q;
  workTypeId : option JS.Value
}.
End WorkItemData.

(** The body of the POST request. *)
Module Payload.
Record t : Type := {
  duration_minutes : option Q;
  text : string;
  date : Date;
  type_id : option JS.Value
}.
End Payload.

(** A work item as YouTrack answers it under [fields=text,date]. *)
Module WorkItem.
Record t : Type := { text : option string; date : option Date }.
End WorkItem.

Module WorkItemType.
Record t : Type := { id : string; name : string }.
End WorkItemType.

(** The command line, as [program.opts()] returns it. [lastNDays] is the
    result of [parseInt]; [None] stands for an option that was not given and
    for [NaN]. *)
Module Options.
Record t : Type := {
  today : bool;
  yesterday : bool;
  lastNDays : option Z;
  dryRun : bool
}.
End Options.

Module DateRange.
Record t : Type := { start : Temporal.ZonedDateTime; end_ : Temporal.ZonedDateTime }.
End DateRange.

(** ** The issue tracker *)

(** The state of YouTrack: the work items of every issue, oldest first, the
    configured work item types, and the create requests it refuses (answers
    with a status other than 2xx). A request for an issue that does not
    exist is answered with an error; a created work item is stored with its
    text as sent. Failures of the read requests for an issue that exists
    are not modelled. *)
Module YouTrack.
Record t : Type := {
  issues : gmap string (list WorkItem.t);
  workItemTypes : list WorkItemType.t;
  refuses : string -> Payload.t -> bool
}.

(** GET [/issues/<issueId>/timeTracking/workItems?$skip=..&$top=..] *)
Definition get_workItems (yt : t) (issueId : string) (skip top : nat)
  : result (list WorkItem.t) :=
  match issues yt !! issueId with
  | Some items => Ok (take top (drop skip items))
  | None => Throw HttpError
  end.

(** POST [/issues/<issueId>/timeTracking/workItems] *)
Definition post_workItem (yt : t) (issueId : string) (p : Payload.t)
  : result t :=
  match issues yt !! issueId with
  | Some items =>
      if refuses yt issueId p then Throw HttpError
      else
        Ok {| issues :=
                <[issueId :=
                    items ++ [ {| WorkItem.text := Some (Payload.text p);
                                  WorkItem.date := Some (Payload.date p) |} ] ]>
                  (issues yt);
              workItemTypes := workItemTypes yt;
              refuses := refuses yt |}
  | None => Throw HttpError
  end.
End YouTrack.

(** ** Effects *)

(** What a run does that can be observed: its requests to YouTrack and its
    console lines. *)
Inductive Event : Type :=
| GetWorkItems (issueId : string) (skip top : nat)
| GetWorkItemTypes
| PostWorkItem (issueId : string) (payload : Payload.t)
| LogDryRunMode
| LogSyncing (range : DateRange.t)
| WarnNoIssue (description : string) (displayDate : Date)
| LogSkipping (description issueId : string) (displayDate : Date)
| LogSynced (description issueId : string) (displayDate : Date).

Definition is_post (e : Event) : bool :=
  match e with PostWorkItem _ _ => true | _ => false end.

Definition is_console (e : Event) : bool :=
  match e with
  | LogDryRunMode | LogSyncing _ | WarnNoIssue _ _ | LogSkipping _ _ _
  | LogSynced _ _ _ => true
  | _ => false
  end.

(** The create calls of a trace. *)
Definition posts (t : list Event) : list Event := List.filter is_post t.

(** The console lines of a trace. *)
Definition console (t : list Event) : list Event := List.filter is_console t.

#[global] Instance result_ret : MRet result := @Ok.
#[global] Instance result_bind : MBind result :=
  fun A B f r => match r with Ok a => f a | Throw e => Throw e end.

(** A computation over the tracker: the new state, the events in order, and
    a value or the exception that stopped it. *)
Definition M (A : Type) : Type :=
  YouTrack.t -> YouTrack.t * list Event * result A.

#[global] Instance M_ret : MRet M := fun A a yt => (yt, [], Ok a).
#[global] Instance M_bind : MBind M :=
  fun A B f m yt =>
    let '(yt1, t1, r) := m yt in
    match r with
    | Ok a => let '(yt2, t2, r2) := f a yt1 in (yt2, t1 ++ t2, r2)
    | Throw e => (yt1, t1, Throw e)
    end.

Definition emit (e : Event) : M unit := fun yt => (yt, [e], Ok tt).

Definition lift {A} (r : result A) : M A := fun yt => (yt, [], r).

(** [for (const x of xs) body(x)] *)
Fixpoint for_of {A} (xs : list A) (body : A -> M unit) : M unit :=
  match xs with
  | [] => mret tt
  | x :: rest => body x ≫= fun _ => for_of rest body
  end.

(** [await Promise.all(xs.map(f))]. The elements only read the tracker, so
    the answers do not depend on the order of the requests; the events are
    recorded as if the elements ran one after the other and the first
    failure stopped the rest. The interleaving of the requests of several
    elements is not modelled. *)
Fixpoint Promise_all_map {A B} (f : A -> M B) (xs : list A) : M (list B) :=
  match xs with
  | [] => mret []
  | x :: rest =>
      f x ≫= fun y => Promise_all_map f rest ≫= fun ys => mret (y :: ys)
  end.

(** [xs.map(f)] for an [f] that can throw. *)
Fixpoint Array_map {A B} (f : A -> result B) (xs : list A) : result (list B) :=
  match xs with
  | [] => Ok []
  | x :: rest =>
      f x ≫= fun y => Array_map f rest ≫= fun ys => Ok (y :: ys)
  end.

(** [xs.filter(Boolean)] on strings and nulls. *)
Definition filter_Boolean (xs : list (option string)) : list string :=
  omap (fun o => if JS.truthy o then o else None) xs.

(** [Array.from(new Set(xs))]: the distinct elements in the order of their
    first occurrence. *)
Fixpoint Array_from_Set (seen : gset string) (xs : list string) : list string :=
  match xs with
  | [] => []
  | x :: rest =>
      if decide (x ∈ seen) then Array_from_Set seen rest
      else x :: Array_from_Set ({[x]} ∪ seen) rest
  end.

(** [new Map(pairs)]: a later pair replaces an earlier one of the same key. *)
Definition Map_of {V} (pairs : list (string * V)) : gmap string V :=
  foldl (fun m kv => <[kv.1 := kv.2]> m) ∅ pairs.

(** ** API calls *)

(** The Clockify endpoint: the answer to a date range, [data] being
    possibly null. *)
Definition Clockify : Type :=
  DateRange.t -> result (option (list BillableEntry.t)).

Definition getBillableEntries (clockifyApi : Clockify) (dateRange : DateRange.t)
  : result (list BillableEntry.t) :=
  data ← clockifyApi dateRange;
  Ok (List.filter BillableEntry.billable (default [] data)).

Definition limit : nat := 5000.

(** The [while (true)] loop of [getIssueWorkItems]. [get skip top] is the
    answer of [youTrackApi.get] for the issue at hand; [fuel] bounds the
    number of iterations. Next to the result come the offsets requested, in
    order. *)
Fixpoint getIssueWorkItems_loop (fuel : nat)
    (get : nat -> nat -> result (list WorkItem.t))
    (items : list WorkItem.t) (skip : nat)
  : list nat * result (list WorkItem.t) :=
  match fuel with
  | O => ([], Throw OutOfFuel)
  | S fuel' =>
      match get skip limit with
      | Throw e => ([skip], Throw e)
      | Ok data =>
          let items := items ++ data in
          if (length data <? limit)%nat then ([skip], Ok items)
          else
            let '(reqs, r) := getIssueWorkItems_loop fuel' get items (skip + limit) in
            (skip :: reqs, r)
      end
  end.

Definition getIssueWorkItems (fuel : nat)
    (get : nat -> nat -> result (list WorkItem.t))
  : list nat * result (list WorkItem.t) :=
  getIssueWorkItems_loop fuel get [] 0.

(** [getIssueWorkItems(issueId)] against the tracker. *)
Definition getIssueWorkItems_of (fuel : nat) (issueId : string)
  : M (list WorkItem.t) :=
  fun yt =>
    let '(reqs, r) := getIssueWorkItems fuel (YouTrack.get_workItems yt issueId) in
    (yt, (fun skip => GetWorkItems issueId skip limit) <$> reqs, r).

Definition postIssueWorkItem (issueId : string) (data : WorkItemData.t) : M unit :=
  if test_marker (WorkItemData.description data) then
    let payload :=
      {| Payload.duration_minutes := WorkItemData.durationMinutes data;
         Payload.text := WorkItemData.description data;
         Payload.date := WorkItemData.date data;
         Payload.type_id :=
           if JS.truthy_value (WorkItemData.workTypeId data)
           then WorkItemData.workTypeId data else None |} in
    fun yt =>
      match YouTrack.post_workItem yt issueId payload with
      | Ok yt' => (yt', [PostWorkItem issueId payload], Ok tt)
      | Throw e => (yt, [PostWorkItem issueId payload], Throw e)
      end
  else lift (Throw AssertionError).

(** [workTypes.reduce(...)]: the own properties of the object built, from
    names to ids. The object is a plain one: it is read with
    [JS.get_property], which also finds what [Object.prototype] holds. *)
Definition workTypes_reduce (workTypes : list WorkItemType.t) : gmap string string :=
  foldl (fun acc type =>
           <[JS.trim (JS.toLowerCase (WorkItemType.name type))
             := WorkItemType.id type]> acc)
        ∅ workTypes.

Definition getAllWorkItemTypes : M (gmap string string) :=
  fun yt =>
    (yt, [GetWorkItemTypes], Ok (workTypes_reduce (YouTrack.workItemTypes yt))).

(** ** Helpers *)

(** [Temporal.Duration.from(duration).total("minutes")] *)
Definition Duration_total_minutes (duration : string) : result Q :=
  d ← Temporal.from duration;
  Temporal.total_minutes d.

Definition createTimeEntry (billableEntry : BillableEntry.t) : result TimeEntry.t :=
  let tags := BillableEntry.tags billableEntry in
  let task := BillableEntry.task billableEntry in
  (* tags?.[0]?.name.toLowerCase().trim() || null *)
  type ←
    match tags ≫= head with
    | None => Ok None
    | Some tag =>
        match Tag.name tag with
        | None => Throw TypeError
        | Some name =>
            let type := Some (JS.trim (JS.toLowerCase name)) in
            Ok (if JS.truthy type then type else None)
        end
    end;
  (* task?.name ? extractIssueId(task.name) : null *)
  let issueId :=
    match task ≫= Task.name with
    | Some name => if JS.nonempty name then extractIssueId name else None
    | None => None
    end in
  timeInterval ←
    match BillableEntry.timeInterval billableEntry with
    | Some timeInterval => Ok timeInterval
    | None => Throw TypeError
    end;
  let startDate :=
    match TimeInterval.start timeInterval with
    | Some start => if JS.nonempty start then Some (new_Date start) else None
    | None => None
    end in
  durationMinutes ←
    match TimeInterval.duration timeInterval with
    | Some duration =>
        if JS.nonempty duration then
          minutes ← Duration_total_minutes duration;
          Ok (Some minutes)
        else Ok None
    | None => Ok None
    end;
  Ok {| TimeEntry.id := BillableEntry.id billableEntry;
        TimeEntry.description := BillableEntry.description billableEntry;
        TimeEntry.type := type;
        TimeEntry.issueId := issueId;
        TimeEntry.startDate := startDate;
        TimeEntry.durationMinutes := durationMinutes |}.

Definition getUniqueBy {A} (arr : list A) (keyFn : A -> option string) : list string :=
  Array_from_Set ∅ (filter_Boolean (keyFn <$> arr)).

Definition getOptionDateRange (now : Temporal.ZonedDateTime) (options : Options.t)
  : result DateRange.t :=
  let today := Temporal.startOfDay now in
  if Options.today options then
    end_ ← Temporal.add_days today 1;
    Ok {| DateRange.start := today; DateRange.end_ := end_ |}
  else
    match Options.lastNDays options with
    | Some n =>
        if n =? 0 then
          start ← Temporal.subtract_days today 1;
          Ok {| DateRange.start := start; DateRange.end_ := today |}
        else
          start ← Temporal.subtract_days today n;
          Ok {| DateRange.start := start; DateRange.end_ := today |}
    | None =>
        (* Yesterday is the default *)
        start ← Temporal.subtract_days today 1;
        Ok {| DateRange.start := start; DateRange.end_ := today |}
    end.

(** ** Main *)

(** The marker ids of the work items of an issue:
    [issueWorkItems.map(item => extractInternalId(item.text || "")).filter(Boolean)]. *)
Definition workItemInternalIds (issueWorkItems : list WorkItem.t) : list string :=
  filter_Boolean
    ((fun item => extractInternalId (default "" (WorkItem.text item)))
       <$> issueWorkItems).

(** The function mapped over [uniqueIssueIds]. *)
Definition workItemsByIssueId_entry (fuel : nat) (issueId : string)
  : M (string * gset string) :=
  issueWorkItems ← getIssueWorkItems_of fuel issueId;
  mret (issueId, list_to_set (workItemInternalIds issueWorkItems)).

(** The object [data] of an entry to create. *)
Definition workItemData (workTypes : gmap string string) (entry : TimeEntry.t)
    (startDate : Date) : WorkItemData.t :=
  {| WorkItemData.description :=
       TimeEntry.description entry +:+ " [" +:+ TimeEntry.id entry +:+ "]";
     WorkItemData.date := startDate;
     WorkItemData.durationMinutes := TimeEntry.durationMinutes entry;
     WorkItemData.workTypeId :=
       match TimeEntry.type entry with
       | Some type =>
           if JS.nonempty type && JS.truthy_value (JS.get_property workTypes type)
           then JS.get_property workTypes type else None
       | None => None
       end |}.

(** The body of the [for] loop of [sync]. *)
Definition sync_entry (options : Options.t) (workTypes : gmap string string)
    (workItemsByIssueId : gmap string (gset string)) (entry : TimeEntry.t)
  : M unit :=
  (* entry.startDate.toDateString() *)
  displayDate ← lift (match TimeEntry.startDate entry with
                      | Some d => Ok d
                      | None => Throw TypeError
                      end);
  match TimeEntry.issueId entry with
  | Some issueId =>
      if JS.nonempty issueId then
        (* workItemsByIssueId.get(entry.issueId).has(entry.id) *)
        existingItems ← lift (match workItemsByIssueId !! issueId with
                              | Some s => Ok s
                              | None => Throw TypeError
                              end);
        if decide (TimeEntry.id entry ∈ existingItems) then
          emit (LogSkipping (TimeEntry.description entry) issueId displayDate)
        else
          let data := workItemData workTypes entry displayDate in
          (if Options.dryRun options then mret tt
           else postIssueWorkItem issueId data) ≫= fun _ =>
          emit (LogSynced (TimeEntry.description entry) issueId displayDate)
      else emit (WarnNoIssue (TimeEntry.description entry) displayDate)
  | None => emit (WarnNoIssue (TimeEntry.description entry) displayDate)
  end.

(** [sync()]: [now] is the answer of [Temporal.Now.zonedDateTimeISO("UTC")];
    [fuel] bounds the pages fetched per issue. *)
Definition sync (fuel : nat) (now : Temporal.ZonedDateTime) (options : Options.t)
    (clockifyApi : Clockify) : M unit :=
  (if Options.dryRun options then emit LogDryRunMode else mret tt) ≫= fun _ =>
  dateRange ← lift (getOptionDateRange now options);
  emit (LogSyncing dateRange) ≫= fun _ =>
  entries ← lift (getBillableEntries clockifyApi dateRange);
  workTypes ← getAllWorkItemTypes;
  timeEntries ← lift (Array_map createTimeEntry entries);
  let uniqueIssueIds :=
    getUniqueBy
      (List.filter (fun entry => JS.truthy (TimeEntry.issueId entry)) timeEntries)
      TimeEntry.issueId in
  pairs ← Promise_all_map (workItemsByIssueId_entry fuel) uniqueIssueIds;
  let workItemsByIssueId := Map_of pairs in
  for_of timeEntries (sync_entry options workTypes workItemsByIssueId).

(** ** Auxiliary notions for the statements *)

(** A character that can take no part in a match of the marker pattern. *)
Definition inert (c : ascii) : bool :=
  negb (JS.is_lower_alnum c) && negb (Ascii.eqb c "[") && negb (Ascii.eqb c "]").

Fixpoint all_space (s : string) : bool :=
  match s with
  | EmptyString => true
  | String c r => JS.is_space c && all_space r
  end.

(** The records for which [createTimeEntry] has nothing to throw on: a time
    interval object, a name on the first tag if there is one, and a
    duration that Temporal reads and converts if there is one. *)
Definition normalizable (billableEntry : BillableEntry.t) : bool :=
  match BillableEntry.tags billableEntry ≫= head with
  | Some tag => Temporal.present (Tag.name tag)
  | None => true
  end
  && match BillableEntry.timeInterval billableEntry with
     | Some timeInterval =>
         match TimeInterval.duration timeInterval with
         | Some duration =>
             if JS.nonempty duration then
               is_ok (Duration_total_minutes duration)
             else true
         | None => true
         end
     | None => false
     end.

(** A duration string written with a minus sign. *)
Definition is_negative (duration : string) : bool :=
  match duration with
  | String "-" _ => true
  | _ => false
  end.

Definition options_default : Options.t :=
  {| Options.today := false; Options.yesterday := false;
     Options.lastNDays := None; Options.dryRun := false |}.

(** What the index holds for an issue, read off the state of the tracker. *)
Definition markers_of (yt : YouTrack.t) (issueId : string)
  : result (string * gset string) :=
  match YouTrack.issues yt !! issueId with
  | Some items => Ok (issueId, list_to_set (workItemInternalIds items))
  | None => Throw HttpError
  end.

(** Every issue of the first state is an issue of the second, with the same
    work items and possibly more behind them; the work item types and the
    requests refused are the same. *)
Definition extends (yt yt' : YouTrack.t) : Prop :=
  YouTrack.workItemTypes yt' = YouTrack.workItemTypes yt /\
  YouTrack.refuses yt' = YouTrack.refuses yt /\
  forall i items,
    YouTrack.issues yt !! i = Some items ->
    exists more, YouTrack.issues yt' !! i = Some (items ++ more).

(** The console line of a second run for an entry the first run created:
    the entry is skipped. Other lines stay. *)
Definition resynced (e : Event) : Event :=
  match e with
  | LogSynced description issueId displayDate =>
      LogSkipping description issueId displayDate
  | _ => e
  end.

(** The events of a trace other than create calls. *)
Definition not_post (e : Event) : bool := negb (is_post e).

Definition with_dryRun (dryRun : bool) (options : Options.t) : Options.t :=
  {| Options.today := Options.today options;
     Options.yesterday := Options.yesterday options;
     Options.lastNDays := Options.lastNDays options;
     Options.dryRun := dryRun |}.

(** The outcomes of the loop body on an entry, one constructor per path. *)
Inductive sync_entry_outcome (options : Options.t) (workTypes : gmap string string)
    (idx : gmap string (gset string)) (entry : TimeEntry.t) (yt : YouTrack.t)
  : YouTrack.t * list Event * result unit -> Prop :=
| outcome_no_date :
    TimeEntry.startDate entry = None ->
    sync_entry_outcome options workTypes idx entry yt (yt, [], Throw TypeError)
| outcome_no_issue d :
    TimeEntry.startDate entry = Some d ->
    JS.truthy (TimeEntry.issueId entry) = false ->
    sync_entry_outcome options workTypes idx entry yt
      (yt, [WarnNoIssue (TimeEntry.description entry) d], Ok tt)
| outcome_not_indexed d i :
    TimeEntry.startDate entry = Some d ->
    TimeEntry.issueId entry = Some i -> JS.nonempty i = true ->
    idx !! i = None ->
    sync_entry_outcome options workTypes idx entry yt (yt, [], Throw TypeError)
| outcome_exists d i s :
    TimeEntry.startDate entry = Some d ->
    TimeEntry.issueId entry = Some i -> JS.nonempty i = true ->
    idx !! i = Some s -> TimeEntry.id entry ∈ s ->
    sync_entry_outcome options workTypes idx entry yt
      (yt, [LogSkipping (TimeEntry.description entry) i d], Ok tt)
| outcome_dry d i s :
    TimeEntry.startDate entry = Some d ->
    TimeEntry.issueId entry = Some i -> JS.nonempty i = true ->
    idx !! i = Some s -> TimeEntry.id entry ∉ s ->
    Options.dryRun options = true ->
    sync_entry_outcome options workTypes idx entry yt
      (yt, [LogSynced (TimeEntry.description entry) i d], Ok tt)
| outcome_rejected d i s :
    TimeEntry.startDate entry = Some d ->
    TimeEntry.issueId entry = Some i -> JS.nonempty i = true ->
    idx !! i = Some s -> TimeEntry.id entry ∉ s ->
    Options.dryRun options = false ->
    test_marker (WorkItemData.description (workItemData workTypes entry d)) = false ->
    sync_entry_outcome options workTypes idx entry yt (yt, [], Throw AssertionError)
| outcome_not_found d i s p :
    TimeEntry.startDate entry = Some d ->
    TimeEntry.issueId entry = Some i -> JS.nonempty i = true ->
    idx !! i = Some s -> TimeEntry.id entry ∉ s ->
    Options.dryRun options = false ->
    YouTrack.issues yt !! i = None ->
    sync_entry_outcome options workTypes idx entry yt
      (yt, [PostWorkItem i p], Throw HttpError)
| outcome_refused d i s p items :
    TimeEntry.startDate entry = Some d ->
    TimeEntry.issueId entry = Some i -> JS.nonempty i = true ->
    idx !! i = Some s -> TimeEntry.id entry ∉ s ->
    Options.dryRun options = false ->
    YouTrack.issues yt !! i = Some items ->
    YouTrack.refuses yt i p = true ->
    sync_entry_outcome options workTypes idx entry yt
      (yt, [PostWorkItem i p], Throw HttpError)
| outcome_created d i s p items :
    TimeEntry.startDate entry = Some d ->
    TimeEntry.issueId entry = Some i -> JS.nonempty i = true ->
    idx !! i = Some s -> TimeEntry.id entry ∉ s ->
    Options.dryRun options = false ->
    test_marker (WorkItemData.description (workItemData workTypes entry d)) = true ->
    Payload.text p = WorkItemData.description (workItemData workTypes entry d) ->
    YouTrack.issues yt !! i = Some items ->
    YouTrack.refuses yt i p = false ->
    sync_entry_outcome options workTypes idx entry yt
      ({| YouTrack.issues :=
            <[i := items ++ [ {| WorkItem.text := Some (Payload.text p);
                                 WorkItem.date := Some (Payload.date p) |} ] ]>
              (YouTrack.issues yt);
          YouTrack.workItemTypes := YouTrack.workItemTypes yt;
          YouTrack.refuses := YouTrack.refuses yt |},
       [PostWorkItem i p; LogSynced (TimeEntry.description entry) i d], Ok tt).

(** An entry whose marker is found again: an id of the 24-character shape
    and a description without bracketed token of its own. *)
Definition recognisable (id description : string) : Prop :=
  is_marker_shape id = true /\ extractInternalId description = None.

(** ** Sample data for the examples *)

Module Sample.
Definition date : Date := new_Date "2024-03-14T09:00:00Z".

Definition entry : TimeEntry.t :=
  {| TimeEntry.id := "64c777ddd3fcab07cfbb210c";
     TimeEntry.description := "review";
     TimeEntry.type := Some "development";
     TimeEntry.issueId := Some "AB-1";
     TimeEntry.startDate := Some date;
     TimeEntry.durationMinutes := Some 90%Q |}.

Definition entry_without_start : TimeEntry.t :=
  {| TimeEntry.id := "64c777ddd3fcab07cfbb210d";
     TimeEntry.description := "planning";
     TimeEntry.type := None;
     TimeEntry.issueId := None;
     TimeEntry.startDate := None;
     TimeEntry.durationMinutes := None |}.

Definition entry_without_issue : TimeEntry.t :=
  {| TimeEntry.id := "64c777ddd3fcab07cfbb210e";
     TimeEntry.description := "standup";
     TimeEntry.type := None;
     TimeEntry.issueId := None;
     TimeEntry.startDate := Some date;
     TimeEntry.durationMinutes := Some 15%Q |}.

Definition billableEntry : BillableEntry.t :=
  {| BillableEntry.id := "64c777ddd3fcab07cfbb210c";
     BillableEntry.description := "review";
     BillableEntry.billable := true;
     BillableEntry.tags := Some [ {| Tag.name := Some " Development " |} ];
     BillableEntry.task := Some {| Task.name := Some "AB-1 login" |};
     BillableEntry.timeInterval :=
       Some {| TimeInterval.start := Some "2024-03-14T09:00:00Z";
               TimeInterval.duration := Some "PT1H30M" |} |}.

Definition workTypes : gmap string string := {[ "development" := "7-1" ]}.

Definition youTrack : YouTrack.t :=
  {| YouTrack.issues := {[ "AB-1" := [] ]};
     YouTrack.workItemTypes :=
       [ {| WorkItemType.id := "7-1"; WorkItemType.name := "Development" |} ];
     YouTrack.refuses := fun _ _ => false |}.

Definition clockifyApi : Clockify := fun _ => Ok (Some [billableEntry]).

Definition now : Temporal.ZonedDateTime := Temporal.utc 2024 3 15 10 0 0.

(** The day before [now]: the range of a run without options. *)
Definition range : DateRange.t :=
  {| DateRange.start := Temporal.utc 2024 3 14 0 0 0;
     DateRange.end_ := Temporal.utc 2024 3 15 0 0 0 |}.

Definition marked : WorkItem.t :=
  {| WorkItem.text := Some "review [64c777ddd3fcab07cfbb210c]"; WorkItem.date := None |}.

Definition unmarked : WorkItem.t :=
  {| WorkItem.text := Some "entered by hand"; WorkItem.date := None |}.

(** A first page of 5000 items, one of them with a marker. *)
Definition page1 : list WorkItem.t := marked :: replicate 4999 unmarked.

(** A source that has the items of [page1] and nothing else. *)
Definition get (skip top : nat) : result (list WorkItem.t) :=
  Ok (take top (drop skip page1)).
End Sample.

(** A bound on the iterations that lets [getIssueWorkItems] read every
    issue of the tracker to its end. *)
Definition enough_fuel (fuel : nat) (yt : YouTrack.t) : Prop :=
  (0 < fuel)%nat /\
  forall i items,
    YouTrack.issues yt !! i = Some items -> (length items / limit < fuel)%nat.

(** ** Notions for the further properties *)

(** Every character of [s] satisfies [p]. *)
Fixpoint String_forall (p : ascii -> bool) (s : string) : bool :=
  match s with
  | EmptyString => true
  | String c r => p c && String_forall p r
  end.

(** [s] starts with a character that satisfies [p]. *)
Definition head_is (p : ascii -> bool) (s : string) : bool :=
  match s with
  | EmptyString => false
  | String c _ => p c
  end.

(** A whole issue key: characters from [A-Z0-9], a hyphen, digits. *)
Definition is_issue_key (k : string) : Prop :=
  exists key num,
    k = key +:+ "-" +:+ num /\
    JS.nonempty key = true /\ JS.nonempty num = true /\
    String_forall JS.is_upper_alnum key = true /\
    String_forall JS.is_digit num = true.

Definition not_space (c : ascii) : bool := negb (JS.is_space c).

(** The key of a work item type in the object built by
    [getAllWorkItemTypes]: [type.name.toLowerCase().trim()]. *)
Definition work_type_key (type : WorkItemType.t) : string :=
  JS.trim (JS.toLowerCase (WorkItemType.name type)).

(** The banner of a run: the line of the dry-run mode. *)
Definition banner (options : Options.t) : list Event :=
  if Options.dryRun options then [LogDryRunMode] else [].

(** The time entries of a run name the issues to index:
    [getUniqueBy(timeEntries.filter(entry => entry.issueId), entry => entry.issueId)]. *)
Definition uniqueIssueIds (timeEntries : list TimeEntry.t) : list string :=
  getUniqueBy
    (List.filter (fun entry => JS.truthy (TimeEntry.issueId entry)) timeEntries)
    TimeEntry.issueId.

(** The body of the POST request for the data of an entry. *)
Definition payload_of (data : WorkItemData.t) : Payload.t :=
  {| Payload.duration_minutes := WorkItemData.durationMinutes data;
     Payload.text := WorkItemData.description data;
     Payload.date := WorkItemData.date data;
     Payload.type_id :=
       if JS.truthy_value (WorkItemData.workTypeId data)
       then WorkItemData.workTypeId data else None |}.

(** The tracker after a work item was created for an issue. *)
Definition with_workItem (yt : YouTrack.t) (issueId : string)
    (items : list WorkItem.t) (p : Payload.t) : YouTrack.t :=
  {| YouTrack.issues :=
       <[issueId :=
           items ++ [ {| WorkItem.text := Some (Payload.text p);
                         WorkItem.date := Some (Payload.date p) |} ] ]>
         (YouTrack.issues yt);
     YouTrack.workItemTypes := YouTrack.workItemTypes yt;
     YouTrack.refuses := YouTrack.refuses yt |}.

(** A console line of the loop that reports an entry: its description and
    start date, and the issue if it has one. *)
Definition reports (entry : TimeEntry.t) (line : Event) : Prop :=
  exists d,
    TimeEntry.startDate entry = Some d /\
    ((JS.truthy (TimeEntry.issueId entry) = false /\
      line = WarnNoIssue (TimeEntry.description entry) d) \/
     (exists i,
        TimeEntry.issueId entry = Some i /\ JS.nonempty i = true /\
        (line = LogSkipping (TimeEntry.description entry) i d \/
         line = LogSynced (TimeEntry.description entry) i d))).


(** The days that [getOptionDateRange] goes back from the start of the
    current day to the other end of the window: one day forward for
    [--today], [n] days back for [--last-n-days n] with [n] other than 0,
    and one day back otherwise. *)
Definition days_back (options : Options.t) : Z :=
  if Options.today options then -1
  else
    match Options.lastNDays options with
    | Some n => if n =? 0 then 1 else n
    | None => 1
    end.

(** ** The text of a duration

    ISO 8601 durations as Temporal reads them, stated apart from the
    reading function [Temporal.parse]: a sign, [P], the date components
    years, months, weeks and days, and after [T] the time components hours,
    minutes and seconds. A component is a run of digits and its designator,
    in either case; a time component can carry a fraction of up to nine
    digits behind a point or a comma. *)

(** A run of decimal digits, not empty. *)
Definition is_digits (ds : string) : bool :=
  JS.nonempty ds && String_forall JS.is_digit ds.

Inductive sign_part : string -> Z -> Prop :=
| sign_absent : sign_part "" 1
| sign_plus : sign_part "+" 1
| sign_minus : sign_part "-" (-1).

(** A component of the date part, or nothing, with its value. *)
Inductive date_part (des : ascii) : string -> option Z -> Prop :=
| date_part_absent : date_part des "" None
| date_part_written ds c :
    is_digits ds = true -> Temporal.designator des c = true ->
    date_part des (ds +:+ String c "") (Some (Temporal.digits_value ds)).

(** A component of the time part, or nothing, with its length in
    nanoseconds and whether it has a fraction. *)
Inductive time_part (des : ascii) (unit_ns : Z)
  : string -> option (Z * bool) -> Prop :=
| time_part_absent : time_part des unit_ns "" None
| time_part_whole ds c :
    is_digits ds = true -> Temporal.designator des c = true ->
    time_part des unit_ns (ds +:+ String c "")
      (Some (Temporal.digits_value ds * unit_ns, false))
| time_part_fraction ds sep fs c :
    is_digits ds = true -> Temporal.is_decimal_separator sep = true ->
    is_digits fs = true -> (String.length fs <= 9)%nat ->
    Temporal.designator des c = true ->
    time_part des unit_ns (ds +:+ String sep (fs +:+ String c ""))
      (Some (Temporal.digits_value ds * unit_ns
             + Temporal.digits_value fs * unit_ns / 10 ^ Z.of_nat (String.length fs),
             true)).

(** The time part behind the date part, or nothing, with its length in
    nanoseconds: [T] and at least one component, a fraction only on the
    last one. *)
Inductive time_tail : string -> Z -> Prop :=
| time_tail_absent : time_tail "" 0
| time_tail_written t th h tmi mi ts sec :
    Temporal.designator "T" t = true ->
    time_part "H" Temporal.ns_per_hour th h ->
    time_part "M" Temporal.ns_per_minute tmi mi ->
    time_part "S" Temporal.ns_per_second ts sec ->
    Temporal.present h || Temporal.present mi || Temporal.present sec = true ->
    (Temporal.has_fraction h = true -> mi = None /\ sec = None) ->
    (Temporal.has_fraction mi = true -> sec = None) ->
    time_tail (String t (th +:+ tmi +:+ ts))
      (Temporal.ns_of h + Temporal.ns_of mi + Temporal.ns_of sec).

(** A duration text and the duration it writes: at least one component. *)
Inductive duration_text : string -> Temporal.Duration -> Prop :=
| duration_text_intro sg sgn p ty y tmo mo tw w td d tail time_ns :
    sign_part sg sgn -> Temporal.designator "P" p = true ->
    date_part "Y" ty y -> date_part "M" tmo mo ->
    date_part "W" tw w -> date_part "D" td d ->
    time_tail tail time_ns ->
    (tail = "" ->
     Temporal.present y || Temporal.present mo || Temporal.present w
     || Temporal.present d = true) ->
    duration_text (sg +:+ String p (ty +:+ tmo +:+ tw +:+ td +:+ tail))
      {| Temporal.sign := sgn;
         Temporal.years := Temporal.value y; Temporal.months := Temporal.value mo;
         Temporal.weeks := Temporal.value w; Temporal.days := Temporal.value d;
         Temporal.time_ns := time_ns |}.

(** A text on which the reading of a component of the date part finds
    nothing. *)
Definition date_foreign (des : ascii) (s : string) : Prop :=
  Temporal.date_component des s = (None, s).

Definition time_foreign (des : ascii) (s : string) : Prop :=
  forall unit_ns, Temporal.time_component des unit_ns s = (None, s).

(** The durations that [createTimeEntry] can convert to minutes: a
    duration text without years, months and weeks (none written, or
    written as zero), shorter than 2^53 seconds. *)
Definition convertible (duration : string) : Prop :=
  exists d,
    duration_text duration d /\
    Temporal.years d = 0 /\ Temporal.months d = 0 /\ Temporal.weeks d = 0 /\
    Temporal.days d * Temporal.ns_per_day + Temporal.time_ns d
    < 2 ^ 53 * Temporal.ns_per_second.

(** The records that [createTimeEntry] has nothing to raise on: a time
    interval object, a name on the first tag if there is one, and a
    duration that is missing, empty or convertible. *)
Definition well_formed (billableEntry : BillableEntry.t) : Prop :=
  (forall tag,
      BillableEntry.tags billableEntry ≫= head = Some tag -> is_Some (Tag.name tag)) /\
  exists timeInterval,
    BillableEntry.timeInterval billableEntry = Some timeInterval /\
    forall duration,
      TimeInterval.duration timeInterval = Some duration ->
      JS.nonempty duration = true -> convertible duration.

(** Further sample data. *)
Module Sample2.
(** An entry that is not flagged billable. *)
Definition lunch : BillableEntry.t :=
  {| BillableEntry.id := "64c777ddd3fcab07cfbb2aaa";
     BillableEntry.description := "lunch";
     BillableEntry.billable := false;
     BillableEntry.tags := None;
     BillableEntry.task := Some {| Task.name := Some "AB-1" |};
     BillableEntry.timeInterval := None |}.

(** An entry with a duration that is no ISO 8601 duration. *)
Definition malformed : BillableEntry.t :=
  {| BillableEntry.id := "64c777ddd3fcab07cfbb2bbb";
     BillableEntry.description := "call";
     BillableEntry.billable := true;
     BillableEntry.tags := None;
     BillableEntry.task := None;
     BillableEntry.timeInterval :=
       Some {| TimeInterval.start := Some "2024-03-14T11:00:00Z";
               TimeInterval.duration := Some "90 minutes" |} |}.

(** An entry for an issue that the sample tracker does not have. *)
Definition elsewhere : BillableEntry.t :=
  {| BillableEntry.id := "64c777ddd3fcab07cfbb2ccc";
     BillableEntry.description := "migration";
     BillableEntry.billable := true;
     BillableEntry.tags := None;
     BillableEntry.task := Some {| Task.name := Some "ZZ-9 migration" |};
     BillableEntry.timeInterval :=
       Some {| TimeInterval.start := Some "2024-03-14T13:00:00Z";
               TimeInterval.duration := Some "PT30M" |} |}.

Definition with_lunch : Clockify :=
  fun _ => Ok (Some [lunch; Sample.billableEntry]).

Definition with_malformed : Clockify :=
  fun _ => Ok (Some [Sample.billableEntry; malformed]).

Definition with_elsewhere : Clockify :=
  fun _ => Ok (Some [Sample.billableEntry; elsewhere]).

Definition twice : Clockify :=
  fun _ => Ok (Some [Sample.billableEntry; Sample.billableEntry]).

(** The sample tracker, refusing every create request. *)
Definition refusing : YouTrack.t :=
  {| YouTrack.issues := YouTrack.issues Sample.youTrack;
     YouTrack.workItemTypes := YouTrack.workItemTypes Sample.youTrack;
     YouTrack.refuses := fun _ _ => true |}.
End Sample2.

(** * Examples *)

Example trim_ex : JS.trim "  ABC-123 fix login  " = "ABC-123 fix login".
Proof. reflexivity. Qed.

Example toLowerCase_ex : JS.trim (JS.toLowerCase " Development ") = "development".
Proof. reflexivity. Qed.

Example extractIssueId_key : extractIssueId "  ABC-123 fix login " = Some "ABC-123".
Proof. reflexivity. Qed.

Example extractIssueId_lower_case : extractIssueId "abc-123" = None.
Proof. reflexivity. Qed.

Example extractIssueId_second_hyphen : extractIssueId "AB-12-7x" = Some "AB-12".
Proof. reflexivity. Qed.

Example extractIssueId_not_at_start : extractIssueId "see ABC-123" = None.
Proof. reflexivity. Qed.

Example extractInternalId_marker :
  extractInternalId "review [64c777ddd3fcab07cfbb210c]" = Some "64c777ddd3fcab07cfbb210c".
Proof. reflexivity. Qed.

Example extractInternalId_short_token : extractInternalId "review [64c777]" = None.
Proof. reflexivity. Qed.

Example extractInternalId_upper_case :
  extractInternalId "review [64C777DDD3FCAB07CFBB210C]" = None.
Proof. reflexivity. Qed.

Example extractInternalId_leftmost :
  extractInternalId "[aaaaaaaaaaaaaaaaaaaaaaaa] [bbbbbbbbbbbbbbbbbbbbbbbb]"
  = Some "aaaaaaaaaaaaaaaaaaaaaaaa".
Proof. reflexivity. Qed.

Example Duration_hours_minutes : Duration_total_minutes "PT1H30M" = Ok 90%Q.
Proof. reflexivity. Qed.

Example Duration_seconds : Duration_total_minutes "PT45S" = Ok (3 # 4)%Q.
Proof. reflexivity. Qed.

Example Duration_fraction : Duration_total_minutes "PT1.5H" = Ok 90%Q.
Proof. reflexivity. Qed.

Example Duration_days : Duration_total_minutes "P1DT1M" = Ok 1441%Q.
Proof. reflexivity. Qed.

Example Duration_months : Duration_total_minutes "P1M" = Throw RangeError.
Proof. reflexivity. Qed.

Example Duration_no_component : Duration_total_minutes "PT" = Throw RangeError.
Proof. reflexivity. Qed.

Example Duration_fraction_not_last : Duration_total_minutes "PT1.5H30M" = Throw RangeError.
Proof. reflexivity. Qed.

Example utc_epoch : Temporal.epochNanoseconds (Temporal.utc 1970 1 1 0 0 0) = 0.
Proof. reflexivity. Qed.

Example utc_2024_03_15 :
  Temporal.epochNanoseconds (Temporal.utc 2024 3 15 0 0 0)
  = 1710460800 * Temporal.ns_per_second.
Proof. reflexivity. Qed.

Example createTimeEntry_sample :
  createTimeEntry Sample.billableEntry = Ok Sample.entry.
Proof. reflexivity. Qed.

Example getUniqueBy_ex :
  getUniqueBy [Sample.entry; Sample.entry_without_issue; Sample.entry]
              TimeEntry.issueId
  = ["AB-1"].
Proof. by vm_compute. Qed.

(** * Properties *)

(** ** Strings and the marker pattern *)

Section MarkerPattern.

Implicit Types (s t u : string) (c : ascii).

Lemma append_cons c s t : String c s +:+ t = String c (s +:+ t).
Proof. reflexivity. Qed.

Lemma append_nil t : "" +:+ t = t.
Proof. reflexivity. Qed.

Lemma append_empty_r s : s +:+ "" = s.
Proof. induction s as [|c r IH]; [done | by rewrite append_cons, IH]. Qed.

Lemma append_assoc s t u : (s +:+ t) +:+ u = s +:+ (t +:+ u).
Proof. induction s as [|c r IH]; [done | by rewrite !append_cons, IH]. Qed.

Lemma space_inert c : JS.is_space c = true -> inert c = true.
Proof. destruct c as [[] [] [] [] [] [] [] []]; vm_compute; congruence. Qed.

Lemma inert_not_class c : inert c = true -> JS.is_lower_alnum c = false.
Proof. unfold inert. destruct (JS.is_lower_alnum c); simpl; congruence. Qed.

Lemma inert_not_open c : inert c = true -> c <> "["%char.
Proof.
  unfold inert. intros H ->. rewrite Ascii.eqb_refl in H.
  rewrite andb_false_r in H. discriminate.
Qed.

Lemma inert_not_close c : inert c = true -> c <> "]"%char.
Proof.
  unfold inert. intros H ->. rewrite Ascii.eqb_refl in H.
  rewrite andb_false_r in H. discriminate.
Qed.

Lemma exactly_app p n s a b t :
  JS.exactly p n s = Some (a, b) -> JS.exactly p n (s +:+ t) = Some (a, b +:+ t).
Proof.
  revert s a b. induction n as [|n IH]; intros s a b; simpl.
  - by intros [= <- <-].
  - destruct s as [|c r]; [done|]. rewrite append_cons. destruct (p c); [|done].
    destruct (JS.exactly p n r) as [[a' b']|] eqn:E; [|done].
    intros [= <- <-]. by rewrite (IH _ _ _ E).
Qed.

Lemma exactly_split p n s a b :
  JS.exactly p n s = Some (a, b) -> s = a +:+ b /\ String.length a = n.
Proof.
  revert s a b. induction n as [|n IH]; intros s a b; simpl.
  - by intros [= <- <-].
  - destruct s as [|c r]; [done|]. destruct (p c); [|done].
    destruct (JS.exactly p n r) as [[a' b']|] eqn:E; [|done].
    intros [= <- <-]. destruct (IH _ _ _ E) as [-> <-]. done.
Qed.

Lemma exactly_none_app p n s c t :
  JS.exactly p n s = None -> p c = false ->
  JS.exactly p n (s +:+ String c t) = None.
Proof.
  revert s. induction n as [|n IH]; intros s; simpl; [done|].
  destruct s as [|a r].
  - rewrite append_nil. by intros _ ->.
  - rewrite append_cons. destruct (p a); [|done].
    destruct (JS.exactly p n r) as [[a' b']|] eqn:E; [done|].
    intros _ Hc. by rewrite (IH _ E Hc).
Qed.

Lemma marker_here_open r :
  marker_here (String "[" r) =
  match JS.exactly JS.is_lower_alnum 24 r with
  | Some (tok, String "]" _) => Some tok
  | _ => None
  end.
Proof. reflexivity. Qed.

Lemma marker_here_other c r : c <> "["%char -> marker_here (String c r) = None.
Proof. intros H. destruct c as [[] [] [] [] [] [] [] []]; done. Qed.

Lemma marker_here_nil : marker_here "" = None.
Proof. reflexivity. Qed.

Lemma close_case (A : Type) (d : ascii) (x y : A) :
  d <> "]"%char ->
  match d with "]"%char => x | _ => y end = y.
Proof. intros H. destruct d as [[] [] [] [] [] [] [] []]; done. Qed.

(** A match at the head of [s] stays when [s] is extended. *)
Lemma marker_here_app s t tok :
  marker_here s = Some tok -> marker_here (s +:+ t) = Some tok.
Proof.
  destruct s as [|c r]; [done|]. rewrite append_cons.
  destruct (decide (c = "["%char)) as [->|Hc].
  - rewrite !marker_here_open.
    destruct (JS.exactly JS.is_lower_alnum 24 r) as [[a b]|] eqn:E; [|done].
    rewrite (exactly_app _ _ _ _ _ t E).
    destruct b as [|d b']; [done|]. by rewrite append_cons.
  - by rewrite marker_here_other.
Qed.

(** An inert character cannot complete a match. *)
Lemma marker_here_inert s c t :
  marker_here s = None -> inert c = true ->
  marker_here (s +:+ String c t) = None.
Proof.
  intros Hs Hc. destruct s as [|a r].
  - rewrite append_nil. apply marker_here_other, inert_not_open, Hc.
  - rewrite append_cons. destruct (decide (a = "["%char)) as [->|Ha].
    + rewrite marker_here_open in *.
      destruct (JS.exactly JS.is_lower_alnum 24 r) as [[a b]|] eqn:E.
      * rewrite (exactly_app _ _ _ _ _ (String c t) E).
        destruct b as [|d b'].
        -- rewrite append_nil. apply close_case, inert_not_close, Hc.
        -- rewrite append_cons.
           destruct (decide (d = "]"%char)) as [->|Hd]; [done|].
           by apply close_case.
      * by rewrite (exactly_none_app _ _ _ _ _ E (inert_not_class _ Hc)).
    + by apply marker_here_other.
Qed.

Lemma match_marker_cons c r :
  match_marker (String c r) =
  match marker_here (String c r) with
  | Some tok => Some tok
  | None => match_marker r
  end.
Proof. reflexivity. Qed.

(** The search through [s] followed by an inert character and [t]: a
    match inside [s], or else a match inside [t]. *)
Lemma match_marker_app_inert s c t :
  inert c = true ->
  match_marker (s +:+ String c t) =
  match match_marker s with Some tok => Some tok | None => match_marker t end.
Proof.
  intros Hc. induction s as [|a r IH].
  - rewrite append_nil, match_marker_cons.
    by rewrite (marker_here_other c t (inert_not_open _ Hc)).
  - rewrite append_cons, !match_marker_cons, <- append_cons.
    destruct (marker_here (String a r)) as [tok|] eqn:E.
    + by rewrite (marker_here_app _ _ _ E).
    + by rewrite (marker_here_inert _ _ _ E Hc).
Qed.

Lemma match_marker_all_space s : all_space s = true -> match_marker s = None.
Proof.
  induction s as [|c r IH]; [done|]. simpl all_space.
  intros [Hc Hr]%andb_true_iff. rewrite match_marker_cons.
  rewrite (marker_here_other c r (inert_not_open _ (space_inert _ Hc))). auto.
Qed.

Lemma match_marker_app_space s w :
  all_space w = true -> match_marker (s +:+ w) = match_marker s.
Proof.
  destruct w as [|c w']; [by rewrite append_empty_r|]. simpl all_space.
  intros [Hc Hw]%andb_true_iff.
  rewrite (match_marker_app_inert _ _ _ (space_inert _ Hc)).
  rewrite (match_marker_all_space _ Hw). by destruct (match_marker s).
Qed.

Lemma trimEnd_spec s : exists w, all_space w = true /\ s = JS.trimEnd s +:+ w.
Proof.
  induction s as [|c r (w & Hw & IH)]; [by exists ""|]. simpl.
  destruct (JS.trimEnd r) as [|d r'] eqn:E.
  - rewrite append_nil in IH. subst r.
    destruct (JS.is_space c) eqn:Hc.
    + exists (String c w). split; [simpl; by rewrite Hc, Hw | done].
    + exists w. by rewrite append_cons, append_nil.
  - exists w. split; [done|]. by rewrite append_cons, <- IH.
Qed.

Lemma match_marker_trimEnd s : match_marker (JS.trimEnd s) = match_marker s.
Proof.
  destruct (trimEnd_spec s) as (w & Hw & E). rewrite E at 2.
  by rewrite match_marker_app_space.
Qed.

Lemma match_marker_trimStart s : match_marker (JS.trimStart s) = match_marker s.
Proof.
  induction s as [|c r IH]; [done|].
  change (JS.trimStart (String c r))
    with (if JS.is_space c then JS.trimStart r else String c r).
  destruct (JS.is_space c) eqn:Hc; [|done].
  rewrite IH, match_marker_cons.
  by rewrite (marker_here_other c r (inert_not_open _ (space_inert _ Hc))).
Qed.

(** Trimming does not change what [extractInternalId] finds. *)
Lemma extractInternalId_match s : extractInternalId s = match_marker s.
Proof.
  unfold extractInternalId, JS.trim.
  by rewrite match_marker_trimEnd, match_marker_trimStart.
Qed.

Lemma marker_here_shape id t :
  is_marker_shape id = true -> marker_here ("[" +:+ id +:+ "]" +:+ t) = Some id.
Proof.
  unfold is_marker_shape. intros H.
  destruct (JS.exactly JS.is_lower_alnum 24 id) as [[a b]|] eqn:E; [|done].
  destruct b; [|done].
  destruct (exactly_split _ _ _ _ _ E) as [Hid _]. rewrite append_empty_r in Hid.
  subst a. rewrite append_cons, append_nil, marker_here_open.
  by rewrite (exactly_app _ _ _ _ _ ("]" +:+ t) E).
Qed.

(** The text of a created work item, searched for a marker. *)
Lemma match_marker_text desc id :
  is_marker_shape id = true ->
  match_marker (desc +:+ " [" +:+ id +:+ "]") =
  match match_marker desc with Some tok => Some tok | None => Some id end.
Proof.
  intros H. change (" [" +:+ id +:+ "]") with (String " " ("[" +:+ id +:+ "]")).
  rewrite match_marker_app_inert by done.
  destruct (match_marker desc); [done|].
  change ("[" +:+ id +:+ "]") with (String "[" (id +:+ "]")).
  rewrite match_marker_cons.
  change (String "[" (id +:+ "]")) with ("[" +:+ id +:+ "]" +:+ "").
  by rewrite marker_here_shape.
Qed.

Lemma test_marker_text desc id :
  is_marker_shape id = true -> test_marker (desc +:+ " [" +:+ id +:+ "]") = true.
Proof.
  intros H. unfold test_marker. rewrite match_marker_text by done.
  by destruct (match_marker desc).
Qed.
End MarkerPattern.

(** ** Marker round trip *)

(** C3, as stated, fails: a description that carries a bracketed token of
    its own hides the marker appended behind it. *)
Lemma C3_description_token_shadows_marker :
  let entry :=
    {| TimeEntry.id := "aaaaaaaaaaaaaaaaaaaaaaaa";
       TimeEntry.description := "see [bbbbbbbbbbbbbbbbbbbbbbbb]";
       TimeEntry.type := None; TimeEntry.issueId := Some "AB-1";
       TimeEntry.startDate := Some (new_Date "2024-03-14T09:00:00Z");
       TimeEntry.durationMinutes := None |} in
  is_marker_shape (TimeEntry.id entry) = true /\
  extractInternalId
    (WorkItemData.description
       (workItemData ∅ entry (new_Date "2024-03-14T09:00:00Z")))
  = Some "bbbbbbbbbbbbbbbbbbbbbbbb" /\
  Some "bbbbbbbbbbbbbbbbbbbbbbbb" <> Some (TimeEntry.id entry).
Proof. vm_compute. repeat split; congruence. Qed.

Lemma created_text_extraction workTypes entry d :
  is_marker_shape (TimeEntry.id entry) = true ->
  extractInternalId (WorkItemData.description (workItemData workTypes entry d)) =
  match extractInternalId (TimeEntry.description entry) with
  | Some tok => Some tok
  | None => Some (TimeEntry.id entry)
  end.
Proof.
  intros Hid. cbn [workItemData WorkItemData.description].
  rewrite !extractInternalId_match. by apply match_marker_text.
Qed.

(** C3, amended: for an entry id of the 24-character shape, extraction from
    the created description gives the first bracketed token of the entry's
    own description when there is one, and the entry id otherwise; so the
    round trip holds exactly for descriptions without such a token. *)
Theorem C3_extraction_round_trip
    (workTypes : gmap string string) (entry : TimeEntry.t) (d : Date) :
  is_marker_shape (TimeEntry.id entry) = true ->
  extractInternalId (WorkItemData.description (workItemData workTypes entry d)) =
  match extractInternalId (TimeEntry.description entry) with
  | Some tok => Some tok
  | None => Some (TimeEntry.id entry)
  end.
Proof. apply created_text_extraction. Qed.

Lemma C3_extraction_round_trip_witness :
  extractInternalId
    (WorkItemData.description
       (workItemData ∅
          {| TimeEntry.id := "64c777ddd3fcab07cfbb210c";
             TimeEntry.description := "review [draft]";
             TimeEntry.type := None; TimeEntry.issueId := None;
             TimeEntry.startDate := None; TimeEntry.durationMinutes := None |}
          (new_Date "2024-03-14T09:00:00Z")))
  = Some "64c777ddd3fcab07cfbb210c".
Proof.
  exact (C3_extraction_round_trip ∅
    {| TimeEntry.id := "64c777ddd3fcab07cfbb210c";
       TimeEntry.description := "review [draft]";
       TimeEntry.type := None; TimeEntry.issueId := None;
       TimeEntry.startDate := None; TimeEntry.durationMinutes := None |}
    (new_Date "2024-03-14T09:00:00Z") eq_refl).
Defined.

(** ** The precondition of a create call *)

Lemma postIssueWorkItem_rejects issueId data yt :
  test_marker (WorkItemData.description data) = false ->
  postIssueWorkItem issueId data yt = (yt, [], Throw AssertionError).
Proof. intros H. unfold postIssueWorkItem. by rewrite H. Qed.

Lemma postIssueWorkItem_accepts issueId data yt :
  test_marker (WorkItemData.description data) = true ->
  exists p r, postIssueWorkItem issueId data yt = (r.1, [PostWorkItem issueId p], r.2)
    /\ Payload.text p = WorkItemData.description data
    /\ r.2 <> Throw AssertionError.
Proof.
  intros H. unfold postIssueWorkItem. rewrite H.
  destruct (YouTrack.post_workItem _ _ _) as [yt'|e] eqn:E.
  - eexists _, (yt', Ok tt). by repeat split.
  - eexists _, (yt, Throw e). repeat split.
    unfold YouTrack.post_workItem in E.
    destruct (_ !! _); [destruct (YouTrack.refuses _ _ _); [|done]|];
      simpl; by injection E as <-.
Qed.

Lemma workItemData_test_marker workTypes entry d :
  is_marker_shape (TimeEntry.id entry) = true ->
  test_marker (WorkItemData.description (workItemData workTypes entry d)) = true.
Proof. intros H. by apply test_marker_text. Qed.

(** Unfolding of the monad on a state. *)
Lemma M_bind_eq {A B} (f : A -> M B) (m : M A) yt :
  (m ≫= f) yt =
  let '(yt1, t1, r) := m yt in
  match r with
  | Ok a => let '(yt2, t2, r2) := f a yt1 in (yt2, t1 ++ t2, r2)
  | Throw e => (yt1, t1, Throw e)
  end.
Proof. reflexivity. Qed.

Lemma for_of_cons {A} (x : A) rest (body : A -> M unit) yt :
  for_of (x :: rest) body yt =
  let '(yt1, t1, r) := body x yt in
  match r with
  | Ok _ => let '(yt2, t2, r2) := for_of rest body yt1 in (yt2, t1 ++ t2, r2)
  | Throw e => (yt1, t1, Throw e)
  end.
Proof. reflexivity. Qed.

(** The outcome of the loop body, case by case. *)
Lemma sync_entry_no_date options workTypes idx entry yt :
  TimeEntry.startDate entry = None ->
  sync_entry options workTypes idx entry yt = (yt, [], Throw TypeError).
Proof. intros H. unfold sync_entry. rewrite M_bind_eq. unfold lift. by rewrite H. Qed.

Lemma sync_entry_no_issue options workTypes idx entry d yt :
  TimeEntry.startDate entry = Some d ->
  JS.truthy (TimeEntry.issueId entry) = false ->
  sync_entry options workTypes idx entry yt =
  (yt, [WarnNoIssue (TimeEntry.description entry) d], Ok tt).
Proof.
  intros Hd Hi. unfold sync_entry. rewrite M_bind_eq. unfold lift. rewrite Hd.
  destruct (TimeEntry.issueId entry) as [i|]; [|done].
  simpl in Hi. by rewrite Hi.
Qed.

Lemma sync_entry_not_indexed options workTypes idx entry d i yt :
  TimeEntry.startDate entry = Some d ->
  TimeEntry.issueId entry = Some i -> JS.nonempty i = true ->
  idx !! i = None ->
  sync_entry options workTypes idx entry yt = (yt, [], Throw TypeError).
Proof.
  intros Hd Hi Hn Hx. unfold sync_entry. rewrite M_bind_eq. unfold lift.
  rewrite Hd, Hi, Hn. rewrite M_bind_eq. by rewrite Hx.
Qed.

Lemma sync_entry_exists options workTypes idx entry d i (s : gset string) yt :
  TimeEntry.startDate entry = Some d ->
  TimeEntry.issueId entry = Some i -> JS.nonempty i = true ->
  idx !! i = Some s -> TimeEntry.id entry ∈ s ->
  sync_entry options workTypes idx entry yt =
  (yt, [LogSkipping (TimeEntry.description entry) i d], Ok tt).
Proof.
  intros Hd Hi Hn Hx Hin. unfold sync_entry. rewrite M_bind_eq. unfold lift.
  rewrite Hd, Hi, Hn. rewrite M_bind_eq. rewrite Hx.
  by rewrite decide_True.
Qed.

Lemma sync_entry_create options workTypes idx entry d i (s : gset string) yt :
  TimeEntry.startDate entry = Some d ->
  TimeEntry.issueId entry = Some i -> JS.nonempty i = true ->
  idx !! i = Some s -> TimeEntry.id entry ∉ s ->
  sync_entry options workTypes idx entry yt =
  ((if Options.dryRun options then mret tt
    else postIssueWorkItem i (workItemData workTypes entry d)) ≫= fun _ =>
   emit (LogSynced (TimeEntry.description entry) i d)) yt.
Proof.
  intros Hd Hi Hn Hx Hin. unfold sync_entry. rewrite M_bind_eq. unfold lift.
  rewrite Hd, Hi, Hn. rewrite M_bind_eq. rewrite Hx.
  rewrite decide_False by done.
  set (m := _ ≫= _). by destruct (m yt) as [[??]?].
Qed.

(** C8: [postIssueWorkItem] checks the description against the marker
    pattern before it posts: a description without marker raises
    [AssertionError] and no request is sent, and a request is sent only for a
    description with a marker. For an entry whose id has the 24-character
    shape the description built by the loop passes the check, so neither the
    create call nor the loop body raises [AssertionError]. *)
Theorem C8_create_precondition :
  (forall issueId data yt,
      test_marker (WorkItemData.description data) = false ->
      postIssueWorkItem issueId data yt = (yt, [], Throw AssertionError)) /\
  (forall issueId data yt p,
      PostWorkItem issueId p ∈ (postIssueWorkItem issueId data yt).1.2 ->
      test_marker (WorkItemData.description data) = true) /\
  (forall options workTypes idx entry issueId d yt,
      is_marker_shape (TimeEntry.id entry) = true ->
      (postIssueWorkItem issueId (workItemData workTypes entry d) yt).2
        <> Throw AssertionError /\
      (sync_entry options workTypes idx entry yt).2 <> Throw AssertionError).
Proof.
  split; [|split].
  - apply postIssueWorkItem_rejects.
  - intros issueId data yt p. destruct (test_marker _) eqn:E; [done|].
    rewrite postIssueWorkItem_rejects by done. simpl. by intros ?%elem_of_nil.
  - intros options workTypes idx entry issueId d yt Hid.
    assert (forall i d', (postIssueWorkItem i (workItemData workTypes entry d') yt).2
                 <> Throw AssertionError) as Hpost.
    { intros i d'.
      destruct (postIssueWorkItem_accepts i _ yt
                  (workItemData_test_marker workTypes entry d' Hid))
        as (p & r & -> & _ & Hr). done. }
    split; [apply Hpost|].
    destruct (TimeEntry.startDate entry) as [d'|] eqn:Hd;
      [|by rewrite sync_entry_no_date].
    destruct (JS.truthy (TimeEntry.issueId entry)) eqn:Ht;
      [|by rewrite (sync_entry_no_issue _ _ _ _ d')].
    destruct (TimeEntry.issueId entry) as [i|] eqn:Hi; [|done]. simpl in Ht.
    destruct (idx !! i) as [s|] eqn:Hx;
      [|by rewrite (sync_entry_not_indexed _ _ _ _ d' i)].
    destruct (decide (TimeEntry.id entry ∈ s)) as [Hin|Hin];
      [by rewrite (sync_entry_exists _ _ _ _ d' i s)|].
    rewrite (sync_entry_create _ _ _ _ d' i s) by done.
    rewrite M_bind_eq. destruct (Options.dryRun options); [done|].
    specialize (Hpost i d').
    destruct (postIssueWorkItem i _ yt) as [[yt1 t1] [[]|e]]; simpl in *; done.
Qed.

Lemma C8_create_precondition_witness :
  postIssueWorkItem "AB-1"
    {| WorkItemData.description := "review"; WorkItemData.date := new_Date "d";
       WorkItemData.durationMinutes := None; WorkItemData.workTypeId := None |}
    {| YouTrack.issues := {[ "AB-1" := [] ]}; YouTrack.workItemTypes := [];
       YouTrack.refuses := fun _ _ => false |}
  = ({| YouTrack.issues := {[ "AB-1" := [] ]}; YouTrack.workItemTypes := [];
       YouTrack.refuses := fun _ _ => false |},
     [], Throw AssertionError) /\
  (sync_entry
     {| Options.today := false; Options.yesterday := false;
        Options.lastNDays := None; Options.dryRun := false |}
     ∅ {[ "AB-1" := ∅ ]}
     {| TimeEntry.id := "64c777ddd3fcab07cfbb210c";
        TimeEntry.description := "review";
        TimeEntry.type := None; TimeEntry.issueId := Some "AB-1";
        TimeEntry.startDate := Some (new_Date "2024-03-14T09:00:00Z");
        TimeEntry.durationMinutes := None |}
     {| YouTrack.issues := {[ "AB-1" := [] ]}; YouTrack.workItemTypes := [];
       YouTrack.refuses := fun _ _ => false |}).2
  <> Throw AssertionError.
Proof.
  split.
  - apply (proj1 C8_create_precondition). reflexivity.
  - apply (proj2 (proj2 C8_create_precondition)
             {| Options.today := false; Options.yesterday := false;
                Options.lastNDays := None; Options.dryRun := false |}
             ∅ {[ "AB-1" := ∅ ]} _ "AB-1" (new_Date "d")).
    reflexivity.
Defined.

(** The create call, case by case. *)
Lemma postIssueWorkItem_eq issueId data yt :
  postIssueWorkItem issueId data yt =
  if test_marker (WorkItemData.description data) then
    match YouTrack.issues yt !! issueId with
    | Some items =>
        if YouTrack.refuses yt issueId (payload_of data) then
          (yt, [PostWorkItem issueId (payload_of data)], Throw HttpError)
        else
          (with_workItem yt issueId items (payload_of data),
           [PostWorkItem issueId (payload_of data)], Ok tt)
    | None => (yt, [PostWorkItem issueId (payload_of data)], Throw HttpError)
    end
  else (yt, [], Throw AssertionError).
Proof.
  unfold postIssueWorkItem. destruct (test_marker _); [|done].
  unfold YouTrack.post_workItem, payload_of.
  destruct (YouTrack.issues yt !! issueId); [|done].
  by destruct (YouTrack.refuses yt issueId _).
Qed.

(** The loop body on an entry to create, in a live run. *)
Lemma sync_entry_live options workTypes idx entry d i (s : gset string) yt :
  Options.dryRun options = false ->
  TimeEntry.startDate entry = Some d ->
  TimeEntry.issueId entry = Some i -> JS.nonempty i = true ->
  idx !! i = Some s -> TimeEntry.id entry ∉ s ->
  sync_entry options workTypes idx entry yt =
  let data := workItemData workTypes entry d in
  if test_marker (WorkItemData.description data) then
    match YouTrack.issues yt !! i with
    | Some items =>
        if YouTrack.refuses yt i (payload_of data) then
          (yt, [PostWorkItem i (payload_of data)], Throw HttpError)
        else
          (with_workItem yt i items (payload_of data),
           [PostWorkItem i (payload_of data);
            LogSynced (TimeEntry.description entry) i d], Ok tt)
    | None => (yt, [PostWorkItem i (payload_of data)], Throw HttpError)
    end
  else (yt, [], Throw AssertionError).
Proof.
  intros Hlive Hd Hi Hn Hx Hin.
  rewrite (sync_entry_create _ _ _ _ d i s) by done.
  rewrite M_bind_eq, Hlive, postIssueWorkItem_eq. cbn zeta.
  destruct (test_marker _); [|done].
  destruct (YouTrack.issues yt !! i); [|done].
  by destruct (YouTrack.refuses yt i _).
Qed.

Lemma sync_entry_dry options workTypes idx entry d i (s : gset string) yt :
  Options.dryRun options = true ->
  TimeEntry.startDate entry = Some d ->
  TimeEntry.issueId entry = Some i -> JS.nonempty i = true ->
  idx !! i = Some s -> TimeEntry.id entry ∉ s ->
  sync_entry options workTypes idx entry yt =
  (yt, [LogSynced (TimeEntry.description entry) i d], Ok tt).
Proof.
  intros Hdry Hd Hi Hn Hx Hin.
  rewrite (sync_entry_create _ _ _ _ d i s) by done.
  by rewrite M_bind_eq, Hdry.
Qed.

(** ** Date ranges *)

Lemma startOfDay_midnight t : Temporal.is_midnight (Temporal.startOfDay t).
Proof.
  unfold Temporal.is_midnight, Temporal.startOfDay. simpl.
  rewrite Zminus_mod_idemp_r, Z.sub_diag. reflexivity.
Qed.

Lemma add_days_midnight t n t' :
  Temporal.is_midnight t -> Temporal.add_days t n = Ok t' ->
  Temporal.is_midnight t'.
Proof.
  unfold Temporal.is_midnight, Temporal.add_days. intros H.
  destruct (_ && _); [|done]. intros [= <-]. simpl.
  by rewrite Z_mod_plus_full.
Qed.

Lemma subtract_days_midnight t n t' :
  Temporal.is_midnight t -> Temporal.subtract_days t n = Ok t' ->
  Temporal.is_midnight t'.
Proof.
  unfold Temporal.is_midnight, Temporal.subtract_days. intros H.
  destruct (_ && _); [|done]. intros [= <-]. simpl.
  replace (Temporal.epochNanoseconds t - n * Temporal.ns_per_day)
    with (Temporal.epochNanoseconds t + (- n) * Temporal.ns_per_day) by lia.
  by rewrite Z_mod_plus_full.
Qed.

(** C6: at 2024-03-15T10:00:00Z, [--today] selects 15 March to 16 March,
    no flag selects 14 March to 15 March, [--last-n-days 3] selects 12 March
    to 15 March, each from midnight to midnight UTC; and whatever the instant
    and the options, both ends of a range selected are midnights of UTC. *)
Theorem C6_date_range_selection :
  let now := Temporal.utc 2024 3 15 10 0 0 in
  getOptionDateRange now
    {| Options.today := true; Options.yesterday := false;
       Options.lastNDays := None; Options.dryRun := false |}
  = Ok {| DateRange.start := Temporal.utc 2024 3 15 0 0 0;
          DateRange.end_ := Temporal.utc 2024 3 16 0 0 0 |} /\
  getOptionDateRange now options_default
  = Ok {| DateRange.start := Temporal.utc 2024 3 14 0 0 0;
          DateRange.end_ := Temporal.utc 2024 3 15 0 0 0 |} /\
  getOptionDateRange now
    {| Options.today := false; Options.yesterday := false;
       Options.lastNDays := Some 3; Options.dryRun := false |}
  = Ok {| DateRange.start := Temporal.utc 2024 3 12 0 0 0;
          DateRange.end_ := Temporal.utc 2024 3 15 0 0 0 |} /\
  forall t options range,
    getOptionDateRange t options = Ok range ->
    Temporal.is_midnight (DateRange.start range) /\
    Temporal.is_midnight (DateRange.end_ range).
Proof.
  intros now. split; [by vm_compute|]. split; [by vm_compute|].
  split; [by vm_compute|].
  intros t options range. unfold getOptionDateRange.
  pose proof (startOfDay_midnight t) as Ht.
  destruct (Options.today options).
  - destruct (Temporal.add_days _ 1) as [e|] eqn:E; [|done].
    intros [= <-]. split; [done|]. by apply (add_days_midnight _ _ _ Ht E).
  - assert (forall n, (Temporal.subtract_days (Temporal.startOfDay t) n ≫= fun start =>
                       Ok {| DateRange.start := start;
                             DateRange.end_ := Temporal.startOfDay t |}) = Ok range ->
                      Temporal.is_midnight (DateRange.start range) /\
                      Temporal.is_midnight (DateRange.end_ range)) as H.
    { intros n. destruct (Temporal.subtract_days _ n) as [s|] eqn:E; [|done].
      intros [= <-]. split; [|done]. by apply (subtract_days_midnight _ _ _ Ht E). }
    destruct (Options.lastNDays options) as [n|]; [destruct (n =? 0)|]; apply H.
Qed.

(** ** The loop on an entry without start date *)

Lemma for_of_app {A} (xs ys : list A) (body : A -> M unit) yt :
  for_of (xs ++ ys) body yt =
  let '(yt1, t1, r) := for_of xs body yt in
  match r with
  | Ok _ => let '(yt2, t2, r2) := for_of ys body yt1 in (yt2, t1 ++ t2, r2)
  | Throw e => (yt1, t1, Throw e)
  end.
Proof.
  revert yt. induction xs as [|x xs IH]; intros yt.
  - simpl. by destruct (for_of ys body yt) as [[??]?].
  - rewrite <- app_comm_cons, !for_of_cons.
    destruct (body x yt) as [[yt1 t1] [[]|e]]; [|done].
    rewrite IH. destruct (for_of xs body yt1) as [[yt2 t2] [[]|e]]; [|done].
    destruct (for_of ys body yt2) as [[yt3 t3] r3]. by rewrite app_assoc.
Qed.

(** C10: an entry without start date makes the loop body raise [TypeError]
    before anything is logged or requested, whatever its issue id; the loop
    stops there: the entries behind it are not processed, and a loop that
    got through the entries before it ends with their events and that
    exception. *)
Theorem C10_missing_start_date_aborts
    options workTypes idx (entry : TimeEntry.t) :
  TimeEntry.startDate entry = None ->
  (forall yt, sync_entry options workTypes idx entry yt = (yt, [], Throw TypeError)) /\
  (forall before after yt,
      for_of (before ++ entry :: after) (sync_entry options workTypes idx) yt =
      for_of (before ++ [entry]) (sync_entry options workTypes idx) yt) /\
  (forall before after yt yt' t,
      for_of before (sync_entry options workTypes idx) yt = (yt', t, Ok tt) ->
      for_of (before ++ entry :: after) (sync_entry options workTypes idx) yt =
      (yt', t, Throw TypeError)).
Proof.
  intros Hd.
  assert (forall rest yt,
             for_of (entry :: rest) (sync_entry options workTypes idx) yt
             = (yt, [], Throw TypeError)) as Hstop.
  { intros rest yt. by rewrite for_of_cons, sync_entry_no_date. }
  split; [|split].
  - intros yt. by apply sync_entry_no_date.
  - intros before after yt. rewrite !for_of_app.
    destruct (for_of before _ yt) as [[yt1 t1] [[]|e]]; [|done].
    by rewrite !Hstop.
  - intros before after yt yt' t H. rewrite for_of_app, H, Hstop.
    by rewrite app_nil_r.
Qed.

Lemma C10_missing_start_date_aborts_witness :
  sync_entry options_default Sample.workTypes {[ "AB-1" := ∅ ]}
    Sample.entry_without_start Sample.youTrack
  = (Sample.youTrack, [], Throw TypeError) /\
  for_of ([Sample.entry_without_issue] ++ Sample.entry_without_start :: [Sample.entry])
    (sync_entry options_default Sample.workTypes {[ "AB-1" := ∅ ]}) Sample.youTrack
  = (Sample.youTrack, [WarnNoIssue "standup" Sample.date], Throw TypeError).
Proof.
  destruct (C10_missing_start_date_aborts options_default Sample.workTypes
              {[ "AB-1" := ∅ ]} Sample.entry_without_start eq_refl)
    as (Hbody & _ & Hloop).
  split; [apply Hbody|]. apply Hloop. by vm_compute.
Defined.

(** ** The decision on an entry *)

(** C2, as stated, fails in three places: an entry without issue id and
    without start date is not reported as having no issue, the loop raises
    instead; a category mapped to an empty work type id gets no work type
    although it is mapped; and a category that no work item type has, but
    that names a member of [Object.prototype], gets that member as its
    work type although it is not mapped. *)
Lemma C2_no_decision_without_start_date :
  TimeEntry.issueId Sample.entry_without_start = None /\
  sync_entry options_default Sample.workTypes {[ "AB-1" := ∅ ]}
    Sample.entry_without_start Sample.youTrack
  = (Sample.youTrack, [], Throw TypeError) /\
  ({[ "development" := "" ]} : gmap string string) !! "development" = Some "" /\
  TimeEntry.type Sample.entry = Some "development" /\
  WorkItemData.workTypeId
    (workItemData {[ "development" := "" ]} Sample.entry Sample.date) = None /\
  Sample.workTypes !! "constructor" = None /\
  WorkItemData.workTypeId
    (workItemData Sample.workTypes
       {| TimeEntry.id := "64c777ddd3fcab07cfbb210c";
          TimeEntry.description := "review";
          TimeEntry.type := Some "constructor";
          TimeEntry.issueId := Some "AB-1";
          TimeEntry.startDate := Some Sample.date;
          TimeEntry.durationMinutes := Some 90%Q |}
       Sample.date)
  = Some (JS.Inherited "constructor").
Proof. by vm_compute. Qed.


(** ** The normalizer *)

Lemma span_all p s a b :
  JS.span p s = (a, b) ->
  forall c, In c (list_ascii_of_string a) -> p c = true.
Proof.
  revert a b. induction s as [|x r IH]; intros a b; simpl.
  - intros [= <- <-]. by intros c [].
  - destruct (p x) eqn:Hx.
    + destruct (JS.span p r) as [a' b'] eqn:E. intros [= <- <-] c [<-|Hc]; [done|].
      by apply (IH a' b').
    + intros [= <- <-]. by intros c [].
Qed.

Lemma digit_value_nonneg c : JS.is_digit c = true -> 0 <= Temporal.digit_value c.
Proof.
  unfold JS.is_digit, JS.in_range, Temporal.digit_value.
  intros [H _]%andb_true_iff. apply N.leb_le in H. lia.
Qed.

Lemma digits_value_from_nonneg ds acc :
  (forall c, In c (list_ascii_of_string ds) -> JS.is_digit c = true) ->
  0 <= acc -> 0 <= Temporal.digits_value_from acc ds.
Proof.
  revert acc. induction ds as [|c r IH]; intros acc Hall Hacc; simpl; [done|].
  apply IH.
  - intros x Hx. apply Hall. by right.
  - pose proof (digit_value_nonneg c (Hall c (or_introl eq_refl))). lia.
Qed.

Lemma span_digits_value_nonneg s ds r :
  JS.span JS.is_digit s = (ds, r) -> 0 <= Temporal.digits_value ds.
Proof.
  intros E. apply digits_value_from_nonneg; [|done]. by apply (span_all _ _ _ _ E).
Qed.

Lemma date_component_nonneg des s o r :
  Temporal.date_component des s = (o, r) -> 0 <= Temporal.value o.
Proof.
  unfold Temporal.date_component.
  destruct (JS.span JS.is_digit s) as [ds r1] eqn:E.
  pose proof (span_digits_value_nonneg _ _ _ E).
  destruct ds as [|c ds']; [by intros [= <- <-]|].
  destruct r1 as [|x r1']; [by intros [= <- <-]|].
  destruct (Temporal.designator des x); by intros [= <- <-].
Qed.

Lemma time_component_nonneg des unit_ns s o r :
  0 <= unit_ns ->
  Temporal.time_component des unit_ns s = (o, r) -> 0 <= Temporal.ns_of o.
Proof.
  intros Hu. unfold Temporal.time_component.
  destruct (JS.span JS.is_digit s) as [ds r1] eqn:E.
  pose proof (span_digits_value_nonneg _ _ _ E) as Hds.
  destruct ds as [|c ds']; [by intros [= <- <-]|].
  destruct r1 as [|x r1']; [by intros [= <- <-]|].
  destruct (Temporal.is_decimal_separator x).
  - destruct (JS.span JS.is_digit r1') as [fs r2] eqn:F.
    pose proof (span_digits_value_nonneg _ _ _ F) as Hfs.
    destruct fs as [|f fs']; [by intros [= <- <-]|].
    destruct r2 as [|y r2']; [by intros [= <- <-]|].
    destruct (_ && _); intros [= <- <-]; [|done]. cbn [Temporal.ns_of].
    apply Z.add_nonneg_nonneg; [by apply Z.mul_nonneg_nonneg|].
    apply Z.div_pos; [by apply Z.mul_nonneg_nonneg|].
    apply Z.pow_pos_nonneg; lia.
  - destruct (Temporal.designator des x); intros [= <- <-]; [|done].
    cbn [Temporal.ns_of]. by apply Z.mul_nonneg_nonneg.
Qed.

Lemma parse_sign_positive s sgn r :
  Temporal.parse_sign s = (sgn, r) -> is_negative s = false -> sgn = 1.
Proof.
  destruct s as [|c r']; [by intros [= <- <-]|].
  destruct c as [[] [] [] [] [] [] [] []]; simpl; by intros [= <- <-].
Qed.

(** A duration read from a string without minus sign has no negative part. *)
Lemma parse_nonneg s d :
  Temporal.parse s = Ok d -> is_negative s = false ->
  Temporal.sign d = 1 /\ 0 <= Temporal.days d /\ 0 <= Temporal.time_ns d.
Proof.
  unfold Temporal.parse.
  destruct (Temporal.parse_sign s) as [sgn s1] eqn:Es.
  intros H Hneg. rewrite (parse_sign_positive _ _ _ Es Hneg) in H. clear Es Hneg.
  destruct s1 as [|p s2]; [done|].
  destruct (Temporal.designator "P" p); [|done].
  destruct (Temporal.date_component "Y" s2) as [y s3].
  destruct (Temporal.date_component "M" s3) as [mo s4].
  destruct (Temporal.date_component "W" s4) as [w s5].
  destruct (Temporal.date_component "D" s5) as [dd s6] eqn:Ed.
  pose proof (date_component_nonneg _ _ _ _ Ed) as Hd.
  destruct s6 as [|t s7].
  - destruct (_ || _); [|done]. by injection H as <-.
  - destruct (Temporal.designator "T" t); [|done].
    destruct (Temporal.time_component "H" _ s7) as [h s8] eqn:Eh.
    destruct (Temporal.time_component "M" _ s8) as [mi s9] eqn:Em.
    destruct (Temporal.time_component "S" _ s9) as [sec s10] eqn:Esec.
    pose proof (time_component_nonneg _ Temporal.ns_per_hour _ _ _ ltac:(done) Eh).
    pose proof (time_component_nonneg _ Temporal.ns_per_minute _ _ _ ltac:(done) Em).
    pose proof (time_component_nonneg _ Temporal.ns_per_second _ _ _ ltac:(done) Esec).
    destruct s10; [|done]. destruct (_ && _); [|done].
    injection H as <-. simpl. repeat split; [done|lia].
Qed.

Lemma from_parse s d :
  Temporal.from s = Ok d <-> Temporal.parse s = Ok d /\ Temporal.is_valid d = true.
Proof.
  unfold Temporal.from. destruct (Temporal.parse s) as [d'|e].
  - destruct (Temporal.is_valid d') eqn:Hv.
    + split; [by intros [= <-] | by intros [[= <-] _]].
    + split; [done | intros [[= <-] ?]; congruence].
  - split; [done | by intros [? _]].
Qed.

Lemma from_nonneg s d :
  Temporal.from s = Ok d -> is_negative s = false ->
  Temporal.sign d = 1 /\ 0 <= Temporal.days d /\ 0 <= Temporal.time_ns d.
Proof. intros [H _]%from_parse. by apply parse_nonneg. Qed.

(** *** Rounding to a double *)

Lemma pow2_pos e : (0 < Number.pow2 e)%Q.
Proof. by apply Qpower_0_lt. Qed.

Lemma scaled_round_nonneg a d k : 0 <= a -> 0 <= Number.scaled_round a d k.
Proof.
  intros Ha. unfold Number.scaled_round.
  set (num := if 0 <=? k then a else a * 2 ^ (- k)).
  set (den := if 0 <=? k then Z.pos d * 2 ^ k else Z.pos d).
  assert (0 <= num) as Hnum.
  { subst num. destruct (0 <=? k) eqn:Hk; [done|]. apply Z.leb_gt in Hk.
    pose proof (Z.pow_pos_nonneg 2 (- k)). nia. }
  assert (0 < den) as Hden.
  { subst den. destruct (0 <=? k) eqn:Hk; [|done]. apply Z.leb_le in Hk.
    pose proof (Z.pow_pos_nonneg 2 k). nia. }
  pose proof (Z.div_pos num den Hnum Hden).
  cbv zeta. repeat destruct (_ <? _); try destruct (Z.even _); lia.
Qed.

(** The Number for a real that is not negative is not negative. *)
Lemma of_Q_nonneg q : (0 <= q)%Q -> (0 <= Number.of_Q q)%Q.
Proof.
  intros Hq. unfold Number.of_Q. cbv zeta.
  destruct (Z.abs (Qnum q) =? 0); [done|].
  rewrite Qred_correct. apply Qmult_le_0_compat; [|apply Qlt_le_weak, pow2_pos].
  assert (0 <= Qnum q) as Hn by (unfold Qle in Hq; simpl in Hq; lia).
  pose proof (scaled_round_nonneg (Z.abs (Qnum q)) (Qden q)
                (Z.max (Number.floor_log2 (Z.abs (Qnum q)) (Qden q)) (-1022) - 52)
                (Z.abs_nonneg _)).
  unfold Qle. simpl. destruct (Qnum q); simpl in *; lia.
Qed.

Lemma total_minutes_nonneg d q :
  Temporal.total_minutes d = Ok q ->
  Temporal.sign d = 1 -> 0 <= Temporal.days d -> 0 <= Temporal.time_ns d ->
  (0 <= q)%Q.
Proof.
  unfold Temporal.total_minutes. destruct (_ && _); [|done].
  intros [= <-] Hs Hd Ht. apply of_Q_nonneg.
  unfold Temporal.exact_minutes. rewrite Hs.
  unfold Qle. simpl. unfold Temporal.ns_per_day, Temporal.ns_per_hour,
    Temporal.ns_per_minute, Temporal.ns_per_second. lia.
Qed.

(** What [createTimeEntry] returns on a record it does not throw on. *)
Lemma createTimeEntry_ok billableEntry :
  normalizable billableEntry = true ->
  exists timeInterval,
    BillableEntry.timeInterval billableEntry = Some timeInterval /\
    createTimeEntry billableEntry =
    Ok {| TimeEntry.id := BillableEntry.id billableEntry;
          TimeEntry.description := BillableEntry.description billableEntry;
          TimeEntry.type :=
            match (BillableEntry.tags billableEntry ≫= head) ≫= Tag.name with
            | Some name =>
                if JS.nonempty (JS.trim (JS.toLowerCase name))
                then Some (JS.trim (JS.toLowerCase name)) else None
            | None => None
            end;
          TimeEntry.issueId :=
            match BillableEntry.task billableEntry ≫= Task.name with
            | Some name => if JS.nonempty name then extractIssueId name else None
            | None => None
            end;
          TimeEntry.startDate :=
            match TimeInterval.start timeInterval with
            | Some start => if JS.nonempty start then Some (new_Date start) else None
            | None => None
            end;
          TimeEntry.durationMinutes :=
            match TimeInterval.duration timeInterval with
            | Some duration =>
                if JS.nonempty duration then
                  match Duration_total_minutes duration with
                  | Ok q => Some q
                  | Throw _ => None
                  end
                else None
            | None => None
            end |}.
Proof.
  unfold normalizable, createTimeEntry.
  intros [Htag Hti]%andb_true_iff.
  destruct (BillableEntry.timeInterval billableEntry) as [ti|]; [|done].
  exists ti.
  assert (exists type,
    match BillableEntry.tags billableEntry ≫= head with
    | Some tag =>
        match Tag.name tag with
        | Some name =>
            Ok (if JS.truthy (Some (JS.trim (JS.toLowerCase name)))
                then Some (JS.trim (JS.toLowerCase name)) else None)
        | None => Throw TypeError
        end
    | None => Ok None
    end = Ok type /\
    type = match (BillableEntry.tags billableEntry ≫= head) ≫= Tag.name with
           | Some name =>
               if JS.nonempty (JS.trim (JS.toLowerCase name))
               then Some (JS.trim (JS.toLowerCase name)) else None
           | None => None
           end) as (type & -> & ->).
  { revert Htag.
    destruct (BillableEntry.tags billableEntry ≫= head) as [tag|]; [|by eexists].
    simpl. destruct (Tag.name tag); simpl; [by eexists | by intros [=]]. }
  split; [done|]. revert Hti. simpl.
  destruct (TimeInterval.duration ti) as [duration|]; [|done].
  destruct (JS.nonempty duration); [|done].
  by destruct (Duration_total_minutes duration) as [q|].
Qed.

Lemma createTimeEntry_throws billableEntry :
  normalizable billableEntry = false ->
  exists e, createTimeEntry billableEntry = Throw e.
Proof.
  unfold normalizable, createTimeEntry. intros H.
  destruct (BillableEntry.tags billableEntry ≫= head) as [tag|].
  - destruct (Tag.name tag); [|by eexists]. simpl in *.
    destruct (BillableEntry.timeInterval billableEntry) as [ti|]; [|by eexists].
    simpl. destruct (TimeInterval.duration ti) as [duration|]; [|done].
    destruct (JS.nonempty duration); [|done].
    destruct (Duration_total_minutes duration) as [q|]; [done | by eexists].
  - simpl in *.
    destruct (BillableEntry.timeInterval billableEntry) as [ti|]; [|by eexists].
    simpl. destruct (TimeInterval.duration ti) as [duration|]; [|done].
    destruct (JS.nonempty duration); [|done].
    destruct (Duration_total_minutes duration) as [q|]; [done | by eexists].
Qed.

Lemma Duration_total_minutes_nonneg duration q :
  Duration_total_minutes duration = Ok q -> is_negative duration = false ->
  (0 <= q)%Q.
Proof.
  unfold Duration_total_minutes. intros H Hneg.
  destruct (Temporal.from duration) as [d|] eqn:E; [|done]. simpl in H.
  destruct (from_nonneg _ _ E Hneg) as (Hs & Hd & Ht).
  by apply (total_minutes_nonneg d).
Qed.

(** C4, as stated, fails: a duration that is not an ISO 8601 duration makes
    the normalizer raise. *)
Lemma C4_malformed_duration_raises :
  createTimeEntry
    {| BillableEntry.id := "64c777ddd3fcab07cfbb210c";
       BillableEntry.description := "review";
       BillableEntry.billable := true;
       BillableEntry.tags := None;
       BillableEntry.task := None;
       BillableEntry.timeInterval :=
         Some {| TimeInterval.start := Some "2024-03-14T09:00:00Z";
                 TimeInterval.duration := Some "1h30m" |} |}
  = Throw RangeError.
Proof. reflexivity. Qed.

(** C7, as stated, fails: a duration written with a minus sign is read by
    Temporal as a negative duration and normalizes to negative minutes. *)
Lemma C7_negative_duration :
  exists entry,
    createTimeEntry
      {| BillableEntry.id := "64c777ddd3fcab07cfbb210c";
         BillableEntry.description := "review";
         BillableEntry.billable := true;
         BillableEntry.tags := None;
         BillableEntry.task := None;
         BillableEntry.timeInterval :=
           Some {| TimeInterval.start := Some "2024-03-14T09:00:00Z";
                   TimeInterval.duration := Some "-PT1M" |} |}
    = Ok entry /\
    TimeEntry.durationMinutes entry = Some (-1)%Q /\ ~ (0 <= -1)%Q.
Proof. eexists. split; [reflexivity|]. split; [reflexivity|]. by vm_compute. Qed.


(** ** Pagination and the marker index *)

#[local] Opaque limit.

Lemma getIssueWorkItems_loop_S fuel get items skip :
  getIssueWorkItems_loop (S fuel) get items skip =
  match get skip limit with
  | Throw e => ([skip], Throw e)
  | Ok data =>
      if (length data <? limit)%nat then ([skip], Ok (items ++ data))
      else
        let '(reqs, r) :=
          getIssueWorkItems_loop fuel get (items ++ data) (skip + limit) in
        (skip :: reqs, r)
  end.
Proof. reflexivity. Qed.


Lemma exactly_self p n s a b :
  JS.exactly p n s = Some (a, b) -> JS.exactly p n a = Some (a, "").
Proof.
  revert s a b. induction n as [|n IH]; intros s a b; simpl.
  - by intros [= <- <-].
  - destruct s as [|c r]; [done|]. destruct (p c) eqn:Hc; [|done].
    destruct (JS.exactly p n r) as [[a' b']|] eqn:E; [|done].
    intros [= <- <-]. by rewrite Hc, (IH _ _ _ E).
Qed.

Lemma marker_here_shaped s tok :
  marker_here s = Some tok -> is_marker_shape tok = true.
Proof.
  destruct s as [|c r]; [done|].
  destruct (decide (c = "["%char)) as [->|Hc]; [|by rewrite marker_here_other].
  rewrite marker_here_open. unfold is_marker_shape.
  destruct (JS.exactly JS.is_lower_alnum 24 r) as [[a b]|] eqn:E; [|done].
  destruct b as [|d b']; [done|].
  destruct (decide (d = "]"%char)) as [->|Hd].
  - intros [= <-]. by rewrite (exactly_self _ _ _ _ _ E).
  - by rewrite close_case.
Qed.

Lemma match_marker_shaped s tok :
  match_marker s = Some tok -> is_marker_shape tok = true.
Proof.
  induction s as [|c r IH].
  - done.
  - rewrite match_marker_cons.
    destruct (marker_here (String c r)) as [t|] eqn:E; [|done].
    intros [= <-]. by apply (marker_here_shaped _ _ E).
Qed.

(** Every marker that is extracted has the 24-character shape. *)
Lemma extractInternalId_shaped s tok :
  extractInternalId s = Some tok -> is_marker_shape tok = true.
Proof. rewrite extractInternalId_match. apply match_marker_shaped. Qed.

Lemma marker_shape_nonempty id : is_marker_shape id = true -> JS.nonempty id = true.
Proof. by destruct id. Qed.

(** The marker ids of a list of work items: what extraction finds in the
    items that carry a marker. *)
Lemma elem_of_workItemInternalIds items m :
  m ∈ workItemInternalIds items <->
  exists item, item ∈ items /\
               extractInternalId (default "" (WorkItem.text item)) = Some m.
Proof.
  unfold workItemInternalIds, filter_Boolean.
  rewrite list_elem_of_omap. split.
  - intros (o & Ho & Hm). apply list_elem_of_fmap in Ho as (item & -> & Hitem).
    exists item. split; [done|]. by destruct (JS.truthy _).
  - intros (item & Hitem & E). exists (Some m). split.
    + apply list_elem_of_fmap. by exists item.
    + simpl. by rewrite (marker_shape_nonempty _ (extractInternalId_shaped _ _ E)).
Qed.

Lemma limit_positive : (0 < limit)%nat.
Proof. assert (limit = 5000%nat) as -> by reflexivity. apply Nat.lt_0_succ. Qed.





(** ** The index against the tracker *)

Lemma take_short {A} (n : nat) (l : list A) :
  (length (take n l) < n)%nat -> take n l = l.
Proof. rewrite length_take. intros H. apply take_ge. lia. Qed.

(** Against the tracker the loop returns all work items of the issue,
    unless the iteration bound stops it. *)
Lemma getIssueWorkItems_loop_tracker (all : list WorkItem.t) fuel :
  forall items skip reqs r,
    getIssueWorkItems_loop fuel (fun s t => Ok (take t (drop s all))) items skip
    = (reqs, r) ->
    r = Throw OutOfFuel \/ r = Ok (items ++ drop skip all).
Proof.
  induction fuel as [|fuel IH]; intros items skip reqs r.
  - intros [= <- <-]. by left.
  - rewrite getIssueWorkItems_loop_S.
    destruct (length (take limit (drop skip all)) <? limit)%nat eqn:E.
    + intros [= <- <-]. right. apply Nat.ltb_lt in E.
      by rewrite (take_short _ _ E).
    + destruct (getIssueWorkItems_loop fuel _ _ _) as [reqs' r'] eqn:E'.
      intros [= <- <-]. destruct (IH _ _ _ _ E') as [->| ->]; [by left|right].
      rewrite <- app_assoc. do 2 f_equal.
      rewrite <- (take_drop limit (drop skip all)) at 2.
      by rewrite drop_drop.
Qed.

Lemma getIssueWorkItems_loop_unreachable fuel e :
  forall items skip reqs r,
    getIssueWorkItems_loop fuel (fun _ _ => Throw e) items skip = (reqs, r) ->
    r = Throw OutOfFuel \/ r = Throw e.
Proof.
  destruct fuel as [|fuel]; intros items skip reqs r.
  - intros [= <- <-]. by left.
  - rewrite getIssueWorkItems_loop_S. intros [= <- <-]. by right.
Qed.

Lemma gets_quiet issueId (reqs : list nat) :
  posts ((fun skip => GetWorkItems issueId skip limit) <$> reqs) = [] /\
  console ((fun skip => GetWorkItems issueId skip limit) <$> reqs) = [].
Proof.
  induction reqs as [|x l [IH1 IH2]]; [done|].
  unfold posts, console in *. cbn [fmap list_fmap List.filter is_post is_console].
  by split.
Qed.

(** One entry of the index: the tracker is left as it is, nothing is
    posted or logged, and the result is the marker set of the issue. *)
Lemma workItemsByIssueId_entry_spec fuel issueId yt :
  exists g r,
    workItemsByIssueId_entry fuel issueId yt = (yt, g, r) /\
    posts g = [] /\ console g = [] /\
    (r = Throw OutOfFuel \/ r = markers_of yt issueId).
Proof.
  unfold workItemsByIssueId_entry. rewrite M_bind_eq.
  unfold getIssueWorkItems_of, getIssueWorkItems, markers_of, YouTrack.get_workItems.
  destruct (getIssueWorkItems_loop _ _ _ _) as [reqs r0] eqn:E.
  pose proof (gets_quiet issueId reqs) as [Hp Hc].
  destruct (YouTrack.issues yt !! issueId) as [all|].
  - destruct (getIssueWorkItems_loop_tracker _ _ _ _ _ _ E) as [->| ->].
    + eexists _, _. split; [done|]. by repeat split; [..|left].
    + eexists _, _. split; [reflexivity|]. rewrite !app_nil_r.
      by repeat split; [..|right].
  - destruct (getIssueWorkItems_loop_unreachable _ _ _ _ _ _ E) as [->| ->].
    + eexists _, _. split; [reflexivity|]. by repeat split; [..|left].
    + eexists _, _. split; [reflexivity|]. by repeat split; [..|right].
Qed.

Lemma posts_app t1 t2 : posts (t1 ++ t2) = posts t1 ++ posts t2.
Proof. apply List.filter_app. Qed.

Lemma console_app t1 t2 : console (t1 ++ t2) = console t1 ++ console t2.
Proof. apply List.filter_app. Qed.

(** The whole index. *)
Lemma Promise_all_index fuel ids yt :
  exists g r,
    Promise_all_map (workItemsByIssueId_entry fuel) ids yt = (yt, g, r) /\
    posts g = [] /\ console g = [] /\
    (r = Throw OutOfFuel \/ r = Array_map (markers_of yt) ids).
Proof.
  induction ids as [|i ids (g2 & r2 & E2 & Hp2 & Hc2 & Hr2)].
  - eexists _, _. split; [reflexivity|]. by repeat split; [..|right].
  - cbn [Promise_all_map Array_map]. rewrite M_bind_eq.
    destruct (workItemsByIssueId_entry_spec fuel i yt)
      as (g1 & r1 & -> & Hp1 & Hc1 & Hr1).
    destruct r1 as [p|e].
    + rewrite M_bind_eq, E2.
      assert (markers_of yt i = Ok p) as -> by (by destruct Hr1).
      destruct r2 as [ps|e2].
      * eexists _, _. split; [reflexivity|].
        rewrite app_nil_r, posts_app, console_app, Hp1, Hp2, Hc1, Hc2.
        repeat split. right. destruct Hr2 as [|<-]; done.
      * eexists _, _. split; [reflexivity|].
        rewrite posts_app, console_app, Hp1, Hp2, Hc1, Hc2.
        repeat split. destruct Hr2 as [[= ->]|<-]; [by left | by right].
    + eexists _, _. split; [reflexivity|]. repeat split; [done..|].
      destruct Hr1 as [[= ->]|<-]; [by left | by right].
Qed.

Lemma Array_map_markers yt ids pairs :
  Array_map (markers_of yt) ids = Ok pairs ->
  Forall (fun i => is_Some (YouTrack.issues yt !! i)) ids /\
  pairs =
  (fun i => (i, list_to_set
                  (workItemInternalIds (default [] (YouTrack.issues yt !! i)))))
    <$> ids.
Proof.
  revert pairs. induction ids as [|i ids IH]; intros pairs.
  - by intros [= <-].
  - cbn [Array_map].
    destruct (markers_of yt i) as [p|] eqn:Em; [|intros [=]].
    destruct (Array_map (markers_of yt) ids) as [ps|]; [|intros [=]].
    intros [= <-]. destruct (IH ps eq_refl) as [Hall ->].
    unfold markers_of in Em.
    destruct (YouTrack.issues yt !! i) as [items|] eqn:Ei; [|done].
    injection Em as <-.
    split; [constructor; [by rewrite Ei | done]|].
    cbn [fmap list_fmap]. by rewrite Ei.
Qed.

Lemma Map_of_lookup {V} (f : string -> V) ids (m : gmap string V) i :
  foldl (fun m kv => <[kv.1 := kv.2]> m) m ((fun i => (i, f i)) <$> ids) !! i =
  if decide (i ∈ ids) then Some (f i) else m !! i.
Proof.
  revert m. induction ids as [|j ids IH]; intros m.
  - by rewrite decide_False by apply not_elem_of_nil.
  - cbn [fmap list_fmap foldl]. rewrite IH. cbn [fst snd].
    destruct (decide (i ∈ ids)) as [Hi|Hi].
    + rewrite decide_True; [done | by right].
    + destruct (decide (i = j)) as [->|Hij].
      * rewrite lookup_insert_eq. rewrite decide_True; [done | by left].
      * rewrite lookup_insert_ne by done.
        rewrite decide_False; [done|]. by intros [?|?]%elem_of_cons.
Qed.

(** The index that was built, issue by issue. *)
Lemma index_lookup yt ids pairs i :
  Array_map (markers_of yt) ids = Ok pairs ->
  (i ∉ ids -> Map_of pairs !! i = None) /\
  (i ∈ ids ->
   exists items,
     YouTrack.issues yt !! i = Some items /\
     Map_of pairs !! i = Some (list_to_set (workItemInternalIds items))).
Proof.
  intros E. destruct (Array_map_markers _ _ _ E) as [Hall ->].
  unfold Map_of. rewrite Map_of_lookup. split; intros Hi.
  - by rewrite decide_False.
  - rewrite decide_True by done.
    rewrite Forall_forall in Hall. destruct (Hall i Hi) as [items Hitems].
    exists items. by rewrite Hitems.
Qed.

(** ** The outcomes of the loop body *)

Lemma sync_entry_outcomes options workTypes idx entry yt :
  sync_entry_outcome options workTypes idx entry yt
    (sync_entry options workTypes idx entry yt).
Proof.
  destruct (TimeEntry.startDate entry) as [d|] eqn:Hd;
    [|rewrite sync_entry_no_date by done; by constructor].
  destruct (JS.truthy (TimeEntry.issueId entry)) eqn:Ht;
    [|rewrite (sync_entry_no_issue _ _ _ _ d) by done; by constructor].
  destruct (TimeEntry.issueId entry) as [i|] eqn:Hi; [|done]. simpl in Ht.
  destruct (idx !! i) as [s|] eqn:Hx;
    [|rewrite (sync_entry_not_indexed _ _ _ _ d i) by done; by econstructor].
  destruct (decide (TimeEntry.id entry ∈ s)) as [Hin|Hin];
    [rewrite (sync_entry_exists _ _ _ _ d i s) by done; by econstructor|].
  rewrite (sync_entry_create _ _ _ _ d i s) by done. rewrite M_bind_eq.
  destruct (Options.dryRun options) eqn:Hdry; [by eapply outcome_dry|].
  unfold postIssueWorkItem.
  destruct (test_marker _) eqn:Htest; [|by eapply outcome_rejected].
  unfold YouTrack.post_workItem.
  destruct (YouTrack.issues yt !! i) as [items|] eqn:Hitems.
  - destruct (YouTrack.refuses yt i _) eqn:Hrefuses.
    + by eapply outcome_refused.
    + by eapply outcome_created.
  - by eapply outcome_not_found.
Qed.

Lemma extends_refl yt : extends yt yt.
Proof.
  split; [done|]. split; [done|]. intros i items H. exists [].
  by rewrite app_nil_r.
Qed.

Lemma extends_trans yt1 yt2 yt3 :
  extends yt1 yt2 -> extends yt2 yt3 -> extends yt1 yt3.
Proof.
  intros (Ht1 & Hr1 & H1) (Ht2 & Hr2 & H2).
  split; [congruence|]. split; [congruence|]. intros i items Hi.
  destruct (H1 _ _ Hi) as [m1 Hm1]. destruct (H2 _ _ Hm1) as [m2 Hm2].
  exists (m1 ++ m2). by rewrite app_assoc.
Qed.

Lemma extends_post yt i items item :
  YouTrack.issues yt !! i = Some items ->
  extends yt {| YouTrack.issues := <[i := items ++ [item]]> (YouTrack.issues yt);
                YouTrack.workItemTypes := YouTrack.workItemTypes yt;
                YouTrack.refuses := YouTrack.refuses yt |}.
Proof.
  intros Hi. split; [done|]. split; [done|]. intros j its Hj.
  cbn [YouTrack.issues].
  destruct (decide (i = j)) as [->|Hij].
  - rewrite lookup_insert_eq. rewrite Hi in Hj. injection Hj as <-. by eexists.
  - rewrite lookup_insert_ne by done. exists []. by rewrite app_nil_r.
Qed.

Lemma sync_entry_extends options workTypes idx entry yt :
  extends yt (sync_entry options workTypes idx entry yt).1.1.
Proof.
  destruct (sync_entry_outcomes options workTypes idx entry yt);
    cbn [fst]; auto using extends_refl, extends_post.
Qed.

Lemma for_of_extends options workTypes idx entries yt :
  extends yt (for_of entries (sync_entry options workTypes idx) yt).1.1.
Proof.
  revert yt. induction entries as [|e es IH]; intros yt; [apply extends_refl|].
  rewrite for_of_cons.
  pose proof (sync_entry_extends options workTypes idx e yt) as H1.
  destruct (sync_entry options workTypes idx e yt) as [[yt1 t1] [[]|err]];
    [|exact H1].
  specialize (IH yt1).
  destruct (for_of es _ yt1) as [[yt2 t2] r2]. by eapply extends_trans.
Qed.

Lemma extends_markers yt yt' i items m :
  extends yt yt' ->
  YouTrack.issues yt !! i = Some items -> m ∈ workItemInternalIds items ->
  exists items', YouTrack.issues yt' !! i = Some items' /\
                 m ∈ workItemInternalIds items'.
Proof.
  intros (_ & _ & H) Hi Hm. destruct (H _ _ Hi) as [more Hmore].
  exists (items ++ more). split; [done|].
  apply elem_of_workItemInternalIds in Hm as (item & Hitem & E).
  apply elem_of_workItemInternalIds. exists item. split; [|done].
  apply elem_of_app. by left.
Qed.

(** ** Dry run against live run *)

Lemma with_dryRun_dryRun b options : Options.dryRun (with_dryRun b options) = b.
Proof. reflexivity. Qed.

(** The loop of a dry run leaves the tracker alone and posts nothing. *)
Lemma for_of_dry options workTypes idx entries yt :
  (for_of entries (sync_entry (with_dryRun true options) workTypes idx) yt).1.1 = yt /\
  posts (for_of entries (sync_entry (with_dryRun true options) workTypes idx) yt).1.2 = [].
Proof.
  induction entries as [|e es [IH1 IH2]]; [done|]. rewrite for_of_cons.
  destruct (sync_entry_outcomes (with_dryRun true options) workTypes idx e yt);
    try done;
    destruct (for_of es _ yt) as [[yt2 t2] r2]; simpl in *; by subst.
Qed.

(** The loop body of a live run, when it does not stop on the marker check
    or on a create call that the tracker refuses, logs what the body of the
    dry run logs and ends as it ends. *)
Lemma sync_entry_dry_live options workTypes idx e yt_d yt_l :
  (forall i s, idx !! i = Some s -> is_Some (YouTrack.issues yt_l !! i)) ->
  let dry := sync_entry (with_dryRun true options) workTypes idx e yt_d in
  let live := sync_entry (with_dryRun false options) workTypes idx e yt_l in
  live.2 <> Throw AssertionError ->
  (forall i p, PostWorkItem i p ∈ live.1.2 -> YouTrack.refuses yt_l i p = false) ->
  dry.1.1 = yt_d /\ dry.1.2 = List.filter not_post live.1.2 /\ dry.2 = live.2 /\
  YouTrack.refuses live.1.1 = YouTrack.refuses yt_l /\
  (forall i s, idx !! i = Some s -> is_Some (YouTrack.issues live.1.1 !! i)).
Proof.
  intros Hidx. cbn zeta.
  destruct (TimeEntry.startDate e) as [d|] eqn:Hd;
    [|by rewrite !sync_entry_no_date by done].
  destruct (JS.truthy (TimeEntry.issueId e)) eqn:Ht;
    [|by rewrite !(sync_entry_no_issue _ _ _ _ d) by done].
  destruct (TimeEntry.issueId e) as [i|] eqn:Hi; [|done]. simpl in Ht.
  destruct (idx !! i) as [s|] eqn:Hx;
    [|by rewrite !(sync_entry_not_indexed _ _ _ _ d i) by done].
  destruct (decide (TimeEntry.id e ∈ s)) as [Hin|Hin];
    [by rewrite !(sync_entry_exists _ _ _ _ d i s) by done|].
  rewrite (sync_entry_dry _ _ _ _ d i s _ (with_dryRun_dryRun _ _) Hd Hi Ht Hx Hin).
  rewrite (sync_entry_live _ _ _ _ d i s _ (with_dryRun_dryRun _ _) Hd Hi Ht Hx Hin).
  cbn zeta.
  destruct (test_marker _); [|done].
  destruct (Hidx i s Hx) as [items Hitems]. rewrite Hitems.
  destruct (YouTrack.refuses yt_l i _) eqn:Hrefuses.
  { cbn [fst snd]. intros _ Hacc. rewrite Hacc in Hrefuses; [done | by left]. }
  cbn [fst snd]. intros _ _. repeat split; try done.
  intros j sj Hj. cbn [with_workItem YouTrack.issues].
  destruct (decide (i = j)) as [->|Hij];
    [by rewrite lookup_insert_eq | rewrite lookup_insert_ne by done; eauto].
Qed.

Lemma for_of_dry_live options workTypes idx entries :
  forall yt_d yt_l,
    (forall i s, idx !! i = Some s -> is_Some (YouTrack.issues yt_l !! i)) ->
    let dry := for_of entries (sync_entry (with_dryRun true options) workTypes idx) yt_d in
    let live := for_of entries (sync_entry (with_dryRun false options) workTypes idx) yt_l in
    live.2 <> Throw AssertionError ->
    (forall i p, PostWorkItem i p ∈ live.1.2 -> YouTrack.refuses yt_l i p = false) ->
    dry.1.2 = List.filter not_post live.1.2 /\ dry.2 = live.2.
Proof.
  induction entries as [|e es IH]; intros yt_d yt_l Hidx; [done|].
  cbn zeta. rewrite !for_of_cons.
  pose proof (sync_entry_dry_live options workTypes idx e yt_d yt_l Hidx) as Hstep.
  cbn zeta in Hstep.
  destruct (sync_entry (with_dryRun true options) workTypes idx e yt_d)
    as [[yd1 td1] rd1].
  destruct (sync_entry (with_dryRun false options) workTypes idx e yt_l)
    as [[yl1 tl1] rl1].
  cbn [fst snd] in Hstep.
  destruct rl1 as [[]|err].
  - specialize (IH yd1 yl1). cbn zeta in IH.
    destruct (for_of es _ yl1) as [[yl2 tl2] rl2]. cbn [fst snd] in *.
    intros Hr Hacc.
    destruct Hstep as (-> & -> & -> & Hrefuses & Hidx');
      [done | by intros i p Hp; apply Hacc, elem_of_app; left |].
    destruct (for_of es _ yt_d) as [[yd2 td2] rd2]. cbn [fst snd] in *.
    destruct (IH Hidx') as [-> ->]; [done| |].
    + intros i p Hp. rewrite Hrefuses. apply Hacc, elem_of_app. by right.
    + by rewrite List.filter_app.
  - cbn [fst snd]. intros Hr Hacc.
    by destruct Hstep as (-> & -> & -> & _).
Qed.

(** [sync], stage by stage. *)
Lemma sync_eq fuel now options clockifyApi yt :
  sync fuel now options clockifyApi yt =
  let banner := if Options.dryRun options then [LogDryRunMode] else [] in
  match getOptionDateRange now options with
  | Throw e => (yt, banner, Throw e)
  | Ok dateRange =>
  match getBillableEntries clockifyApi dateRange with
  | Throw e => (yt, banner ++ [LogSyncing dateRange], Throw e)
  | Ok entries =>
      let workTypes := workTypes_reduce (YouTrack.workItemTypes yt) in
      match Array_map createTimeEntry entries with
      | Throw e => (yt, banner ++ [LogSyncing dateRange; GetWorkItemTypes], Throw e)
      | Ok timeEntries =>
          let uniqueIssueIds :=
            getUniqueBy
              (List.filter (fun entry => JS.truthy (TimeEntry.issueId entry))
                           timeEntries)
              TimeEntry.issueId in
          let '(yt1, g, r) :=
            Promise_all_map (workItemsByIssueId_entry fuel) uniqueIssueIds yt in
          match r with
          | Throw e =>
              (yt1, banner ++ [LogSyncing dateRange; GetWorkItemTypes] ++ g, Throw e)
          | Ok pairs =>
              let '(yt2, t, r2) :=
                for_of timeEntries (sync_entry options workTypes (Map_of pairs)) yt1 in
              (yt2, banner ++ [LogSyncing dateRange; GetWorkItemTypes] ++ g ++ t, r2)
          end
      end
  end
  end.
Proof.
  unfold sync. cbn zeta. rewrite !M_bind_eq.
  assert ((if Options.dryRun options then emit LogDryRunMode else mret ()) yt
          = (yt, if Options.dryRun options then [LogDryRunMode] else [], Ok tt))
    as -> by (by destruct (Options.dryRun options)).
  rewrite M_bind_eq. unfold lift at 1.
  destruct (getOptionDateRange now options) as [dateRange|e];
    [|by rewrite app_nil_r].
  rewrite M_bind_eq. cbn [emit]. rewrite M_bind_eq. unfold lift at 1.
  destruct (getBillableEntries _ _) as [entries|e]; [|done].
  rewrite M_bind_eq. cbn [getAllWorkItemTypes]. rewrite M_bind_eq. unfold lift at 1.
  destruct (Array_map createTimeEntry entries) as [timeEntries|e]; [|done].
  rewrite M_bind_eq.
  destruct (Promise_all_map _ _ yt) as [[yt1 g] [pairs|e]]; [|done].
  by destruct (for_of timeEntries _ yt1) as [[yt2 t] r2].
Qed.

Lemma getOptionDateRange_dryRun now b options :
  getOptionDateRange now (with_dryRun b options) = getOptionDateRange now options.
Proof. reflexivity. Qed.

Example getOptionDateRange_sample :
  getOptionDateRange Sample.now options_default = Ok Sample.range.
Proof. by vm_compute. Qed.

Lemma filter_not_post_quiet g : posts g = [] -> List.filter not_post g = g.
Proof.
  unfold posts, not_post. induction g as [|e g IH]; [done|]. simpl.
  destruct (is_post e); [done|]. simpl. intros H. by rewrite IH.
Qed.

Lemma console_filter_not_post t : console (List.filter not_post t) = console t.
Proof.
  unfold console, not_post. induction t as [|e t IH]; [done|]. simpl.
  destruct e; simpl; by rewrite ?IH.
Qed.

(** C9, as stated, fails: the dry run prints a banner of its own, and where
    the live run stops on the marker check of an entry the dry run logs
    that entry as synced and goes on. *)
Lemma C9_dry_run_logs_differ :
  let entry :=
    {| BillableEntry.id := "abc"; BillableEntry.description := "review";
       BillableEntry.billable := true; BillableEntry.tags := None;
       BillableEntry.task := Some {| Task.name := Some "AB-1 login" |};
       BillableEntry.timeInterval :=
         Some {| TimeInterval.start := Some "2024-03-14T09:00:00Z";
                 TimeInterval.duration := Some "PT1H30M" |} |} in
  let yt := {| YouTrack.issues := {[ "AB-1" := [] ]}; YouTrack.workItemTypes := [];
               YouTrack.refuses := fun _ _ => false |} in
  let dry := sync 1 Sample.now (with_dryRun true options_default)
                  (fun _ => Ok (Some [entry])) yt in
  let live := sync 1 Sample.now (with_dryRun false options_default)
                   (fun _ => Ok (Some [entry])) yt in
  console live.1.2 = [LogSyncing Sample.range] /\
  live.2 = Throw AssertionError /\
  console dry.1.2 =
    [LogDryRunMode; LogSyncing Sample.range;
     LogSynced "review" "AB-1" (new_Date "2024-03-14T09:00:00Z")] /\
  dry.2 = Ok tt.
Proof. by vm_compute. Qed.

(** C9, amended: a dry run sends no create call and leaves the tracker as
    it is, however many entries are to be created. Unless the live run stops
    on the marker check of an entry or on a create call that the tracker
    refuses, the dry run does what the live run does apart from the create
    calls, after a banner line of its own: the same requests for reading,
    the same console lines in the same order, the same end. *)
Theorem C9_dry_run fuel now options clockifyApi yt :
  let dry := sync fuel now (with_dryRun true options) clockifyApi yt in
  let live := sync fuel now (with_dryRun false options) clockifyApi yt in
  posts dry.1.2 = [] /\ dry.1.1 = yt /\
  (live.2 <> Throw AssertionError ->
   (forall i p, PostWorkItem i p ∈ live.1.2 -> YouTrack.refuses yt i p = false) ->
   dry.1.2 = LogDryRunMode :: List.filter not_post live.1.2 /\
   console dry.1.2 = LogDryRunMode :: console live.1.2 /\
   dry.2 = live.2).
Proof.
  cbn zeta.
  assert (forall dry live : YouTrack.t * list Event * result unit,
    (dry.1.2 = LogDryRunMode :: List.filter not_post live.1.2 /\ dry.2 = live.2) ->
    (dry.1.2 = LogDryRunMode :: List.filter not_post live.1.2 /\
     console dry.1.2 = LogDryRunMode :: console live.1.2 /\
     dry.2 = live.2)) as Hconsole.
  { intros [[yd td] rd] [[yl tl] rl] [E1 E2]. simpl in *.
    repeat split; [done| |done]. rewrite E1.
    change (console (LogDryRunMode :: ?t)) with (LogDryRunMode :: console t).
    by rewrite console_filter_not_post. }
  enough ((posts (sync fuel now (with_dryRun true options) clockifyApi yt).1.2 = [] /\
           (sync fuel now (with_dryRun true options) clockifyApi yt).1.1 = yt) /\
          ((sync fuel now (with_dryRun false options) clockifyApi yt).2
             <> Throw AssertionError ->
           (forall i p,
              PostWorkItem i p
                ∈ (sync fuel now (with_dryRun false options) clockifyApi yt).1.2 ->
              YouTrack.refuses yt i p = false) ->
           (sync fuel now (with_dryRun true options) clockifyApi yt).1.2 =
             LogDryRunMode ::
               List.filter not_post
                 (sync fuel now (with_dryRun false options) clockifyApi yt).1.2 /\
           (sync fuel now (with_dryRun true options) clockifyApi yt).2 =
             (sync fuel now (with_dryRun false options) clockifyApi yt).2))
    as [[H1 H2] H3].
  { split; [done|]. split; [done|]. intros Hr Hacc. by apply Hconsole, H3. }
  clear Hconsole. split;
    rewrite !sync_eq; cbn zeta;
    rewrite !getOptionDateRange_dryRun, !with_dryRun_dryRun;
    (destruct (getOptionDateRange now options) as [dateRange|e]; [|done]);
    (destruct (getBillableEntries _ _) as [entries|e]; [|done]);
    (destruct (Array_map createTimeEntry entries) as [timeEntries|e]; [|done]);
    set (ids := getUniqueBy _ _);
    destruct (Promise_all_index fuel ids yt) as (g & r & -> & Hp & Hc & Hr).
  - destruct r as [pairs|e].
    + destruct (for_of_dry options (workTypes_reduce (YouTrack.workItemTypes yt))
                  (Map_of pairs) timeEntries yt) as [H1 H2].
      destruct (for_of timeEntries _ yt) as [[yt2 t] r2]. simpl in *.
      by rewrite posts_app, Hp, H2.
    + simpl. by rewrite Hp.
  - destruct r as [pairs|e].
    + assert (Array_map (markers_of yt) ids = Ok pairs) as Hpairs
        by (by destruct Hr as [|<-]).
      pose proof (for_of_dry_live options
                    (workTypes_reduce (YouTrack.workItemTypes yt))
                    (Map_of pairs) timeEntries yt yt) as H.
      cbn zeta in H.
      destruct (for_of timeEntries (sync_entry (with_dryRun true options) _ _) yt)
        as [[yt2 t2] r2].
      destruct (for_of timeEntries (sync_entry (with_dryRun false options) _ _) yt)
        as [[yt3 t3] r3].
      cbn [fst snd] in *. intros Hl Hacc. destruct H as [-> ->]; [|done| |].
      * intros i s Hi. destruct (decide (i ∈ ids)) as [Hin|Hin].
        -- destruct (proj2 (index_lookup yt ids pairs i Hpairs) Hin) as (items & -> & _).
           by eexists.
        -- rewrite (proj1 (index_lookup yt ids pairs i Hpairs) Hin) in Hi. done.
      * intros i p Hpost. apply Hacc. simpl. right. right.
        apply elem_of_app. by right.
      * split; [|done]. simpl. do 2 f_equal. rewrite List.filter_app.
        by rewrite (filter_not_post_quiet g Hp).
    + simpl. intros _ _. split; [|done]. by rewrite (filter_not_post_quiet g Hp).
Qed.

(** ** A second run *)

Lemma console_cons_log e t : is_console e = true -> console (e :: t) = e :: console t.
Proof. intros H. unfold console. simpl. by rewrite H. Qed.

Lemma console_cons_other e t : is_console e = false -> console (e :: t) = console t.
Proof. intros H. unfold console. simpl. by rewrite H. Qed.

Lemma recognisable_text workTypes entry d :
  recognisable (TimeEntry.id entry) (TimeEntry.description entry) ->
  extractInternalId (WorkItemData.description (workItemData workTypes entry d))
  = Some (TimeEntry.id entry).
Proof.
  intros [Hid Hdesc]. rewrite created_text_extraction by done. by rewrite Hdesc.
Qed.

(** The loop of a second run, with the index [idx2] taken from the state
    the first run left: nothing is posted, and each entry the first run
    created is now skipped. *)
Lemma for_of_second_run options workTypes idx1 idx2 entries :
  Options.dryRun options = false ->
  (forall i, idx1 !! i = None <-> idx2 !! i = None) ->
  forall yt_a yt_f t1 r1,
    for_of entries (sync_entry options workTypes idx1) yt_a = (yt_f, t1, r1) ->
    (forall i p, PostWorkItem i p ∈ t1 -> YouTrack.refuses yt_a i p = false) ->
    Forall (fun e => recognisable (TimeEntry.id e) (TimeEntry.description e))
           entries ->
    (forall i s1, idx1 !! i = Some s1 ->
       exists items, YouTrack.issues yt_a !! i = Some items /\
                     forall m, m ∈ s1 -> m ∈ workItemInternalIds items) ->
    (forall i s2, idx2 !! i = Some s2 ->
       exists items, YouTrack.issues yt_f !! i = Some items /\
                     forall m, m ∈ workItemInternalIds items -> m ∈ s2) ->
    forall yt',
      for_of entries (sync_entry options workTypes idx2) yt'
      = (yt', resynced <$> console t1, r1).
Proof.
  intros Hlive Hdom.
  induction entries as [|e es IH]; intros yt_a yt_f t1 r1 Hrun Hacc Hrec Ha Hf yt'.
  { by injection Hrun as <- <- <-. }
  apply Forall_cons in Hrec as [He Hes].
  pose proof (for_of_extends options workTypes idx1 (e :: es) yt_a) as Hext.
  rewrite Hrun in Hext. cbn [fst] in Hext.
  rewrite for_of_cons in Hrun. revert Hrun. rewrite for_of_cons.
  destruct (sync_entry_outcomes options workTypes idx1 e yt_a)
    as [Hd|d Hd Hi|d i Hd Hi Hn Hx|d i s Hd Hi Hn Hx Hin|d i s Hd Hi Hn Hx Hin Hdry
       |d i s Hd Hi Hn Hx Hin Hdry Htest|d i s p Hd Hi Hn Hx Hin Hdry Hmiss
       |d i s p items Hd Hi Hn Hx Hin Hdry Hitems Hrefuses
       |d i s p items Hd Hi Hn Hx Hin Hdry Htest Hp Hitems Hrefuses].
  - intros [= <- <- <-]. by rewrite sync_entry_no_date.
  - destruct (for_of es _ yt_a) as [[yt2 t2] r2] eqn:E. intros [= <- <- <-].
    rewrite (sync_entry_no_issue _ _ _ _ d) by done.
    rewrite (IH yt_a yt2 t2 r2 E); [|by intros j q Hq; apply Hacc; right|done..].
    by rewrite console_cons_log.
  - intros [= <- <- <-].
    by rewrite (sync_entry_not_indexed _ _ _ _ d i) by (by try apply Hdom).
  - destruct (for_of es _ yt_a) as [[yt2 t2] r2] eqn:E. intros [= <- <- <-].
    destruct (idx2 !! i) as [s2|] eqn:Hx2;
      [|apply Hdom in Hx2; congruence].
    destruct (Ha _ _ Hx) as (items & Hitems & Hsub).
    destruct (Hf _ _ Hx2) as (items_f & Hitems_f & Hsub_f).
    destruct (extends_markers _ _ _ _ _ Hext Hitems (Hsub _ Hin))
      as (items' & Hitems' & Hm).
    assert (items' = items_f) as -> by congruence.
    rewrite (sync_entry_exists _ _ _ _ d i s2) by auto.
    rewrite (IH yt_a yt2 t2 r2 E); [|by intros j q Hq; apply Hacc; right|done..].
    by rewrite console_cons_log.
  - congruence.
  - destruct He as [Hid _].
    by rewrite (workItemData_test_marker workTypes e d Hid) in Htest.
  - destruct (Ha _ _ Hx) as (items & Hitems & _). congruence.
  - intros [= <- <- <-]. rewrite Hacc in Hrefuses; [done | by left].
  - set (item := {| WorkItem.text := Some (Payload.text p);
                    WorkItem.date := Some (Payload.date p) |}).
    set (yt_b := {| YouTrack.issues := _ |}).
    destruct (for_of es _ yt_b) as [[yt2 t2] r2] eqn:E. intros [= <- <- <-].
    pose proof (for_of_extends options workTypes idx1 es yt_b) as Hext_b.
    rewrite E in Hext_b. cbn [fst] in Hext_b.
    destruct (idx2 !! i) as [s2|] eqn:Hx2;
      [|apply Hdom in Hx2; congruence].
    destruct (Hf _ _ Hx2) as (items_f & Hitems_f & Hsub_f).
    assert (TimeEntry.id e ∈ s2) as Hin2.
    { assert (YouTrack.issues yt_b !! i = Some (items ++ [item])) as Hb
        by (cbn [yt_b YouTrack.issues]; by rewrite lookup_insert_eq).
      assert (TimeEntry.id e ∈ workItemInternalIds (items ++ [item])) as Hm.
      { apply elem_of_workItemInternalIds. exists item. split.
        - apply elem_of_app. right. by apply list_elem_of_singleton.
        - cbn [item WorkItem.text default]. rewrite Hp.
          by apply recognisable_text. }
      destruct (extends_markers _ _ _ _ _ Hext_b Hb Hm) as (items' & Hitems' & Hm').
      assert (items' = items_f) as -> by congruence. by apply Hsub_f. }
    rewrite (sync_entry_exists _ _ _ _ d i s2) by auto.
    rewrite (IH yt_b yt2 t2 r2 E); [| |done| |done].
    + change ([PostWorkItem i p; LogSynced (TimeEntry.description e) i d] ++ t2)
        with (PostWorkItem i p :: LogSynced (TimeEntry.description e) i d :: t2).
      rewrite console_cons_other by done. by rewrite console_cons_log.
    + intros j q Hq. cbn [yt_b YouTrack.refuses]. apply Hacc. by do 2 right.
    + intros j sj Hj. destruct (Ha _ _ Hj) as (its & Hits & Hsub).
      destruct (extends_post yt_a i items item Hitems) as (_ & _ & Hpost).
      destruct (Hpost _ _ Hits) as [more Hmore].
      exists (its ++ more). split; [done|]. intros m Hm.
      pose proof (Hsub m Hm) as Hm'.
      apply elem_of_workItemInternalIds in Hm' as (it & Hit & Eit).
      apply elem_of_workItemInternalIds. exists it. split; [|done].
      apply elem_of_app. by left.
Qed.

Lemma createTimeEntry_id billableEntry entry :
  createTimeEntry billableEntry = Ok entry ->
  TimeEntry.id entry = BillableEntry.id billableEntry /\
  TimeEntry.description entry = BillableEntry.description billableEntry.
Proof.
  intros E. destruct (normalizable billableEntry) eqn:Hn.
  - destruct (createTimeEntry_ok _ Hn) as (ti & _ & E').
    rewrite E' in E. by injection E as <-.
  - destruct (createTimeEntry_throws _ Hn) as [e E']. congruence.
Qed.

Lemma Array_map_createTimeEntry entries timeEntries :
  Array_map createTimeEntry entries = Ok timeEntries ->
  Forall (fun b => recognisable (BillableEntry.id b) (BillableEntry.description b))
         entries ->
  Forall (fun e => recognisable (TimeEntry.id e) (TimeEntry.description e))
         timeEntries.
Proof.
  revert timeEntries. induction entries as [|b bs IH]; intros tes.
  - by intros [= <-].
  - cbn [Array_map]. destruct (createTimeEntry b) as [e|] eqn:E; [|intros [=]].
    destruct (Array_map createTimeEntry bs) as [es|]; [|intros [=]].
    intros [= <-] [Hb Hbs]%Forall_cons. constructor; [|by apply IH].
    destruct (createTimeEntry_id _ _ E) as [-> ->]. done.
Qed.

Lemma Array_map_markers_total yt ids :
  Forall (fun i => is_Some (YouTrack.issues yt !! i)) ids ->
  exists pairs, Array_map (markers_of yt) ids = Ok pairs.
Proof.
  induction ids as [|i ids IH]; [by eexists|].
  intros [[items Hi] Hids]%Forall_cons. destruct (IH Hids) as [ps Hps].
  cbn [Array_map].
  assert (markers_of yt i = Ok (i, list_to_set (workItemInternalIds items))) as ->
    by (unfold markers_of; by rewrite Hi).
  rewrite Hps. by eexists.
Qed.

Lemma index_subset yt ids pairs i s :
  Array_map (markers_of yt) ids = Ok pairs ->
  Map_of pairs !! i = Some s ->
  exists items, YouTrack.issues yt !! i = Some items /\
                forall m, m ∈ s <-> m ∈ workItemInternalIds items.
Proof.
  intros E Hi. destruct (index_lookup yt ids pairs i E) as [Hout Hin].
  destruct (decide (i ∈ ids)) as [H|H]; [|rewrite (Hout H) in Hi; done].
  destruct (Hin H) as (items & Hitems & Hs). exists items. split; [done|].
  rewrite Hs in Hi. injection Hi as <-. intros m. apply elem_of_list_to_set.
Qed.

Lemma index_same_domain yt yt' ids pairs pairs' i :
  Array_map (markers_of yt) ids = Ok pairs ->
  Array_map (markers_of yt') ids = Ok pairs' ->
  Map_of pairs !! i = None <-> Map_of pairs' !! i = None.
Proof.
  intros E E'.
  destruct (index_lookup yt ids pairs i E) as [Hout Hin].
  destruct (index_lookup yt' ids pairs' i E') as [Hout' Hin'].
  destruct (decide (i ∈ ids)) as [H|H].
  - destruct (Hin H) as (? & _ & ->). by destruct (Hin' H) as (? & _ & ->).
  - by rewrite (Hout H), (Hout' H).
Qed.

Lemma posts_resynced_console t : posts (resynced <$> console t) = [].
Proof.
  unfold posts, console. induction t as [|e t IH]; [done|].
  destruct e; simpl; exact IH.
Qed.

Lemma console_resynced_console t :
  console (resynced <$> console t) = resynced <$> console t.
Proof.
  unfold console. induction t as [|e t IH]; [done|].
  destruct e; simpl; try exact IH; f_equal; exact IH.
Qed.

(** C1, as stated, fails: an entry whose description carries a bracketed
    token of its own is created by the first run and created again by the
    second, because the second run reads that token as the marker. *)
Lemma C1_second_run_creates_again :
  let entry :=
    {| BillableEntry.id := "aaaaaaaaaaaaaaaaaaaaaaaa";
       BillableEntry.description := "see [bbbbbbbbbbbbbbbbbbbbbbbb]";
       BillableEntry.billable := true; BillableEntry.tags := None;
       BillableEntry.task := Some {| Task.name := Some "AB-1 login" |};
       BillableEntry.timeInterval :=
         Some {| TimeInterval.start := Some "2024-03-14T09:00:00Z";
                 TimeInterval.duration := Some "PT1H30M" |} |} in
  let yt := {| YouTrack.issues := {[ "AB-1" := [] ]}; YouTrack.workItemTypes := [];
       YouTrack.refuses := fun _ _ => false |} in
  let run1 := sync 1 Sample.now options_default (fun _ => Ok (Some [entry])) yt in
  let run2 := sync 1 Sample.now options_default (fun _ => Ok (Some [entry]))
                   run1.1.1 in
  run1.2 = Ok tt /\ run2.2 = Ok tt /\
  length (posts run1.1.2) = 1%nat /\ length (posts run2.1.2) = 1%nat /\
  posts run2.1.2 = posts run1.1.2.
Proof. by vm_compute. Qed.

(** C1, amended: take a live run over billable entries whose ids have the
    24-character shape and whose descriptions carry no bracketed
    24-character token of their own, in which the tracker refused no create
    call, and a second run over the same entries against the tracker as the
    first run left it. The second run sends no create call and leaves the
    tracker as it is; and, unless it is stopped by the iteration bound of the
    model, it ends as the first run ended, with the console lines of the
    first run in which every entry reported as synced is now reported as
    skipped. (The first run is one that the iteration bound did not stop.) *)
Theorem C1_idempotence fuel1 fuel2 now options clockifyApi yt :
  Options.dryRun options = false ->
  (forall dateRange entries,
      getOptionDateRange now options = Ok dateRange ->
      getBillableEntries clockifyApi dateRange = Ok entries ->
      Forall (fun b => recognisable (BillableEntry.id b) (BillableEntry.description b))
             entries) ->
  let run1 := sync fuel1 now options clockifyApi yt in
  let run2 := sync fuel2 now options clockifyApi run1.1.1 in
  run1.2 <> Throw OutOfFuel ->
  (forall i p, PostWorkItem i p ∈ run1.1.2 -> YouTrack.refuses yt i p = false) ->
  posts run2.1.2 = [] /\ run2.1.1 = run1.1.1 /\
  (run2.2 <> Throw OutOfFuel ->
   console run2.1.2 = resynced <$> console run1.1.2 /\ run2.2 = run1.2).
Proof.
  intros Hlive Hrec. cbn zeta. rewrite (sync_eq fuel1). cbn zeta. rewrite Hlive.
  destruct (getOptionDateRange now options) as [dateRange|e] eqn:Er.
  2: { cbn [fst snd]. intros _ _. rewrite sync_eq. cbn zeta. by rewrite Hlive, Er. }
  destruct (getBillableEntries _ _) as [entries|e] eqn:Eb.
  2: { cbn [fst snd]. intros _ _. rewrite sync_eq. cbn zeta.
       by rewrite Hlive, Er, Eb. }
  specialize (Hrec dateRange entries eq_refl Eb).
  destruct (Array_map createTimeEntry entries) as [timeEntries|e] eqn:Et.
  2: { cbn [fst snd]. intros _ _. rewrite sync_eq. cbn zeta.
       by rewrite Hlive, Er, Eb, Et. }
  pose proof (Array_map_createTimeEntry _ _ Et Hrec) as Hrec'.
  set (ids := getUniqueBy _ _).
  destruct (Promise_all_index fuel1 ids yt) as (g1 & r1 & -> & Hp1 & Hc1 & Hr1).
  destruct r1 as [pairs1|e1].
  - assert (Array_map (markers_of yt) ids = Ok pairs1) as Hpairs1
      by (by destruct Hr1 as [|<-]).
    destruct (for_of timeEntries _ yt) as [[yt_f t1] r1] eqn:Eloop.
    cbn [fst snd]. intros _ Hacc.
    assert (forall i p, PostWorkItem i p ∈ t1 -> YouTrack.refuses yt i p = false)
      as Hacc1.
    { intros i p Hp. apply Hacc. simpl. do 2 right. apply elem_of_app. by right. }
    pose proof (for_of_extends options (workTypes_reduce (YouTrack.workItemTypes yt))
                  (Map_of pairs1) timeEntries yt) as Hext.
    rewrite Eloop in Hext. cbn [fst] in Hext.
    rewrite sync_eq. cbn zeta. rewrite Hlive, Er, Eb, Et. fold ids.
    rewrite (proj1 Hext).
    destruct (Promise_all_index fuel2 ids yt_f) as (g2 & r2 & -> & Hp2 & Hc2 & Hr2).
    destruct r2 as [pairs2|e2].
    + assert (Array_map (markers_of yt_f) ids = Ok pairs2) as Hpairs2
        by (by destruct Hr2 as [|<-]).
      rewrite (for_of_second_run options _ (Map_of pairs1) (Map_of pairs2)
                 timeEntries Hlive (fun i => index_same_domain _ _ _ _ _ i Hpairs1 Hpairs2)
                 yt yt_f t1 r1 Eloop Hacc1 Hrec').
      * cbn [fst snd]. split; [|split; [done|]].
        -- rewrite !posts_app, Hp2, posts_resynced_console. done.
        -- intros _. split; [|done].
           rewrite !console_app, Hc1, Hc2, console_resynced_console.
           rewrite fmap_app. done.
      * intros i s1 Hi.
        destruct (index_subset _ _ _ _ _ Hpairs1 Hi) as (items & Hitems & Hs).
        exists items. split; [done|]. intros m. apply Hs.
      * intros i s2 Hi.
        destruct (index_subset _ _ _ _ _ Hpairs2 Hi) as (items & Hitems & Hs).
        exists items. split; [done|]. intros m. apply Hs.
    + cbn [fst snd]. split; [|split; [done|]].
      * by rewrite !posts_app, Hp2.
      * intros Hne. exfalso.
        destruct Hr2 as [[= ->]|Hr2]; [done|].
        destruct (Array_map_markers _ _ _ Hpairs1) as [Hall _].
        destruct (Array_map_markers_total yt_f ids) as [pairs2 Hpairs2];
          [|congruence].
        eapply Forall_impl; [exact Hall|]. intros i [items Hi].
        destruct (proj2 (proj2 Hext) _ _ Hi) as [more ->]. by eexists.
  - cbn [fst snd]. intros Hfuel _.
    assert (Array_map (markers_of yt) ids = Throw e1) as Hfail.
    { destruct Hr1 as [[= ->]|<-]; done. }
    rewrite sync_eq. cbn zeta. rewrite Hlive, Er, Eb, Et. fold ids.
    destruct (Promise_all_index fuel2 ids yt) as (g2 & r2 & -> & Hp2 & Hc2 & Hr2).
    destruct r2 as [pairs2|e2].
    + destruct Hr2 as [|Hr2]; [done | congruence].
    + cbn [fst snd]. split; [|split; [done|]].
      * by rewrite !posts_app, Hp2.
      * intros Hne. rewrite !console_app, Hc1, Hc2.
        split; [done|]. destruct Hr2 as [[= ->]|Hr2]; [done | congruence].
Qed.

(** ** Termination of the page loop against the tracker *)

(** With fuel for one iteration per page, the loop returns all work items
    of the issue. *)
Lemma getIssueWorkItems_loop_enough (all : list WorkItem.t) fuel :
  forall items skip,
    ((length all - skip) / limit < fuel)%nat ->
    exists reqs,
      getIssueWorkItems_loop fuel (fun s t => Ok (take t (drop s all))) items skip
      = (reqs, Ok (items ++ drop skip all)).
Proof.
  pose proof limit_positive as Hlimit.
  induction fuel as [|fuel IH]; intros items skip Hfuel; [lia|].
  rewrite getIssueWorkItems_loop_S.
  destruct (length (take limit (drop skip all)) <? limit)%nat eqn:E.
  - apply Nat.ltb_lt in E. rewrite (take_short _ _ E). by eexists.
  - apply Nat.ltb_ge in E. rewrite length_take, length_drop in E.
    destruct (IH (items ++ take limit (drop skip all)) (skip + limit)%nat)
      as [reqs Hreqs].
    + replace (length all - skip)%nat
        with ((length all - (skip + limit)) + 1 * limit)%nat in Hfuel by lia.
      rewrite Nat.div_add in Hfuel by lia. lia.
    + rewrite Hreqs. eexists. f_equal. f_equal. rewrite <- app_assoc. f_equal.
      rewrite <- (take_drop limit (drop skip all)) at 2.
      by rewrite drop_drop.
Qed.

Lemma workItemsByIssueId_entry_enough fuel issueId yt :
  enough_fuel fuel yt ->
  exists g,
    workItemsByIssueId_entry fuel issueId yt = (yt, g, markers_of yt issueId).
Proof.
  intros [Hpos Hfuel].
  unfold workItemsByIssueId_entry. rewrite M_bind_eq.
  unfold getIssueWorkItems_of, getIssueWorkItems, markers_of, YouTrack.get_workItems.
  destruct (YouTrack.issues yt !! issueId) as [all|] eqn:Hall.
  - destruct (getIssueWorkItems_loop_enough all fuel [] 0%nat) as [reqs ->].
    + rewrite Nat.sub_0_r. by apply (Hfuel issueId).
    + by eexists.
  - destruct fuel as [|fuel]; [lia|]. rewrite getIssueWorkItems_loop_S. by eexists.
Qed.

Lemma Promise_all_index_enough fuel ids yt :
  enough_fuel fuel yt ->
  exists g,
    Promise_all_map (workItemsByIssueId_entry fuel) ids yt
    = (yt, g, Array_map (markers_of yt) ids).
Proof.
  intros Hfuel. induction ids as [|i ids [g2 IH]]; [by eexists|].
  cbn [Promise_all_map Array_map]. rewrite M_bind_eq.
  destruct (workItemsByIssueId_entry_enough fuel i yt Hfuel) as [g1 ->].
  destruct (markers_of yt i) as [p|e]; [|by eexists].
  rewrite M_bind_eq, IH.
  destruct (Array_map (markers_of yt) ids) as [ps|e]; by eexists.
Qed.

Lemma parse_error s e : Temporal.parse s = Throw e -> e = RangeError.
Proof.
  unfold Temporal.parse.
  repeat (match goal with
          | |- context [match ?x with _ => _ end] => destruct x
          end; try done); by intros [= <-].
Qed.

Lemma Duration_total_minutes_error duration e :
  Duration_total_minutes duration = Throw e -> e = RangeError.
Proof.
  unfold Duration_total_minutes, Temporal.from.
  destruct (Temporal.parse duration) as [d|e'] eqn:E; simpl.
  - destruct (Temporal.is_valid d); simpl; [|by intros [= <-]].
    unfold Temporal.total_minutes. destruct (_ && _); [done | by intros [= <-]].
  - intros [= <-]. by apply (parse_error duration).
Qed.

Lemma createTimeEntry_error billableEntry e :
  createTimeEntry billableEntry = Throw e -> e = TypeError \/ e = RangeError.
Proof.
  unfold createTimeEntry.
  destruct (_ ≫= head) as [tag|]; [destruct (Tag.name tag)|]; simpl;
    try (intros [= <-]; by left);
    (destruct (BillableEntry.timeInterval billableEntry) as [ti|]; simpl;
     [|intros [= <-]; by left]);
    (destruct (TimeInterval.duration ti) as [dur|]; simpl; [|done]);
    (destruct (JS.nonempty dur); simpl; [|done]);
    (destruct (Duration_total_minutes dur) as [q|e'] eqn:Eq; simpl; [done|]);
    intros [= <-]; right; by apply (Duration_total_minutes_error dur).
Qed.

Lemma Array_map_createTimeEntry_error entries e :
  Array_map createTimeEntry entries = Throw e -> e <> OutOfFuel.
Proof.
  induction entries as [|b bs IH]; [done|]. cbn [Array_map].
  destruct (createTimeEntry b) as [entry|e'] eqn:E.
  - destruct (Array_map createTimeEntry bs) as [es|e'']; [done|].
    intros [= <-]. by apply IH.
  - intros [= <-]. by destruct (createTimeEntry_error _ _ E) as [-> | ->].
Qed.

Lemma for_of_sync_entry_error options workTypes idx entries yt e :
  (for_of entries (sync_entry options workTypes idx) yt).2 = Throw e ->
  e <> OutOfFuel.
Proof.
  revert yt. induction entries as [|x xs IH]; intros yt; [done|].
  rewrite for_of_cons.
  destruct (sync_entry_outcomes options workTypes idx x yt);
    try (cbn [snd]; congruence);
    match goal with
    | |- context [for_of xs ?f ?y] =>
        specialize (IH y); destruct (for_of xs f y) as [[yt2 t2] r2]
    end; exact IH.
Qed.

Lemma Array_map_markers_error yt ids e :
  Array_map (markers_of yt) ids = Throw e -> e = HttpError.
Proof.
  induction ids as [|i ids IH]; [done|]. cbn [Array_map].
  destruct (markers_of yt i) as [p|e'] eqn:Em.
  - destruct (Array_map (markers_of yt) ids) as [ps|e'']; [done|].
    intros [= <-]. by apply IH.
  - intros [= <-]. unfold markers_of in Em.
    destruct (_ !! _); [done | by injection Em as <-].
Qed.

Lemma getOptionDateRange_error now options e :
  getOptionDateRange now options = Throw e -> e = RangeError.
Proof.
  unfold getOptionDateRange, Temporal.add_days, Temporal.subtract_days.
  repeat (match goal with
          | |- context [match ?x with _ => _ end] => destruct x
          | |- context [if ?x then _ else _] => destruct x
          end; simpl; try done); by intros [= <-].
Qed.

(** With enough fuel for the tracker, and a Clockify answer of its own, a
    run is not stopped by the iteration bound. *)
Lemma sync_enough_fuel fuel now options clockifyApi yt :
  enough_fuel fuel yt ->
  (forall dateRange, clockifyApi dateRange <> Throw OutOfFuel) ->
  (sync fuel now options clockifyApi yt).2 <> Throw OutOfFuel.
Proof.
  intros Hfuel Hclockify. rewrite sync_eq. cbn zeta.
  destruct (getOptionDateRange now options) as [dateRange|e] eqn:Er.
  2: { cbn [snd]. intros [= ->]. by pose proof (getOptionDateRange_error _ _ _ Er). }
  destruct (getBillableEntries _ _) as [entries|e] eqn:Eb.
  - destruct (Array_map createTimeEntry entries) as [timeEntries|e] eqn:Et.
    + set (ids := getUniqueBy _ _).
      destruct (Promise_all_index_enough fuel ids yt Hfuel) as [g ->].
      destruct (Array_map (markers_of yt) ids) as [pairs|e] eqn:Ei.
      * pose proof (for_of_sync_entry_error options
                      (workTypes_reduce (YouTrack.workItemTypes yt))
                      (Map_of pairs) timeEntries yt) as H.
        destruct (for_of timeEntries _ yt) as [[yt2 t] [[]|e]]; [done|].
        cbn [snd] in *. intros [= ->]. by apply (H OutOfFuel).
      * cbn [snd]. intros [= ->].
        by pose proof (Array_map_markers_error _ _ _ Ei).
    + cbn [snd]. intros [= ->]. by apply (Array_map_createTimeEntry_error _ _ Et).
  - cbn [snd]. intros [= ->]. unfold getBillableEntries in Eb.
    pose proof (Hclockify dateRange).
    destruct (clockifyApi _) as [data|e]; [done|]. simpl in Eb. congruence.
Qed.

(** ** The theorems on sample data *)



(** * Further properties *)

#[local] Set Warnings "-clear-no-such-hyp".

(** ** The issue key pattern *)

Lemma span_spec p s a b :
  JS.span p s = (a, b) ->
  s = a +:+ b /\ String_forall p a = true /\ head_is p b = false.
Proof.
  revert a b. induction s as [|c r IH]; intros a b; simpl.
  - by intros [= <- <-].
  - destruct (p c) eqn:Hc.
    + destruct (JS.span p r) as [a' b'] eqn:E. intros [= <- <-].
      destruct (IH a' b' eq_refl) as (-> & Ha & Hb). simpl. by rewrite Hc.
    + intros [= <- <-]. by simpl.
Qed.

Lemma span_app p a b :
  String_forall p a = true -> head_is p b = false -> JS.span p (a +:+ b) = (a, b).
Proof.
  intros Ha Hb. induction a as [|c r IH].
  - rewrite append_nil. destruct b as [|d b']; [done|]. simpl in *. by rewrite Hb.
  - simpl in Ha. apply andb_true_iff in Ha as [Hc Hr].
    rewrite append_cons. simpl. by rewrite Hc, (IH Hr).
Qed.

Lemma nonempty_cons s : JS.nonempty s = true -> exists c r, s = String c r.
Proof. destruct s as [|c r]; [done|]. by eexists _, _. Qed.

(** The pattern at the head of a string: what matches, and when. *)
Lemma match_issue_key_spec s k :
  match_issue_key s = Some k <->
  exists key num rest,
    s = key +:+ "-" +:+ num +:+ rest /\ k = key +:+ "-" +:+ num /\
    JS.nonempty key = true /\ JS.nonempty num = true /\
    String_forall JS.is_upper_alnum key = true /\
    String_forall JS.is_digit num = true /\
    head_is JS.is_digit rest = false.
Proof.
  unfold match_issue_key. split.
  - destruct (JS.span JS.is_upper_alnum s) as [key r1] eqn:E1.
    destruct (span_spec _ _ _ _ E1) as (-> & Hkey & _).
    destruct key as [|c key']; [done|].
    destruct r1 as [|h r2]; [done|].
    destruct (decide (h = "-"%char)) as [->|Hh];
      [|by destruct h as [[] [] [] [] [] [] [] []]].
    destruct (JS.span JS.is_digit r2) as [num rest] eqn:E2.
    destruct (span_spec _ _ _ _ E2) as (-> & Hnum & Hrest).
    destruct num as [|d num']; [done|]. intros [= <-].
    by exists (String c key'), (String d num'), rest.
  - intros (key & num & rest & -> & -> & Hk & Hn & Hkey & Hnum & Hrest).
    rewrite (span_app JS.is_upper_alnum key ("-" +:+ num +:+ rest)) by done.
    destruct (nonempty_cons _ Hk) as (c & key' & ->).
    change ("-" +:+ num +:+ rest) with (String "-" (num +:+ rest)).
    cbv beta iota. rewrite (span_app JS.is_digit num rest) by done.
    by destruct (nonempty_cons _ Hn) as (d & num' & ->).
Qed.

Lemma String_forall_app p a b :
  String_forall p (a +:+ b) = String_forall p a && String_forall p b.
Proof.
  induction a as [|c r IH]; [done|]. rewrite append_cons. simpl.
  by rewrite IH, andb_assoc.
Qed.

Lemma String_forall_impl (p q : ascii -> bool) s :
  (forall c, p c = true -> q c = true) ->
  String_forall p s = true -> String_forall q s = true.
Proof.
  intros Hpq. induction s as [|c r IH]; [done|]. simpl.
  intros [Hc Hr]%andb_true_iff. by rewrite (Hpq c Hc), IH.
Qed.

Lemma trimEnd_no_space s : String_forall not_space s = true -> JS.trimEnd s = s.
Proof.
  induction s as [|c r IH]; [done|]. simpl.
  intros [Hc Hr]%andb_true_iff. rewrite (IH Hr).
  destruct r; [|done]. unfold not_space in Hc. by destruct (JS.is_space c).
Qed.

Lemma trimStart_no_space s : head_is JS.is_space s = false -> JS.trimStart s = s.
Proof. destruct s as [|c r]; [done|]. simpl. by intros ->. Qed.

(** A string without white space is its own trimmed form. *)
Lemma trim_no_space s : String_forall not_space s = true -> JS.trim s = s.
Proof.
  intros H. unfold JS.trim. rewrite trimStart_no_space; [by apply trimEnd_no_space|].
  destruct s as [|c r]; [done|]. simpl in *. unfold not_space in H.
  by destruct (JS.is_space c).
Qed.

Lemma upper_alnum_not_space c : JS.is_upper_alnum c = true -> not_space c = true.
Proof. destruct c as [[] [] [] [] [] [] [] []]; by vm_compute. Qed.

Lemma digit_not_space c : JS.is_digit c = true -> not_space c = true.
Proof. destruct c as [[] [] [] [] [] [] [] []]; by vm_compute. Qed.

Lemma issue_key_no_space k : is_issue_key k -> String_forall not_space k = true.
Proof.
  intros (key & num & -> & _ & _ & Hkey & Hnum).
  rewrite !String_forall_app.
  rewrite (String_forall_impl _ _ _ upper_alnum_not_space Hkey).
  by rewrite (String_forall_impl _ _ _ digit_not_space Hnum).
Qed.

Lemma issue_key_nonempty k : is_issue_key k -> JS.nonempty k = true.
Proof.
  intros (key & num & -> & Hk & _). by destruct (nonempty_cons _ Hk) as (c & r & ->).
Qed.

Lemma extractIssueId_sound text k :
  extractIssueId text = Some k ->
  is_issue_key k /\
  exists rest, JS.trim text = k +:+ rest /\ head_is JS.is_digit rest = false.
Proof.
  unfold extractIssueId. intros H.
  apply match_issue_key_spec in H
    as (key & num & rest & E & -> & Hk & Hn & Hkey & Hnum & Hrest).
  split; [by exists key, num|]. exists rest. split; [|done].
  by rewrite E, !append_assoc.
Qed.

Lemma extractIssueId_complete text k rest :
  is_issue_key k -> JS.trim text = k +:+ rest -> head_is JS.is_digit rest = false ->
  extractIssueId text = Some k.
Proof.
  intros (key & num & -> & Hk & Hn & Hkey & Hnum) E Hrest.
  unfold extractIssueId. apply match_issue_key_spec.
  exists key, num, rest. rewrite E, !append_assoc. done.
Qed.

(** X1: [extractIssueId] returns exactly the issue keys at the head of the
    trimmed text: what it returns is a whole key (characters from [A-Z0-9],
    a hyphen, digits), is a prefix of the trimmed text and is not followed
    by a further digit; and every such prefix is returned. A returned key
    is never empty and is extracted from itself again. *)
Theorem X1_extractIssueId_key :
  (forall text k,
      extractIssueId text = Some k ->
      is_issue_key k /\ JS.nonempty k = true /\
      (exists rest, JS.trim text = k +:+ rest /\ head_is JS.is_digit rest = false) /\
      extractIssueId k = Some k) /\
  (forall text k rest,
      is_issue_key k -> JS.trim text = k +:+ rest ->
      head_is JS.is_digit rest = false ->
      extractIssueId text = Some k).
Proof.
  split; [|apply extractIssueId_complete].
  intros text k H. destruct (extractIssueId_sound _ _ H) as [Hk Hrest].
  repeat split; [done | by apply issue_key_nonempty | done |].
  apply (extractIssueId_complete k k ""); [done| |done].
  by rewrite append_empty_r, (trim_no_space _ (issue_key_no_space _ Hk)).
Qed.

Lemma X1_extractIssueId_key_witness :
  is_issue_key "AB-12" /\ extractIssueId "AB-12" = Some "AB-12" /\
  extractIssueId "  AB-12: login page " = Some "AB-12".
Proof.
  assert (is_issue_key "AB-12") as Hk by (by exists "AB", "12").
  split; [exact Hk|]. split.
  - apply (proj1 X1_extractIssueId_key "  AB-12: login page " "AB-12"). reflexivity.
  - apply (proj2 X1_extractIssueId_key "  AB-12: login page " "AB-12" ": login page");
      [exact Hk | reflexivity | reflexivity].
Defined.

(** ** The marker pattern *)

Lemma marker_here_sound s tok :
  marker_here s = Some tok -> exists post, s = "[" +:+ tok +:+ "]" +:+ post.
Proof.
  destruct s as [|c r]; [done|].
  destruct (decide (c = "["%char)) as [->|Hc]; [|by rewrite marker_here_other].
  rewrite marker_here_open.
  destruct (JS.exactly JS.is_lower_alnum 24 r) as [[a b]|] eqn:E; [|done].
  destruct b as [|d b']; [done|].
  destruct (decide (d = "]"%char)) as [->|Hd]; [|by rewrite close_case].
  intros [= <-]. destruct (exactly_split _ _ _ _ _ E) as [-> _]. by exists b'.
Qed.

Lemma match_marker_sound s tok :
  match_marker s = Some tok ->
  exists pre post, s = pre +:+ "[" +:+ tok +:+ "]" +:+ post.
Proof.
  induction s as [|c r IH]; [done|]. rewrite match_marker_cons.
  destruct (marker_here (String c r)) as [t|] eqn:E.
  - intros [= <-]. destruct (marker_here_sound _ _ E) as [post ->]. by exists "", post.
  - intros H. destruct (IH H) as (pre & post & ->). by exists (String c pre), post.
Qed.

Lemma match_marker_complete pre id post :
  is_marker_shape id = true ->
  match_marker (pre +:+ "[" +:+ id +:+ "]" +:+ post) <> None.
Proof.
  intros Hid. induction pre as [|c r IH].
  - rewrite append_nil. change ("[" +:+ id +:+ "]" +:+ post)
      with (String "[" (id +:+ "]" +:+ post)).
    rewrite match_marker_cons.
    change (String "[" (id +:+ "]" +:+ post)) with ("[" +:+ id +:+ "]" +:+ post).
    by rewrite marker_here_shape.
  - rewrite append_cons, match_marker_cons. by destruct (marker_here _).
Qed.

(** X2: [extractInternalId] finds a marker exactly when the text holds a
    bracketed token of 24 characters from [a-z0-9] somewhere: what it
    returns has that shape and stands in the text between brackets, and it
    returns nothing only for a text without such a token. *)
Theorem X2_extractInternalId_token :
  (forall text tok,
      extractInternalId text = Some tok ->
      is_marker_shape tok = true /\
      exists pre post, text = pre +:+ "[" +:+ tok +:+ "]" +:+ post) /\
  (forall text,
      extractInternalId text = None <->
      forall pre id post,
        is_marker_shape id = true -> text <> pre +:+ "[" +:+ id +:+ "]" +:+ post).
Proof.
  split.
  - intros text tok H. split; [by apply (extractInternalId_shaped text)|].
    rewrite extractInternalId_match in H. by apply match_marker_sound.
  - intros text. rewrite extractInternalId_match. split.
    + intros H pre id post Hid ->. by apply (match_marker_complete pre id post).
    + intros H. destruct (match_marker text) as [tok|] eqn:E; [|done].
      destruct (match_marker_sound _ _ E) as (pre & post & ->).
      by destruct (H pre tok post (match_marker_shaped _ _ E)).
Qed.

Lemma X2_extractInternalId_token_witness :
  is_marker_shape "64c777ddd3fcab07cfbb210c" = true /\
  exists pre post,
    "  fix login [64c777ddd3fcab07cfbb210c] again "
    = pre +:+ "[" +:+ "64c777ddd3fcab07cfbb210c" +:+ "]" +:+ post.
Proof.
  apply (proj1 X2_extractInternalId_token
           "  fix login [64c777ddd3fcab07cfbb210c] again ").
  reflexivity.
Defined.

(** ** Distinct keys *)

Lemma elem_of_Array_from_Set seen xs k :
  k ∈ Array_from_Set seen xs <-> k ∈ xs /\ k ∉ seen.
Proof.
  revert seen. induction xs as [|x xs IH]; intros seen; simpl.
  - split; [by intros ?%elem_of_nil | by intros [?%elem_of_nil _]].
  - destruct (decide (x ∈ seen)) as [Hx|Hx].
    + rewrite IH, elem_of_cons. split; [naive_solver|].
      intros [[->|Hk] Hs]; [done | by split].
    + rewrite !elem_of_cons, IH. split.
      * intros [->|[Hk Hs]]; [by split; [left|] | split; [by right | set_solver]].
      * intros [[->|Hk] Hs]; [by left|].
        destruct (decide (k = x)) as [->|Hkx]; [by left | right].
        split; [done | set_solver].
Qed.

Lemma NoDup_Array_from_Set seen xs : NoDup (Array_from_Set seen xs).
Proof.
  revert seen. induction xs as [|x xs IH]; intros seen; simpl; [constructor|].
  destruct (decide (x ∈ seen)) as [Hx|Hx]; [apply IH|].
  constructor; [|apply IH]. rewrite elem_of_Array_from_Set. set_solver.
Qed.

Lemma Array_from_Set_app seen xs ys :
  Array_from_Set seen (xs ++ ys) =
  Array_from_Set seen xs ++ Array_from_Set (list_to_set xs ∪ seen) ys.
Proof.
  revert seen. induction xs as [|x xs IH]; intros seen; simpl.
  - by rewrite (left_id_L ∅ (∪)).
  - destruct (decide (x ∈ seen)) as [Hx|Hx]; rewrite IH.
    + do 2 f_equal. set_solver.
    + rewrite <- app_comm_cons. do 3 f_equal. set_solver.
Qed.

Lemma elem_of_filter_Boolean xs k :
  k ∈ filter_Boolean xs <-> Some k ∈ xs /\ JS.nonempty k = true.
Proof.
  unfold filter_Boolean. rewrite list_elem_of_omap. split.
  - intros (o & Ho & E). destruct o as [s|]; simpl in E; [|done].
    destruct (JS.nonempty s) eqn:Hs; [|done]. by injection E as ->.
  - intros [Hk Hn]. exists (Some k). split; [done|]. simpl. by rewrite Hn.
Qed.

Lemma elem_of_getUniqueBy {A} (arr : list A) keyFn k :
  k ∈ getUniqueBy arr keyFn <->
  JS.nonempty k = true /\ exists x, x ∈ arr /\ keyFn x = Some k.
Proof.
  unfold getUniqueBy. rewrite elem_of_Array_from_Set, elem_of_filter_Boolean.
  rewrite list_elem_of_fmap. split.
  - intros [[(x & E & Hx) Hn] _]. split; [done|]. by exists x.
  - intros [Hn (x & Hx & E)]. split; [|set_solver]. split; [|done]. by exists x.
Qed.

(** X3: [getUniqueBy] returns every non-empty key of the array once: the
    result has no duplicates, holds exactly the non-empty keys of the
    elements (a null or empty key is dropped), and keeps the order of the
    first occurrences, so that the result for an array is a prefix of the
    result for any extension of it. *)
Theorem X3_getUniqueBy_distinct {A} (arr arr' : list A) (keyFn : A -> option string) :
  NoDup (getUniqueBy arr keyFn) /\
  (forall k, k ∈ getUniqueBy arr keyFn <->
             JS.nonempty k = true /\ exists x, x ∈ arr /\ keyFn x = Some k) /\
  getUniqueBy arr keyFn `prefix_of` getUniqueBy (arr ++ arr') keyFn.
Proof.
  split; [apply NoDup_Array_from_Set|]. split; [apply elem_of_getUniqueBy|].
  unfold getUniqueBy, filter_Boolean. rewrite fmap_app, omap_app, Array_from_Set_app.
  by eexists.
Qed.

(** ** Work item types *)

Lemma workTypes_reduce_snoc types type :
  workTypes_reduce (types ++ [type]) =
  <[work_type_key type := WorkItemType.id type]> (workTypes_reduce types).
Proof. unfold workTypes_reduce. by rewrite foldl_app. Qed.


Lemma workTypes_reduce_None types k :
  workTypes_reduce types !! k = None <->
  forall type, type ∈ types -> work_type_key type <> k.
Proof.
  induction types as [|t l IH] using rev_ind.
  - split; [by intros _ ? ?%elem_of_nil | done].
  - rewrite workTypes_reduce_snoc. split.
    + intros H type [Hl|Ht%list_elem_of_singleton]%elem_of_app.
      * destruct (decide (work_type_key t = k)) as [<-|Hk];
          [by rewrite lookup_insert_eq in H|].
        rewrite lookup_insert_ne in H by done. by apply IH.
      * subst type. intros <-. by rewrite lookup_insert_eq in H.
    + intros H. rewrite lookup_insert_ne.
      * apply IH. intros type Ht. apply H, elem_of_app. by left.
      * apply H, elem_of_app. right. by apply list_elem_of_singleton.
Qed.

Lemma workTypes_reduce_last before type after :
  (forall type', type' ∈ after -> work_type_key type' <> work_type_key type) ->
  workTypes_reduce (before ++ type :: after) !! work_type_key type
  = Some (WorkItemType.id type).
Proof.
  induction after as [|t l IH] using rev_ind; intros H.
  - by rewrite workTypes_reduce_snoc, lookup_insert_eq.
  - rewrite app_comm_cons, app_assoc, workTypes_reduce_snoc.
    rewrite lookup_insert_ne.
    + apply IH. intros t' Ht'. apply H, elem_of_app. by left.
    + apply H, elem_of_app. right. by apply list_elem_of_singleton.
Qed.

Lemma get_property_Str own k v :
  JS.get_property own k = Some (JS.Str v) <-> own !! k = Some v.
Proof.
  unfold JS.get_property. destruct (own !! k) as [v'|].
  - split; by intros [= ->].
  - by destruct (bool_decide _).
Qed.

Lemma get_property_Inherited own k m :
  JS.get_property own k = Some (JS.Inherited m) <->
  m = k /\ k ∈ JS.Object_prototype /\ own !! k = None.
Proof.
  unfold JS.get_property. destruct (own !! k) as [v'|].
  - split; [done | by intros (_ & _ & ?)].
  - destruct (bool_decide_reflect (k ∈ JS.Object_prototype)) as [Hk|Hk].
    + split; [by intros [= <-] | by intros [-> _]].
    + split; [done | by intros (_ & ? & _)].
Qed.




Lemma createTimeEntry_normalizable billableEntry entry :
  createTimeEntry billableEntry = Ok entry -> normalizable billableEntry = true.
Proof.
  intros E. destruct (normalizable billableEntry) eqn:Hn; [done|].
  destruct (createTimeEntry_throws _ Hn) as [e E']. congruence.
Qed.

(** The category of a normalized entry. *)
Lemma createTimeEntry_type billableEntry entry :
  createTimeEntry billableEntry = Ok entry ->
  TimeEntry.type entry =
  match (BillableEntry.tags billableEntry ≫= head) ≫= Tag.name with
  | Some name =>
      if JS.nonempty (JS.trim (JS.toLowerCase name))
      then Some (JS.trim (JS.toLowerCase name)) else None
  | None => None
  end.
Proof.
  intros E.
  destruct (createTimeEntry_ok _ (createTimeEntry_normalizable _ _ E))
    as (ti & _ & E').
  rewrite E' in E. by injection E as <-.
Qed.

(** X5: the category of an entry and the work item types meet on the
    lower-cased, trimmed name: when the first tag of a record and a work
    item type have the same such name (not empty), and the type is the last
    of this name and has a non-empty id, the data of the entry to create
    carry the id of that type. When no type has the name of the tag, the
    data carry the member of [Object.prototype] of that name if there is
    one (a tag named [Constructor], say), and no work type otherwise; when
    the record has no named tag, the data carry no work type. *)
Theorem X5_tag_meets_work_type billableEntry entry d types :
  createTimeEntry billableEntry = Ok entry ->
  (forall name before type after,
      (BillableEntry.tags billableEntry ≫= head) ≫= Tag.name = Some name ->
      types = before ++ type :: after ->
      (forall type', type' ∈ after -> work_type_key type' <> work_type_key type) ->
      work_type_key type = JS.trim (JS.toLowerCase name) ->
      JS.nonempty (work_type_key type) = true ->
      JS.nonempty (WorkItemType.id type) = true ->
      WorkItemData.workTypeId (workItemData (workTypes_reduce types) entry d)
      = Some (JS.Str (WorkItemType.id type))) /\
  (forall name,
      (BillableEntry.tags billableEntry ≫= head) ≫= Tag.name = Some name ->
      (forall type, type ∈ types -> work_type_key type <> JS.trim (JS.toLowerCase name)) ->
      WorkItemData.workTypeId (workItemData (workTypes_reduce types) entry d)
      = if bool_decide (JS.trim (JS.toLowerCase name) ∈ JS.Object_prototype)
        then Some (JS.Inherited (JS.trim (JS.toLowerCase name))) else None) /\
  ((BillableEntry.tags billableEntry ≫= head) ≫= Tag.name = None ->
   WorkItemData.workTypeId (workItemData (workTypes_reduce types) entry d) = None).
Proof.
  intros E. pose proof (createTimeEntry_type _ _ E) as Htype.
  cbn [workItemData WorkItemData.workTypeId]. rewrite Htype. split; [|split].
  - intros name before type after -> -> Hlast Hkey Hk Hid.
    rewrite <- Hkey, Hk. cbv beta iota. unfold JS.get_property.
    rewrite Hk, (workTypes_reduce_last before type after Hlast). simpl.
    by rewrite Hid.
  - intros name -> Hnone.
    destruct (JS.nonempty (JS.trim (JS.toLowerCase name))) eqn:Hn.
    + cbv beta iota. unfold JS.get_property.
      rewrite (proj2 (workTypes_reduce_None types _) Hnone), Hn.
      by destruct (bool_decide _).
    + destruct (JS.trim (JS.toLowerCase name)); [|done]. by vm_compute.
  - by intros ->.
Qed.

Lemma X5_tag_meets_work_type_witness :
  WorkItemData.workTypeId
    (workItemData (workTypes_reduce (YouTrack.workItemTypes Sample.youTrack))
                  Sample.entry Sample.date)
  = Some (JS.Str "7-1").
Proof.
  apply (proj1 (X5_tag_meets_work_type Sample.billableEntry Sample.entry Sample.date
                  (YouTrack.workItemTypes Sample.youTrack) eq_refl)
           " Development " []
           {| WorkItemType.id := "7-1"; WorkItemType.name := "Development" |} []).
  - reflexivity.
  - reflexivity.
  - by intros type' ?%elem_of_nil.
  - reflexivity.
  - reflexivity.
  - reflexivity.
Defined.

(** ** The fields of a normalized entry *)

Lemma trimEnd_idem s : JS.trimEnd (JS.trimEnd s) = JS.trimEnd s.
Proof.
  induction s as [|c r IH]; [done|].
  change (JS.trimEnd (String c r)) with
    (match JS.trimEnd r with
     | EmptyString => if JS.is_space c then EmptyString else String c EmptyString
     | r' => String c r'
     end).
  destruct (JS.trimEnd r) as [|d r'] eqn:E.
  - destruct (JS.is_space c) eqn:Hc; [done|]. simpl. by rewrite Hc.
  - change (JS.trimEnd (String c (String d r'))) with
      (match JS.trimEnd (String d r') with
       | EmptyString => if JS.is_space c then EmptyString else String c EmptyString
       | r'' => String c r''
       end).
    by rewrite IH.
Qed.

Lemma trimStart_head s : head_is JS.is_space (JS.trimStart s) = false.
Proof.
  induction s as [|c r IH]; [done|]. simpl.
  destruct (JS.is_space c) eqn:Hc; [done|]. by simpl.
Qed.

Lemma trimEnd_head s :
  head_is JS.is_space s = false -> head_is JS.is_space (JS.trimEnd s) = false.
Proof.
  destruct s as [|c r]; [done|]. simpl. intros Hc.
  destruct (JS.trimEnd r); [by rewrite Hc | done].
Qed.

Lemma trim_idem s : JS.trim (JS.trim s) = JS.trim s.
Proof.
  unfold JS.trim.
  rewrite (trimStart_no_space (JS.trimEnd (JS.trimStart s)))
    by apply trimEnd_head, trimStart_head.
  apply trimEnd_idem.
Qed.

Lemma lower_char_idem c : JS.lower_char (JS.lower_char c) = JS.lower_char c.
Proof. destruct c as [[] [] [] [] [] [] [] []]; by vm_compute. Qed.

Lemma lower_char_space c : JS.is_space (JS.lower_char c) = JS.is_space c.
Proof. destruct c as [[] [] [] [] [] [] [] []]; by vm_compute. Qed.

Lemma toLowerCase_idem s : JS.toLowerCase (JS.toLowerCase s) = JS.toLowerCase s.
Proof. induction s as [|c r IH]; [done|]. simpl. by rewrite lower_char_idem, IH. Qed.

Lemma toLowerCase_trimStart s :
  JS.toLowerCase (JS.trimStart s) = JS.trimStart (JS.toLowerCase s).
Proof.
  induction s as [|c r IH]; [done|]. simpl. rewrite lower_char_space.
  by destruct (JS.is_space c).
Qed.

Lemma toLowerCase_trimEnd s :
  JS.toLowerCase (JS.trimEnd s) = JS.trimEnd (JS.toLowerCase s).
Proof.
  induction s as [|c r IH]; [done|]. simpl. rewrite <- IH, lower_char_space.
  destruct (JS.trimEnd r); simpl; [by destruct (JS.is_space c) | done].
Qed.

Lemma toLowerCase_trim s : JS.toLowerCase (JS.trim s) = JS.trim (JS.toLowerCase s).
Proof. unfold JS.trim. by rewrite toLowerCase_trimEnd, toLowerCase_trimStart. Qed.

Lemma createTimeEntry_issueId billableEntry entry :
  createTimeEntry billableEntry = Ok entry ->
  TimeEntry.issueId entry =
  match BillableEntry.task billableEntry ≫= Task.name with
  | Some name => if JS.nonempty name then extractIssueId name else None
  | None => None
  end.
Proof.
  intros E.
  destruct (createTimeEntry_ok _ (createTimeEntry_normalizable _ _ E))
    as (ti & _ & E').
  rewrite E' in E. by injection E as <-.
Qed.

(** X6: the fields that [createTimeEntry] derives are never empty strings:
    an issue id, when present, is a whole issue key extracted from the name
    of the task; a category, when present, is not empty, is lower-case and
    has no white space around it. So the truthiness tests of the loop on a
    normalized entry are tests of presence. *)
Theorem X6_createTimeEntry_fields billableEntry entry :
  createTimeEntry billableEntry = Ok entry ->
  (forall k,
      TimeEntry.issueId entry = Some k ->
      is_issue_key k /\ JS.nonempty k = true /\
      exists name,
        BillableEntry.task billableEntry ≫= Task.name = Some name /\
        extractIssueId name = Some k) /\
  (forall type,
      TimeEntry.type entry = Some type ->
      JS.nonempty type = true /\ JS.trim type = type /\
      JS.toLowerCase type = type) /\
  (JS.truthy (TimeEntry.issueId entry) = false <-> TimeEntry.issueId entry = None) /\
  (JS.truthy (TimeEntry.type entry) = false <-> TimeEntry.type entry = None).
Proof.
  intros E.
  assert (forall k,
      TimeEntry.issueId entry = Some k ->
      is_issue_key k /\ JS.nonempty k = true /\
      exists name,
        BillableEntry.task billableEntry ≫= Task.name = Some name /\
        extractIssueId name = Some k) as Hissue.
  { intros k. rewrite (createTimeEntry_issueId _ _ E).
    destruct (BillableEntry.task billableEntry ≫= Task.name) as [name|]; [|done].
    destruct (JS.nonempty name); [|done]. intros Hk.
    destruct (extractIssueId_sound _ _ Hk) as [Hkey _].
    split; [done|]. split; [by apply issue_key_nonempty | by exists name]. }
  assert (forall type,
      TimeEntry.type entry = Some type ->
      JS.nonempty type = true /\ JS.trim type = type /\
      JS.toLowerCase type = type) as Htype.
  { intros type. rewrite (createTimeEntry_type _ _ E).
    destruct ((BillableEntry.tags billableEntry ≫= head) ≫= Tag.name) as [name|];
      [|done].
    destruct (JS.nonempty (JS.trim (JS.toLowerCase name))) eqn:Hn; [|done].
    intros [= <-]. split; [done|]. split; [apply trim_idem|].
    by rewrite toLowerCase_trim, toLowerCase_idem. }
  split; [exact Hissue|]. split; [exact Htype|]. split.
  - destruct (TimeEntry.issueId entry) as [k|]; [|done]. simpl.
    destruct (Hissue k eq_refl) as (_ & -> & _). done.
  - destruct (TimeEntry.type entry) as [t|]; [|done]. simpl.
    destruct (Htype t eq_refl) as (-> & _). done.
Qed.

Lemma X6_createTimeEntry_fields_witness :
  is_issue_key "AB-1" /\ JS.nonempty "AB-1" = true /\
  exists name,
    BillableEntry.task Sample.billableEntry ≫= Task.name = Some name /\
    extractIssueId name = Some "AB-1".
Proof.
  apply (proj1 (X6_createTimeEntry_fields Sample.billableEntry Sample.entry eq_refl)).
  reflexivity.
Defined.

(** ** The window of a run *)

Lemma startOfDay_bounds now :
  Temporal.epochNanoseconds (Temporal.startOfDay now)
  <= Temporal.epochNanoseconds now
  < Temporal.epochNanoseconds (Temporal.startOfDay now) + Temporal.ns_per_day.
Proof.
  unfold Temporal.startOfDay. cbn [Temporal.epochNanoseconds].
  assert (0 < Temporal.ns_per_day) as Hday by done.
  pose proof (Z.mod_pos_bound (Temporal.epochNanoseconds now) _ Hday). lia.
Qed.

Lemma in_range_valid_days now n :
  Temporal.in_range (Temporal.epochNanoseconds now) = true ->
  Temporal.in_range
    (Temporal.epochNanoseconds (Temporal.startOfDay now) - n * Temporal.ns_per_day)
  = true ->
  Temporal.valid_days n = true.
Proof.
  pose proof (startOfDay_bounds now) as Hnow. revert Hnow.
  unfold Temporal.in_range, Temporal.valid_days, Temporal.max_instant.
  change (10 ^ 8) with 100000000. change (2 ^ 53) with 9007199254740992.
  change Temporal.ns_per_day with 86400000000000.
  intros Hnow [H1 H2]%andb_true_iff [H3 H4]%andb_true_iff.
  apply Z.leb_le in H1, H2, H3, H4. apply Z.ltb_lt. lia.
Qed.

(** When the window is selected: exactly when its other end is an instant. *)
Lemma getOptionDateRange_is_ok now options :
  Temporal.in_range (Temporal.epochNanoseconds now) = true ->
  is_ok (getOptionDateRange now options)
  = Temporal.in_range
      (Temporal.epochNanoseconds (Temporal.startOfDay now)
       - days_back options * Temporal.ns_per_day).
Proof.
  intros Hnow.
  assert (forall n,
    is_ok (Temporal.subtract_days (Temporal.startOfDay now) n ≫= fun start =>
           Ok {| DateRange.start := start;
                 DateRange.end_ := Temporal.startOfDay now |})
    = Temporal.in_range
        (Temporal.epochNanoseconds (Temporal.startOfDay now)
         - n * Temporal.ns_per_day)) as Hsub.
  { intros n. unfold Temporal.subtract_days. cbv zeta.
    destruct (Temporal.in_range (_ - _)) eqn:Hr.
    - by rewrite (in_range_valid_days now n Hnow Hr).
    - by rewrite andb_false_r. }
  unfold getOptionDateRange, days_back. cbv zeta.
  destruct (Options.today options).
  - unfold Temporal.add_days. cbv zeta.
    replace (Temporal.epochNanoseconds (Temporal.startOfDay now)
             - -1 * Temporal.ns_per_day)
      with (Temporal.epochNanoseconds (Temporal.startOfDay now)
            + 1 * Temporal.ns_per_day) by lia.
    change (Temporal.valid_days 1) with true.
    by destruct (Temporal.in_range (_ + _)).
  - destruct (Options.lastNDays options) as [n|]; [destruct (n =? 0)|]; apply Hsub.
Qed.

(** X7: the window selected by [getOptionDateRange] at an instant of
    Temporal. The call returns a window exactly when the other end of the
    window is an instant of Temporal too (within 10^8 days of the epoch),
    and raises otherwise; after the epoch it returns for every
    [--last-n-days n] from 1 to 10^8. With [--today] the window is the
    current UTC day, one day long, and holds the current instant, whatever
    [--last-n-days] says. Without [--today] it ends where the current day
    starts, so the current instant is never in it, and it is [n] days long
    for [--last-n-days n] with [n] other than 0, and one day long
    otherwise; a negative [n] gives a window that ends before it starts. *)
Theorem X7_getOptionDateRange_window now options :
  Temporal.in_range (Temporal.epochNanoseconds now) = true ->
  is_ok (getOptionDateRange now options)
  = Temporal.in_range
      (Temporal.epochNanoseconds (Temporal.startOfDay now)
       - days_back options * Temporal.ns_per_day) /\
  (forall n,
      0 <= Temporal.epochNanoseconds now -> Options.today options = false ->
      Options.lastNDays options = Some n -> 0 < n /\ n <= 10 ^ 8 ->
      is_ok (getOptionDateRange now options) = true) /\
  forall range,
    getOptionDateRange now options = Ok range ->
    let start := Temporal.epochNanoseconds (DateRange.start range) in
    let end_ := Temporal.epochNanoseconds (DateRange.end_ range) in
    let instant := Temporal.epochNanoseconds now in
    (Options.today options = true ->
     start <= instant < end_ /\ end_ - start = Temporal.ns_per_day) /\
    (Options.today options = false ->
     DateRange.end_ range = Temporal.startOfDay now /\
     end_ <= instant < end_ + Temporal.ns_per_day /\
     (forall n, Options.lastNDays options = Some n -> n <> 0 ->
                end_ - start = n * Temporal.ns_per_day /\ (n < 0 -> end_ < start)) /\
     (Options.lastNDays options = None \/ Options.lastNDays options = Some 0 ->
      end_ - start = Temporal.ns_per_day)).
Proof.
  intros Hvalid. pose proof (startOfDay_bounds now) as Hnow.
  assert (0 < Temporal.ns_per_day) as Hday by done.
  split; [by apply getOptionDateRange_is_ok|]. split.
  - intros n Hepoch Htoday Hn Hbound.
    rewrite getOptionDateRange_is_ok by done.
    unfold days_back. rewrite Htoday, Hn.
    assert ((n =? 0) = false) as -> by (apply Z.eqb_neq; lia).
    assert (0 <= Temporal.epochNanoseconds (Temporal.startOfDay now)) as Hstart.
    { unfold Temporal.startOfDay. cbn [Temporal.epochNanoseconds].
      pose proof (Z.mod_le (Temporal.epochNanoseconds now) _ Hepoch Hday). lia. }
    revert Hvalid Hnow Hepoch Hbound Hstart.
    unfold Temporal.in_range, Temporal.max_instant.
    change (10 ^ 8) with 100000000.
    change Temporal.ns_per_day with 86400000000000.
    intros [H1 H2]%andb_true_iff Hnow Hepoch Hbound Hstart.
    apply Z.leb_le in H1, H2. apply andb_true_iff.
    split; apply Z.leb_le; lia.
  - intros range. unfold getOptionDateRange. cbv zeta. revert Hnow.
    destruct (Temporal.startOfDay now) as [t0].
    cbn [Temporal.epochNanoseconds]. intros Hnow.
    assert (forall n,
      (Temporal.subtract_days {| Temporal.epochNanoseconds := t0 |} n ≫= fun start =>
       Ok {| DateRange.start := start;
             DateRange.end_ := {| Temporal.epochNanoseconds := t0 |} |}) = Ok range ->
      DateRange.end_ range = {| Temporal.epochNanoseconds := t0 |} /\
      Temporal.epochNanoseconds (DateRange.end_ range)
      - Temporal.epochNanoseconds (DateRange.start range)
      = n * Temporal.ns_per_day) as Hsub.
    { intros n. unfold Temporal.subtract_days. cbv zeta.
      destruct (_ && _); [|done]. intros [= <-]. split; [done|].
      cbn [DateRange.start DateRange.end_ Temporal.epochNanoseconds]. ring. }
    destruct (Options.today options).
    + unfold Temporal.add_days. cbv zeta. destruct (_ && _); [|done].
      intros [= <-].
      cbn [DateRange.start DateRange.end_ Temporal.epochNanoseconds].
      split; [intros _; lia | done].
    + intros E. split; [done|]. intros _.
      destruct (Options.lastNDays options) as [n|]; [destruct (n =? 0) eqn:Hn|];
        destruct (Hsub _ E) as [Hend Hlen]; rewrite Hend in *;
        cbn [Temporal.epochNanoseconds] in *;
        (split; [done|]); (split; [lia|]); split.
      * apply Z.eqb_eq in Hn. intros m [= <-]. lia.
      * intros _. lia.
      * intros m [= <-] _. split; [lia | nia].
      * apply Z.eqb_neq in Hn. intros [|[= ->]]; done.
      * done.
      * intros _. lia.
Qed.

Lemma X7_getOptionDateRange_window_witness :
  is_ok (getOptionDateRange Sample.now
           {| Options.today := false; Options.yesterday := false;
              Options.lastNDays := Some 7; Options.dryRun := false |})
  = true.
Proof.
  apply (proj1 (proj2 (X7_getOptionDateRange_window Sample.now
                         {| Options.today := false; Options.yesterday := false;
                            Options.lastNDays := Some 7; Options.dryRun := false |}
                         eq_refl)) 7); [by vm_compute | reflexivity | reflexivity |].
  by vm_compute.
Defined.

(** ** The page loop: other courses *)

Lemma getIssueWorkItems_loop_full get fuel :
  (forall skip, exists data, get skip limit = Ok data /\ (limit <= length data)%nat) ->
  forall items k,
    getIssueWorkItems_loop fuel get items (k * limit) =
    ((fun j => (j * limit)%nat) <$> seq k fuel, Throw OutOfFuel).
Proof.
  intros Hfull. induction fuel as [|fuel IH]; intros items k; [done|].
  rewrite getIssueWorkItems_loop_S.
  destruct (Hfull (k * limit)%nat) as (data & -> & Hlen).
  apply Nat.ltb_ge in Hlen. rewrite Hlen.
  replace (k * limit + limit)%nat with (S k * limit)%nat by lia.
  by rewrite IH.
Qed.

(** X8: the page loop has no exit but a short page: against a source that
    answers every request with a full page it sends a request in every
    iteration, at the offsets 0, 5000, 10000, ..., and returns nothing,
    however many iterations it is given. *)
Theorem X8_getIssueWorkItems_full_pages
    (get : nat -> nat -> result (list WorkItem.t)) fuel :
  (forall skip, exists data, get skip limit = Ok data /\ (limit <= length data)%nat) ->
  getIssueWorkItems fuel get =
  ((fun j => (j * limit)%nat) <$> seq 0 fuel, Throw OutOfFuel).
Proof.
  intros Hfull. unfold getIssueWorkItems. change 0%nat with (0 * limit)%nat at 1.
  by apply getIssueWorkItems_loop_full.
Qed.

Lemma X8_getIssueWorkItems_full_pages_witness :
  getIssueWorkItems 3 (fun _ top => Ok (replicate top Sample.unmarked)) =
  ([0; limit; 2 * limit]%nat, Throw OutOfFuel).
Proof.
  apply (X8_getIssueWorkItems_full_pages
           (fun _ top => Ok (replicate top Sample.unmarked)) 3).
  intros skip. exists (replicate limit Sample.unmarked).
  split; [reflexivity|]. by rewrite length_replicate.
Defined.

Lemma getIssueWorkItems_loop_error get pages e :
  forall fuel items k,
    (forall j page, pages !! j = Some page ->
                    get ((k + j) * limit)%nat limit = Ok page /\
                    (limit <= length page)%nat) ->
    get ((k + length pages) * limit)%nat limit = Throw e ->
    (length pages < fuel)%nat ->
    getIssueWorkItems_loop fuel get items (k * limit) =
    ((fun j => (j * limit)%nat) <$> seq k (S (length pages)), Throw e).
Proof.
  induction pages as [|page pages IH]; intros fuel items k Hfull Hlast Hfuel;
    (destruct fuel as [|fuel]; [simpl in Hfuel; lia|]);
    rewrite getIssueWorkItems_loop_S.
  - simpl in Hlast. rewrite Nat.add_0_r in Hlast. by rewrite Hlast.
  - destruct (Hfull 0%nat page eq_refl) as [Hget Hlen].
    rewrite Nat.add_0_r in Hget. rewrite Hget.
    apply Nat.ltb_ge in Hlen. rewrite Hlen.
    replace (k * limit + limit)%nat with (S k * limit)%nat by lia.
    rewrite (IH fuel (items ++ page) (S k)); [done| | |].
    + intros j p Hj. replace (S k + j)%nat with (k + S j)%nat by lia.
      by apply Hfull.
    + cbn [length] in Hlast.
      by replace (S k + length pages)%nat with (k + S (length pages))%nat by lia.
    + cbn [length] in Hfuel. lia.
Qed.

(** X9: a request that fails ends the page loop with that failure: after
    full pages and a failing request, the loop has sent one request per
    page and the failing one, and the items of the pages read so far are
    not returned. *)
Theorem X9_getIssueWorkItems_failure
    (get : nat -> nat -> result (list WorkItem.t)) pages e fuel :
  (forall (j : nat) page,
      pages !! j = Some page ->
      get (j * limit)%nat limit = Ok page /\ (limit <= length page)%nat) ->
  get (length pages * limit)%nat limit = Throw e ->
  (length pages < fuel)%nat ->
  getIssueWorkItems fuel get =
  ((fun j => (j * limit)%nat) <$> seq 0 (S (length pages)), Throw e).
Proof.
  intros Hfull Hlast Hfuel. unfold getIssueWorkItems.
  change 0%nat with (0 * limit)%nat at 1.
  by apply (getIssueWorkItems_loop_error get pages e fuel [] 0%nat).
Qed.

Lemma X9_getIssueWorkItems_failure_witness :
  getIssueWorkItems 2
    (fun skip top => if (skip =? 0)%nat then Ok (replicate top Sample.unmarked)
                     else Throw HttpError)
  = ([0; limit]%nat, Throw HttpError).
Proof.
  apply (X9_getIssueWorkItems_failure
           (fun skip top => if (skip =? 0)%nat then Ok (replicate top Sample.unmarked)
                            else Throw HttpError)
           [replicate limit Sample.unmarked] HttpError 2).
  - intros [|j] page; [|by destruct j]. intros [= <-].
    split; [reflexivity|]. by rewrite length_replicate.
  - by vm_compute.
  - apply le_n.
Defined.

Lemma getIssueWorkItems_loop_requests (all : list WorkItem.t) fuel :
  forall items skip,
    ((length all - skip) / limit < fuel)%nat ->
    getIssueWorkItems_loop fuel (fun s t => Ok (take t (drop s all))) items skip
    = ((fun j => (skip + j * limit)%nat) <$> seq 0 (S ((length all - skip) / limit)),
       Ok (items ++ drop skip all)).
Proof.
  pose proof limit_positive as Hlimit.
  induction fuel as [|fuel IH]; intros items skip Hfuel; [lia|].
  rewrite getIssueWorkItems_loop_S.
  destruct (length (take limit (drop skip all)) <? limit)%nat eqn:E.
  - apply Nat.ltb_lt in E. rewrite (take_short _ _ E).
    rewrite length_take, length_drop in E.
    rewrite Nat.div_small by lia. cbn [seq fmap list_fmap].
    by rewrite Nat.add_0_r.
  - apply Nat.ltb_ge in E. rewrite length_take, length_drop in E.
    assert ((length all - skip) / limit
            = S ((length all - (skip + limit)) / limit))%nat as Hdiv.
    { replace (length all - skip)%nat
        with ((length all - (skip + limit)) + 1 * limit)%nat at 1 by lia.
      rewrite Nat.div_add by lia. lia. }
    rewrite IH by lia. rewrite Hdiv.
    set (q := ((length all - (skip + limit)) / limit)%nat).
    f_equal.
    + change (seq 0 (S (S q))) with (0%nat :: seq 1 (S q)).
      rewrite <- fmap_S_seq. cbn [fmap list_fmap]. rewrite Nat.add_0_r. f_equal.
      rewrite <- list_fmap_compose. apply list_fmap_ext. intros _ j _. simpl. lia.
    + f_equal. rewrite <- app_assoc. f_equal.
      rewrite <- (take_drop limit (drop skip all)) at 2. by rewrite drop_drop.
Qed.

(** X10: against the tracker, for an issue with [n] work items and fuel for
    [n / 5000 + 1] iterations, [getIssueWorkItems] returns all [n] items in
    their order after exactly [n / 5000 + 1] requests at the offsets 0,
    5000, ...; when [n] is a multiple of 5000 the last request is answered
    with an empty page. The tracker is left as it is. *)
Theorem X10_getIssueWorkItems_tracker fuel issueId yt items :
  YouTrack.issues yt !! issueId = Some items ->
  (length items / limit < fuel)%nat ->
  getIssueWorkItems_of fuel issueId yt =
  (yt,
   (fun j => GetWorkItems issueId (j * limit) limit)
     <$> seq 0 (S (length items / limit)),
   Ok items).
Proof.
  intros Hitems Hfuel. unfold getIssueWorkItems_of, getIssueWorkItems.
  assert (YouTrack.get_workItems yt issueId
          = fun s t => Ok (take t (drop s items))) as ->.
  { unfold YouTrack.get_workItems. by rewrite Hitems. }
  rewrite getIssueWorkItems_loop_requests by (by rewrite Nat.sub_0_r).
  rewrite Nat.sub_0_r, drop_0, app_nil_l. f_equal. f_equal.
  rewrite <- list_fmap_compose. by apply list_fmap_ext.
Qed.

Lemma X10_getIssueWorkItems_tracker_witness :
  getIssueWorkItems_of 2 "AB-1"
    {| YouTrack.issues := {[ "AB-1" := Sample.page1 ]}; YouTrack.workItemTypes := [];
       YouTrack.refuses := fun _ _ => false |}
  = ({| YouTrack.issues := {[ "AB-1" := Sample.page1 ]}; YouTrack.workItemTypes := [];
       YouTrack.refuses := fun _ _ => false |},
     [GetWorkItems "AB-1" 0 limit; GetWorkItems "AB-1" limit limit],
     Ok Sample.page1).
Proof.
  rewrite (X10_getIssueWorkItems_tracker 2 "AB-1"
             {| YouTrack.issues := {[ "AB-1" := Sample.page1 ]};
                YouTrack.workItemTypes := [];
       YouTrack.refuses := fun _ _ => false |} Sample.page1).
  - by vm_compute.
  - by vm_compute.
  - by vm_compute.
Defined.

(** ** Runs: the stages before the loop *)

Lemma Array_map_Forall2 {A B} (f : A -> result B) xs ys :
  Array_map f xs = Ok ys <-> Forall2 (fun x y => f x = Ok y) xs ys.
Proof.
  revert ys. induction xs as [|x xs IH]; intros ys.
  - split; [intros [= <-]; constructor | by intros ->%Forall2_nil_inv_l].
  - cbn [Array_map]. split.
    + destruct (f x) as [y|] eqn:E; [|intros [=]].
      destruct (Array_map f xs) as [ys'|]; [|intros [=]].
      intros [= <-]. constructor; [done | by apply IH].
    + intros (y & ys' & Hy & Hys & ->)%Forall2_cons_inv_l.
      rewrite Hy. apply IH in Hys. by rewrite Hys.
Qed.

Lemma Array_map_Exists_throw {A B} (f : A -> result B) xs :
  Exists (fun x => is_ok (f x) = false) xs -> exists e, Array_map f xs = Throw e.
Proof.
  induction 1 as [x xs Hx|x xs _ [e IH]]; cbn [Array_map].
  - destruct (f x) as [y|e]; [done | by exists e].
  - destruct (f x) as [y|e']; [|by exists e'].
    exists e. by rewrite IH.
Qed.


Lemma createTimeEntry_is_ok billableEntry :
  is_ok (createTimeEntry billableEntry) = normalizable billableEntry.
Proof.
  destruct (normalizable billableEntry) eqn:Hn.
  - destruct (createTimeEntry_ok _ Hn) as (ti & _ & ->). done.
  - destruct (createTimeEntry_throws _ Hn) as [e ->]. done.
Qed.

Lemma sync_banner fuel now options clockifyApi yt :
  sync fuel now options clockifyApi yt =
  match getOptionDateRange now options with
  | Throw e => (yt, banner options, Throw e)
  | Ok dateRange =>
  match getBillableEntries clockifyApi dateRange with
  | Throw e => (yt, banner options ++ [LogSyncing dateRange], Throw e)
  | Ok entries =>
      let workTypes := workTypes_reduce (YouTrack.workItemTypes yt) in
      match Array_map createTimeEntry entries with
      | Throw e =>
          (yt, banner options ++ [LogSyncing dateRange; GetWorkItemTypes], Throw e)
      | Ok timeEntries =>
          let '(yt1, g, r) :=
            Promise_all_map (workItemsByIssueId_entry fuel)
                            (uniqueIssueIds timeEntries) yt in
          match r with
          | Throw e =>
              (yt1, banner options ++ [LogSyncing dateRange; GetWorkItemTypes] ++ g,
               Throw e)
          | Ok pairs =>
              let '(yt2, t, r2) :=
                for_of timeEntries (sync_entry options workTypes (Map_of pairs)) yt1 in
              (yt2,
               banner options ++ [LogSyncing dateRange; GetWorkItemTypes] ++ g ++ t,
               r2)
          end
      end
  end
  end.
Proof. apply sync_eq. Qed.

(** X11: a run reads the answer of Clockify only through its billable
    entries: two answers that hold the same billable entries in the same
    order (whatever else they hold, and be the answer null or an empty
    array) give the same run. *)
Theorem X11_sync_billable_only fuel now options
    (clockifyApi clockifyApi' : Clockify) dateRange data data' yt :
  getOptionDateRange now options = Ok dateRange ->
  clockifyApi dateRange = Ok data ->
  clockifyApi' dateRange = Ok data' ->
  List.filter BillableEntry.billable (default [] data)
  = List.filter BillableEntry.billable (default [] data') ->
  sync fuel now options clockifyApi yt = sync fuel now options clockifyApi' yt.
Proof.
  intros Hrange H H' Hsame. rewrite !sync_banner, Hrange. cbn zeta.
  unfold getBillableEntries. rewrite H, H'. simpl. by rewrite Hsame.
Qed.

Lemma X11_sync_billable_only_witness :
  sync 1 Sample.now options_default Sample.clockifyApi Sample.youTrack =
  sync 1 Sample.now options_default Sample2.with_lunch Sample.youTrack.
Proof.
  apply (X11_sync_billable_only 1 Sample.now options_default Sample.clockifyApi
           Sample2.with_lunch Sample.range (Some [Sample.billableEntry])
           (Some [Sample2.lunch; Sample.billableEntry]) Sample.youTrack
           getOptionDateRange_sample eq_refl eq_refl).
  reflexivity.
Defined.

(** X12: the billable entries are all normalized before an issue is read or
    a work item is created: when [createTimeEntry] raises on one of them,
    the run stops after the request for the work item types, with no
    request for work items and no create call, also for the entries in
    front of the offending one. *)
Theorem X12_sync_malformed_entry fuel now options clockifyApi yt dateRange entries :
  getOptionDateRange now options = Ok dateRange ->
  getBillableEntries clockifyApi dateRange = Ok entries ->
  Exists (fun b => normalizable b = false) entries ->
  exists e,
    sync fuel now options clockifyApi yt =
    (yt, banner options ++ [LogSyncing dateRange; GetWorkItemTypes], Throw e).
Proof.
  intros Hrange H Hbad. rewrite sync_banner, Hrange. cbn zeta. rewrite H.
  destruct (Array_map_Exists_throw createTimeEntry entries) as [e ->].
  - eapply Exists_impl; [exact Hbad|]. intros b Hb. by rewrite createTimeEntry_is_ok.
  - by exists e.
Qed.

Lemma X12_sync_malformed_entry_witness :
  exists e,
    sync 1 Sample.now options_default Sample2.with_malformed Sample.youTrack
    = (Sample.youTrack, [LogSyncing Sample.range; GetWorkItemTypes], Throw e).
Proof.
  apply (X12_sync_malformed_entry 1 Sample.now options_default
           Sample2.with_malformed Sample.youTrack Sample.range
           [Sample.billableEntry; Sample2.malformed]
           getOptionDateRange_sample eq_refl).
  apply Exists_cons_tl, Exists_cons_hd. reflexivity.
Defined.

(** ** Runs: the loop *)

(** A create call in the events of the loop body: whence it comes. *)
Lemma sync_entry_post options workTypes idx entry yt i p :
  PostWorkItem i p ∈ (sync_entry options workTypes idx entry yt).1.2 ->
  Options.dryRun options = false /\
  exists d s,
    TimeEntry.startDate entry = Some d /\
    TimeEntry.issueId entry = Some i /\ JS.nonempty i = true /\
    idx !! i = Some s /\ (TimeEntry.id entry ∉ s) /\
    p = payload_of (workItemData workTypes entry d) /\
    test_marker (Payload.text p) = true.
Proof.
  destruct (TimeEntry.startDate entry) as [d|] eqn:Hd;
    [|rewrite sync_entry_no_date by done; by intros ?%elem_of_nil].
  destruct (JS.truthy (TimeEntry.issueId entry)) eqn:Ht;
    [|rewrite (sync_entry_no_issue _ _ _ _ d) by done;
      by intros [=]%list_elem_of_singleton].
  destruct (TimeEntry.issueId entry) as [j|] eqn:Hi; [|done]. simpl in Ht.
  destruct (idx !! j) as [s|] eqn:Hx;
    [|rewrite (sync_entry_not_indexed _ _ _ _ d j) by done; by intros ?%elem_of_nil].
  destruct (decide (TimeEntry.id entry ∈ s)) as [Hin|Hin];
    [rewrite (sync_entry_exists _ _ _ _ d j s) by done;
     by intros [=]%list_elem_of_singleton|].
  destruct (Options.dryRun options) eqn:Hdry;
    [rewrite (sync_entry_dry _ _ _ _ d j s) by done;
     by intros [=]%list_elem_of_singleton|].
  rewrite (sync_entry_live _ _ _ _ d j s) by done. cbn zeta.
  destruct (test_marker _) eqn:Htest; [|by intros ?%elem_of_nil].
  assert (PostWorkItem i p ∈
            [PostWorkItem j (payload_of (workItemData workTypes entry d))] ->
          i = j /\ p = payload_of (workItemData workTypes entry d)) as Hone.
  { by intros [= -> ->]%list_elem_of_singleton. }
  intros H.
  assert (i = j /\ p = payload_of (workItemData workTypes entry d)) as [-> ->].
  { destruct (YouTrack.issues yt !! j); [|by apply Hone].
    destruct (YouTrack.refuses yt j _); [by apply Hone|].
    cbn [fst snd] in H. apply elem_of_cons in H as [[= -> ->]|[=]%list_elem_of_singleton].
    done. }
  split; [done|]. by exists d, s.
Qed.

Lemma for_of_trace_elem {A} (body : A -> M unit) xs yt ev :
  ev ∈ (for_of xs body yt).1.2 ->
  exists x yt', x ∈ xs /\ ev ∈ (body x yt').1.2.
Proof.
  revert yt. induction xs as [|x xs IH]; intros yt; [by intros ?%elem_of_nil|].
  rewrite for_of_cons.
  destruct (body x yt) as [[yt1 t1] [[]|e]] eqn:E.
  - specialize (IH yt1). destruct (for_of xs body yt1) as [[yt2 t2] r2].
    cbn [fst snd] in *. intros [H|H]%elem_of_app.
    + exists x, yt. split; [by left | by rewrite E].
    + destruct (IH H) as (x' & yt' & Hx' & Hev). exists x', yt'. split; [by right | done].
  - cbn [fst snd]. intros H. exists x, yt. split; [by left | by rewrite E].
Qed.

(** The state after the loop: only issues that were there, with work items
    added behind theirs. *)
Lemma sync_entry_same_issues options workTypes idx entry yt i :
  is_Some (YouTrack.issues (sync_entry options workTypes idx entry yt).1.1 !! i) ->
  is_Some (YouTrack.issues yt !! i).
Proof.
  destruct (sync_entry_outcomes options workTypes idx entry yt); cbn [fst]; try done.
  cbn [YouTrack.issues]. destruct (decide (i0 = i)) as [->|Hi];
    [by eexists | by rewrite lookup_insert_ne].
Qed.

Lemma for_of_same_issues options workTypes idx entries yt i :
  is_Some (YouTrack.issues (for_of entries (sync_entry options workTypes idx) yt).1.1 !! i) ->
  is_Some (YouTrack.issues yt !! i).
Proof.
  revert yt. induction entries as [|e es IH]; intros yt; [done|].
  rewrite for_of_cons.
  pose proof (sync_entry_same_issues options workTypes idx e yt i) as H1.
  destruct (sync_entry options workTypes idx e yt) as [[yt1 t1] [[]|err]];
    [|exact H1].
  specialize (IH yt1). destruct (for_of es _ yt1) as [[yt2 t2] r2].
  cbn [fst] in *. auto.
Qed.

Lemma sync_entry_quiet options workTypes idx entry yt :
  posts (sync_entry options workTypes idx entry yt).1.2 = [] ->
  (sync_entry options workTypes idx entry yt).1.1 = yt.
Proof. by destruct (sync_entry_outcomes options workTypes idx entry yt). Qed.

Lemma for_of_quiet options workTypes idx entries yt :
  posts (for_of entries (sync_entry options workTypes idx) yt).1.2 = [] ->
  (for_of entries (sync_entry options workTypes idx) yt).1.1 = yt.
Proof.
  revert yt. induction entries as [|e es IH]; intros yt; [done|].
  rewrite for_of_cons.
  pose proof (sync_entry_quiet options workTypes idx e yt) as H1.
  destruct (sync_entry options workTypes idx e yt) as [[yt1 t1] [[]|err]];
    [|exact H1].
  specialize (IH yt1). destruct (for_of es _ yt1) as [[yt2 t2] r2].
  cbn [fst snd] in *. rewrite posts_app. intros [H1' H2]%app_eq_nil.
  rewrite <- (H1 H1'). auto.
Qed.

Lemma elem_of_posts ev t : ev ∈ posts t <-> ev ∈ t /\ is_post ev = true.
Proof. unfold posts. rewrite !list_elem_of_In. apply List.filter_In. Qed.

Lemma Forall2_elem_r {A B} (R : A -> B -> Prop) xs ys y :
  Forall2 R xs ys -> y ∈ ys -> exists x, x ∈ xs /\ R x y.
Proof.
  induction 1 as [|x y' xs ys Hxy _ IH]; [by intros ?%elem_of_nil|].
  intros [->|Hy]%elem_of_cons; [exists x; split; [by left | done]|].
  destruct (IH Hy) as (x' & Hx' & HR). exists x'. split; [by right | done].
Qed.

(** The create calls of a run are those of its loop. *)
Lemma sync_posts fuel now options clockifyApi yt :
  posts (sync fuel now options clockifyApi yt).1.2 =
  match getOptionDateRange now options
        ≫= getBillableEntries clockifyApi with
  | Ok entries =>
      match Array_map createTimeEntry entries with
      | Ok timeEntries =>
          match Promise_all_map (workItemsByIssueId_entry fuel)
                                (uniqueIssueIds timeEntries) yt with
          | (_, _, Ok pairs) =>
              posts (for_of timeEntries
                       (sync_entry options
                          (workTypes_reduce (YouTrack.workItemTypes yt))
                          (Map_of pairs)) yt).1.2
          | _ => []
          end
      | Throw _ => []
      end
  | Throw _ => []
  end.
Proof.
  rewrite sync_banner. cbn zeta.
  assert (posts (banner options) = []) as Hbanner
    by (unfold banner; by destruct (Options.dryRun options)).
  destruct (getOptionDateRange now options) as [dateRange|e]; [|done].
  cbn [mbind result_bind].
  destruct (getBillableEntries _ _) as [entries|e];
    [|cbn [fst snd]; by rewrite posts_app, Hbanner].
  destruct (Array_map createTimeEntry entries) as [timeEntries|e];
    [|cbn [fst snd]; by rewrite posts_app, Hbanner].
  destruct (Promise_all_index fuel (uniqueIssueIds timeEntries) yt)
    as (g & r & -> & Hp & _ & _).
  destruct r as [pairs|e];
    [|cbn [fst snd]; by rewrite !posts_app, Hbanner, Hp].
  destruct (for_of timeEntries _ yt) as [[yt2 t] r2]. cbn [fst snd].
  by rewrite !posts_app, Hbanner, Hp.
Qed.

(** X13: a run never creates anything but the work item of a billable entry
    of the answer: every create call of a run belongs to a live run and to
    one of the entries, goes to the issue whose key was extracted from the
    task of that entry, and carries the description of the entry followed by
    a space and its id in brackets, a text in which the marker pattern
    matches, with the start date and the duration of the entry, and with
    what the object of work types gives for its category (the id of a work
    item type, or a member inherited from [Object.prototype]). *)
Theorem X13_sync_create_calls fuel now options clockifyApi yt dateRange entries i p :
  getOptionDateRange now options = Ok dateRange ->
  getBillableEntries clockifyApi dateRange = Ok entries ->
  PostWorkItem i p ∈ (sync fuel now options clockifyApi yt).1.2 ->
  Options.dryRun options = false /\
  exists billableEntry entry d,
    billableEntry ∈ entries /\ createTimeEntry billableEntry = Ok entry /\
    TimeEntry.issueId entry = Some i /\ TimeEntry.startDate entry = Some d /\
    p = payload_of (workItemData (workTypes_reduce (YouTrack.workItemTypes yt))
                                 entry d) /\
    Payload.text p =
      BillableEntry.description billableEntry +:+ " [" +:+
      BillableEntry.id billableEntry +:+ "]" /\
    test_marker (Payload.text p) = true.
Proof.
  intros Hrange Hentries Hp.
  assert (PostWorkItem i p ∈ posts (sync fuel now options clockifyApi yt).1.2) as H
    by (by apply elem_of_posts).
  rewrite sync_posts, Hrange in H. cbn [mbind result_bind] in H.
  rewrite Hentries in H.
  destruct (Array_map createTimeEntry entries) as [timeEntries|e] eqn:Et;
    [|by apply elem_of_nil in H].
  destruct (Promise_all_map _ _ yt) as [[yt1 g] [pairs|e]];
    [|by apply elem_of_nil in H].
  apply elem_of_posts in H as [H _].
  apply for_of_trace_elem in H as (entry & yt' & Hentry & H).
  apply sync_entry_post in H as (Hlive & d & s & Hd & Hi & _ & _ & _ & -> & Htest).
  split; [done|].
  apply Array_map_Forall2 in Et.
  destruct (Forall2_elem_r _ _ _ _ Et Hentry) as (b & Hb & E).
  exists b, entry, d. repeat split; try done.
  destruct (createTimeEntry_id _ _ E) as [<- <-]. done.
Qed.

Lemma X13_sync_create_calls_witness :
  exists billableEntry entry d,
    billableEntry ∈ [Sample.billableEntry] /\
    createTimeEntry billableEntry = Ok entry /\
    TimeEntry.issueId entry = Some "AB-1" /\ TimeEntry.startDate entry = Some d /\
    payload_of (workItemData Sample.workTypes Sample.entry Sample.date)
    = payload_of (workItemData
                    (workTypes_reduce (YouTrack.workItemTypes Sample.youTrack))
                    entry d) /\
    Payload.text (payload_of (workItemData Sample.workTypes Sample.entry Sample.date))
    = BillableEntry.description billableEntry +:+ " [" +:+
      BillableEntry.id billableEntry +:+ "]" /\
    test_marker
      (Payload.text (payload_of (workItemData Sample.workTypes Sample.entry Sample.date)))
    = true.
Proof.
  apply (X13_sync_create_calls 1 Sample.now options_default Sample.clockifyApi
           Sample.youTrack Sample.range [Sample.billableEntry] "AB-1"
           (payload_of (workItemData Sample.workTypes Sample.entry Sample.date))
           getOptionDateRange_sample eq_refl).
  apply list_elem_of_In. vm_compute.
  repeat first [left; reflexivity | right].
Defined.

(** X14: a run only adds work items: in the tracker it leaves, every issue
    it found is there with the work items it had, in their order, and the
    new ones behind them; no issue has appeared; the work item types are
    the same; and a run without create call leaves the tracker as it found
    it. *)
Theorem X14_sync_appends fuel now options clockifyApi yt :
  let yt' := (sync fuel now options clockifyApi yt).1.1 in
  extends yt yt' /\
  (forall i, is_Some (YouTrack.issues yt' !! i) -> is_Some (YouTrack.issues yt !! i)) /\
  (posts (sync fuel now options clockifyApi yt).1.2 = [] -> yt' = yt).
Proof.
  cbn zeta. rewrite sync_posts, sync_banner. cbn zeta.
  destruct (getOptionDateRange now options) as [dateRange|e];
    [|by split; [apply extends_refl|]].
  cbn [mbind result_bind].
  destruct (getBillableEntries _ _) as [entries|e];
    [|by split; [apply extends_refl|]].
  destruct (Array_map createTimeEntry entries) as [timeEntries|e];
    [|by split; [apply extends_refl|]].
  destruct (Promise_all_index fuel (uniqueIssueIds timeEntries) yt)
    as (g & r & -> & _ & _ & _).
  destruct r as [pairs|e]; [|by split; [apply extends_refl|]].
  pose proof (for_of_extends options (workTypes_reduce (YouTrack.workItemTypes yt))
                (Map_of pairs) timeEntries yt) as H1.
  pose proof (for_of_same_issues options (workTypes_reduce (YouTrack.workItemTypes yt))
                (Map_of pairs) timeEntries yt) as H2.
  pose proof (for_of_quiet options (workTypes_reduce (YouTrack.workItemTypes yt))
                (Map_of pairs) timeEntries yt) as H3.
  destruct (for_of timeEntries _ yt) as [[yt2 t] r2]. cbn [fst snd] in *.
  by split; [|split].
Qed.

Lemma X14_sync_appends_witness :
  (sync 1 Sample.now (with_dryRun true options_default) Sample.clockifyApi
        Sample.youTrack).1.1
  = Sample.youTrack.
Proof.
  apply (proj2 (proj2 (X14_sync_appends 1 Sample.now (with_dryRun true options_default)
                         Sample.clockifyApi Sample.youTrack))).
  by vm_compute.
Defined.

Lemma Sample_enough_fuel : enough_fuel 1 Sample.youTrack.
Proof.
  split; [lia|]. intros i items.
  unfold Sample.youTrack. cbn [YouTrack.issues].
  intros [_ <-]%lookup_singleton_Some. cbn [length].
  rewrite Nat.Div0.div_0_l. lia.
Qed.

Lemma uniqueIssueIds_elem timeEntries i :
  i ∈ uniqueIssueIds timeEntries <->
  JS.nonempty i = true /\
  exists entry, entry ∈ timeEntries /\ TimeEntry.issueId entry = Some i.
Proof.
  unfold uniqueIssueIds. rewrite elem_of_getUniqueBy. split.
  - intros [Hn (x & Hx & E)]. split; [done|]. exists x. split; [|done].
    apply list_elem_of_In, List.filter_In in Hx as [Hx _]. by apply list_elem_of_In.
  - intros [Hn (x & Hx & E)]. split; [done|]. exists x. split; [|done].
    apply list_elem_of_In, List.filter_In. split; [by apply list_elem_of_In|].
    by rewrite E.
Qed.

Lemma console_banner options : console (banner options) = banner options.
Proof. unfold banner. by destruct (Options.dryRun options). Qed.

(** X15: an entry for an issue that the tracker does not have stops the
    run before the loop: the request for the work items of that issue
    fails, the run ends with the HTTP error, nothing was created, the
    tracker is as it was and no entry was reported, not even those of the
    issues that are there. *)
Theorem X15_sync_unknown_issue fuel now options clockifyApi yt
    dateRange entries timeEntries entry i :
  enough_fuel fuel yt ->
  getOptionDateRange now options = Ok dateRange ->
  getBillableEntries clockifyApi dateRange = Ok entries ->
  Array_map createTimeEntry entries = Ok timeEntries ->
  entry ∈ timeEntries -> TimeEntry.issueId entry = Some i ->
  JS.nonempty i = true -> YouTrack.issues yt !! i = None ->
  let run := sync fuel now options clockifyApi yt in
  run.2 = Throw HttpError /\ run.1.1 = yt /\ posts run.1.2 = [] /\
  console run.1.2 = banner options ++ [LogSyncing dateRange].
Proof.
  intros Hfuel Hrange Hentries Htime Hentry Hi Hn Hnone. cbn zeta.
  rewrite sync_banner, Hrange. cbn zeta. rewrite Hentries, Htime.
  destruct (Promise_all_index fuel (uniqueIssueIds timeEntries) yt)
    as (g & r & E & Hp & Hc & _).
  destruct (Promise_all_index_enough fuel (uniqueIssueIds timeEntries) yt Hfuel)
    as [g' E'].
  rewrite E in E'. injection E' as <- ->. rewrite E.
  destruct (Array_map (markers_of yt) (uniqueIssueIds timeEntries))
    as [pairs|e] eqn:Em.
  - destruct (Array_map_markers _ _ _ Em) as [Hall _].
    rewrite Forall_forall in Hall.
    destruct (Hall i) as [items Hitems]; [|congruence].
    apply uniqueIssueIds_elem. split; [done|]. by exists entry.
  - rewrite (Array_map_markers_error _ _ _ Em). cbn [fst snd].
    rewrite !posts_app, !console_app, Hp, Hc, console_banner.
    assert (posts (banner options) = []) as ->
      by (unfold banner; by destruct (Options.dryRun options)).
    done.
Qed.

Lemma X15_sync_unknown_issue_witness :
  (sync 1 Sample.now options_default Sample2.with_elsewhere Sample.youTrack).2
  = Throw HttpError /\
  (sync 1 Sample.now options_default Sample2.with_elsewhere Sample.youTrack).1.1
  = Sample.youTrack /\
  posts (sync 1 Sample.now options_default Sample2.with_elsewhere Sample.youTrack).1.2
  = [] /\
  console (sync 1 Sample.now options_default Sample2.with_elsewhere Sample.youTrack).1.2
  = banner options_default ++ [LogSyncing Sample.range].
Proof.
  assert (exists entry, createTimeEntry Sample2.elsewhere = Ok entry /\
                        TimeEntry.issueId entry = Some "ZZ-9") as (entry & E & Hi)
    by (eexists; split; [by vm_compute | reflexivity]).
  assert (exists entry0, createTimeEntry Sample.billableEntry = Ok entry0)
    as (entry0 & E0) by (eexists; by vm_compute).
  apply (X15_sync_unknown_issue 1 Sample.now options_default Sample2.with_elsewhere
           Sample.youTrack Sample.range [Sample.billableEntry; Sample2.elsewhere]
           [entry0; entry] entry "ZZ-9" Sample_enough_fuel
           getOptionDateRange_sample eq_refl).
  - cbn [Array_map]. by rewrite E0, E.
  - by apply list_elem_of_further, list_elem_of_here.
  - exact Hi.
  - reflexivity.
  - by vm_compute.
Defined.

Lemma sync_entry_reports options workTypes idx entry yt :
  (sync_entry options workTypes idx entry yt).2 = Ok tt ->
  exists line,
    console (sync_entry options workTypes idx entry yt).1.2 = [line] /\
    reports entry line.
Proof.
  destruct (sync_entry_outcomes options workTypes idx entry yt);
    cbn [fst snd]; try done; intros _; eexists; (split; [reflexivity|]);
    exists d; (split; [done|]).
  - by left.
  - right. exists i. eauto.
  - right. exists i. eauto.
  - right. exists i. eauto.
Qed.

Lemma for_of_reports options workTypes idx entries yt :
  (for_of entries (sync_entry options workTypes idx) yt).2 = Ok tt ->
  Forall2 reports entries
    (console (for_of entries (sync_entry options workTypes idx) yt).1.2).
Proof.
  revert yt. induction entries as [|e es IH]; intros yt; [constructor|].
  rewrite for_of_cons.
  pose proof (sync_entry_reports options workTypes idx e yt) as H1.
  destruct (sync_entry options workTypes idx e yt) as [[yt1 t1] [[]|err]];
    [|done].
  destruct (H1 eq_refl) as (line & Hline & Hrep). cbn [fst snd] in Hline.
  specialize (IH yt1). destruct (for_of es _ yt1) as [[yt2 t2] r2].
  cbn [fst snd] in *. intros Hr. rewrite console_app, Hline.
  constructor; auto.
Qed.

(** X16: a run that comes to its end has logged, after its header, one
    line for each billable entry of the answer, in the order of the
    answer, and the line of an entry gives its description and its start
    date, with the issue if the entry has one. *)
Theorem X16_sync_one_line_per_entry fuel now options clockifyApi yt
    dateRange entries :
  getOptionDateRange now options = Ok dateRange ->
  getBillableEntries clockifyApi dateRange = Ok entries ->
  (sync fuel now options clockifyApi yt).2 = Ok tt ->
  exists timeEntries lines,
    Array_map createTimeEntry entries = Ok timeEntries /\
    console (sync fuel now options clockifyApi yt).1.2
    = banner options ++ LogSyncing dateRange :: lines /\
    Forall2 reports timeEntries lines.
Proof.
  intros Hrange Hentries. rewrite sync_banner, Hrange. cbn zeta. rewrite Hentries.
  destruct (Array_map createTimeEntry entries) as [timeEntries|e]; [|done].
  destruct (Promise_all_index fuel (uniqueIssueIds timeEntries) yt)
    as (g & r & -> & _ & Hc & _).
  destruct r as [pairs|e]; [|done].
  pose proof (for_of_reports options (workTypes_reduce (YouTrack.workItemTypes yt))
                (Map_of pairs) timeEntries yt) as H.
  destruct (for_of timeEntries _ yt) as [[yt2 t] r2]. cbn [fst snd] in *.
  intros Hr. exists timeEntries, (console t). split; [done|].
  split; [|by apply H].
  by rewrite !console_app, Hc, console_banner.
Qed.

Lemma X16_sync_one_line_per_entry_witness :
  exists timeEntries lines,
    Array_map createTimeEntry [Sample.billableEntry] = Ok timeEntries /\
    console (sync 1 Sample.now options_default Sample.clockifyApi Sample.youTrack).1.2
    = banner options_default ++ LogSyncing Sample.range :: lines /\
    Forall2 reports timeEntries lines.
Proof.
  apply (X16_sync_one_line_per_entry 1 Sample.now options_default Sample.clockifyApi
           Sample.youTrack Sample.range [Sample.billableEntry]
           getOptionDateRange_sample eq_refl).
  by vm_compute.
Defined.

(** What the loop reads of the tracker: which issues are there, and which
    create requests are refused. *)
Lemma sync_entry_snapshot options workTypes idx entry yt1 yt2 :
  (forall i, is_Some (YouTrack.issues yt1 !! i) <-> is_Some (YouTrack.issues yt2 !! i)) ->
  YouTrack.refuses yt1 = YouTrack.refuses yt2 ->
  (sync_entry options workTypes idx entry yt1).1.2
  = (sync_entry options workTypes idx entry yt2).1.2 /\
  (sync_entry options workTypes idx entry yt1).2
  = (sync_entry options workTypes idx entry yt2).2 /\
  (forall i,
     is_Some (YouTrack.issues (sync_entry options workTypes idx entry yt1).1.1 !! i) <->
     is_Some (YouTrack.issues (sync_entry options workTypes idx entry yt2).1.1 !! i)) /\
  YouTrack.refuses (sync_entry options workTypes idx entry yt1).1.1
  = YouTrack.refuses (sync_entry options workTypes idx entry yt2).1.1.
Proof.
  intros Hdom Hrefuses.
  destruct (TimeEntry.startDate entry) as [d|] eqn:Hd;
    [|by rewrite !sync_entry_no_date by done].
  destruct (JS.truthy (TimeEntry.issueId entry)) eqn:Ht;
    [|by rewrite !(sync_entry_no_issue _ _ _ _ d) by done].
  destruct (TimeEntry.issueId entry) as [i|] eqn:Hi; [|done]. simpl in Ht.
  destruct (idx !! i) as [s|] eqn:Hx;
    [|by rewrite !(sync_entry_not_indexed _ _ _ _ d i) by done].
  destruct (decide (TimeEntry.id entry ∈ s)) as [Hin|Hin];
    [by rewrite !(sync_entry_exists _ _ _ _ d i s) by done|].
  destruct (Options.dryRun options) eqn:Hdry;
    [by rewrite !(sync_entry_dry _ _ _ _ d i s) by done|].
  rewrite !(sync_entry_live _ _ _ _ d i s) by done. cbn zeta.
  destruct (test_marker _); [|done].
  pose proof (Hdom i) as Hdi. rewrite Hrefuses.
  destruct (YouTrack.issues yt1 !! i) as [items1|] eqn:E1;
    destruct (YouTrack.issues yt2 !! i) as [items2|] eqn:E2.
  - destruct (YouTrack.refuses yt2 i _); [done|].
    cbn [fst snd]. repeat split; try done;
      unfold with_workItem; cbn [YouTrack.issues];
      (destruct (decide (i = i0)) as [<-|Hne];
       [rewrite !lookup_insert_eq; by eexists
       |rewrite !lookup_insert_ne by done; apply Hdom]).
  - destruct Hdi as [Hdi _]. by destruct Hdi.
  - destruct Hdi as [_ Hdi]. by destruct Hdi.
  - done.
Qed.

Lemma for_of_snapshot options workTypes idx entries yt1 yt2 :
  (forall i, is_Some (YouTrack.issues yt1 !! i) <-> is_Some (YouTrack.issues yt2 !! i)) ->
  YouTrack.refuses yt1 = YouTrack.refuses yt2 ->
  (for_of entries (sync_entry options workTypes idx) yt1).1.2
  = (for_of entries (sync_entry options workTypes idx) yt2).1.2 /\
  (for_of entries (sync_entry options workTypes idx) yt1).2
  = (for_of entries (sync_entry options workTypes idx) yt2).2.
Proof.
  revert yt1 yt2. induction entries as [|e es IH]; intros yt1 yt2 Hdom Href; [done|].
  rewrite !for_of_cons.
  destruct (sync_entry_snapshot options workTypes idx e yt1 yt2 Hdom Href)
    as (Ht & Hr & Hdom' & Href').
  destruct (sync_entry options workTypes idx e yt1) as [[yt1' t1] r1].
  destruct (sync_entry options workTypes idx e yt2) as [[yt2' t2] r2].
  cbn [fst snd] in *. subst t2 r2.
  destruct r1 as [[]|err]; [|done].
  destruct (IH yt1' yt2' Hdom' Href') as [Ht' Hr'].
  destruct (for_of es _ yt1') as [[yt1'' t1'] r1'].
  destruct (for_of es _ yt2') as [[yt2'' t2'] r2'].
  cbn [fst snd] in *. by subst.
Qed.

Lemma for_of_issues options workTypes idx entries yt i :
  is_Some (YouTrack.issues yt !! i) <->
  is_Some (YouTrack.issues (for_of entries (sync_entry options workTypes idx) yt).1.1 !! i).
Proof.
  split; [|apply for_of_same_issues].
  intros [items Hitems].
  destruct (for_of_extends options workTypes idx entries yt) as (_ & _ & H).
  destruct (H i items Hitems) as [more ->]. by eexists.
Qed.

Lemma Array_map_app {A B} (f : A -> result B) xs ys xs' ys' :
  Array_map f xs = Ok xs' -> Array_map f ys = Ok ys' ->
  Array_map f (xs ++ ys) = Ok (xs' ++ ys').
Proof.
  rewrite !Array_map_Forall2. apply Forall2_app.
Qed.

Lemma Array_from_Set_seen seen xs :
  (forall x, x ∈ xs -> x ∈ seen) -> Array_from_Set seen xs = [].
Proof.
  intros H. destruct (Array_from_Set seen xs) as [|k ks] eqn:E; [done|].
  assert (k ∈ Array_from_Set seen xs) as Hk by (rewrite E; by left).
  apply elem_of_Array_from_Set in Hk as [Hk Hs]. destruct Hs. by apply H.
Qed.

Lemma uniqueIssueIds_twice timeEntries :
  uniqueIssueIds (timeEntries ++ timeEntries) = uniqueIssueIds timeEntries.
Proof.
  unfold uniqueIssueIds, getUniqueBy, filter_Boolean.
  rewrite List.filter_app, fmap_app, omap_app, Array_from_Set_app.
  rewrite (Array_from_Set_seen (_ ∪ _)); [by rewrite app_nil_r|].
  intros x Hx. set_solver.
Qed.

(** X18: the index of a run is a snapshot: it is built before the loop and
    the loop does not add to it what it creates. An answer that lists its
    entries a second time therefore has every create call of the run made
    a second time, and the run still comes to its end. *)
Theorem X18_sync_listed_twice fuel now options
    (clockifyApi clockifyApi2 : Clockify) yt dateRange entries :
  getOptionDateRange now options = Ok dateRange ->
  getBillableEntries clockifyApi dateRange = Ok entries ->
  getBillableEntries clockifyApi2 dateRange = Ok (entries ++ entries) ->
  (sync fuel now options clockifyApi yt).2 = Ok tt ->
  (sync fuel now options clockifyApi2 yt).2 = Ok tt /\
  posts (sync fuel now options clockifyApi2 yt).1.2
  = posts (sync fuel now options clockifyApi yt).1.2
    ++ posts (sync fuel now options clockifyApi yt).1.2.
Proof.
  intros Hrange H1 H2. rewrite !sync_posts, !sync_banner, Hrange. cbn zeta.
  cbn [mbind result_bind]. rewrite H1, H2.
  destruct (Array_map createTimeEntry entries) as [timeEntries|e] eqn:Et; [|done].
  rewrite (Array_map_app _ _ _ _ _ Et Et), uniqueIssueIds_twice.
  destruct (Promise_all_index fuel (uniqueIssueIds timeEntries) yt)
    as (g & r & -> & _ & _ & _).
  destruct r as [pairs|e]; [|done].
  rewrite for_of_app.
  set (body := sync_entry options _ _).
  pose proof (fun i => for_of_issues options
                (workTypes_reduce (YouTrack.workItemTypes yt)) (Map_of pairs)
                timeEntries yt i) as Hdom.
  fold body in Hdom.
  destruct (for_of timeEntries body yt) as [[yt1 t1] r1] eqn:E1.
  cbn [fst snd] in *. intros ->.
  pose proof (for_of_extends options (workTypes_reduce (YouTrack.workItemTypes yt))
                (Map_of pairs) timeEntries yt) as (_ & Href & _).
  fold body in Href. rewrite E1 in Href. cbn [fst] in Href.
  destruct (for_of_snapshot options (workTypes_reduce (YouTrack.workItemTypes yt))
              (Map_of pairs) timeEntries yt yt1 Hdom (eq_sym Href)) as [Ht Hr].
  fold body in Ht, Hr. rewrite E1 in Ht, Hr.
  destruct (for_of timeEntries body yt1) as [[yt2 t2] r2].
  cbn [fst snd] in *. subst. by rewrite posts_app.
Qed.

Lemma X18_sync_listed_twice_witness :
  (sync 1 Sample.now options_default Sample2.twice Sample.youTrack).2 = Ok tt /\
  posts (sync 1 Sample.now options_default Sample2.twice Sample.youTrack).1.2
  = posts (sync 1 Sample.now options_default Sample.clockifyApi Sample.youTrack).1.2
    ++ posts (sync 1 Sample.now options_default Sample.clockifyApi Sample.youTrack).1.2.
Proof.
  apply (X18_sync_listed_twice 1 Sample.now options_default Sample.clockifyApi
           Sample2.twice Sample.youTrack Sample.range [Sample.billableEntry]
           getOptionDateRange_sample eq_refl eq_refl).
  by vm_compute.
Defined.





(** ** Numbers that a double holds exactly *)

Lemma pow2_add x y : (Number.pow2 (x + y) == Number.pow2 x * Number.pow2 y)%Q.
Proof. by apply Qpower_plus. Qed.

Lemma pow2_Z n : 0 <= n -> (Number.pow2 n == inject_Z (2 ^ n))%Q.
Proof. intros Hn. unfold Number.pow2. by rewrite Zpower_Qpower. Qed.

Lemma pow2_lt_inv x y : (Number.pow2 x < Number.pow2 y)%Q -> x < y.
Proof. intros H. by apply (Qpower_lt_compat_l_inv 2). Qed.

(** The binade of a positive rational is unique. *)
Lemma binade_unique (q : Q) E F :
  (Number.pow2 E <= q)%Q -> (q < Number.pow2 (E + 1))%Q ->
  (Number.pow2 F <= q)%Q -> (q < Number.pow2 (F + 1))%Q -> E = F.
Proof.
  intros H1 H2 H3 H4.
  pose proof (pow2_lt_inv _ _ (Qle_lt_trans _ _ _ H1 H4)).
  pose proof (pow2_lt_inv _ _ (Qle_lt_trans _ _ _ H3 H2)). lia.
Qed.

Lemma Qmake_mult (a : Z) (d : positive) (x : Q) :
  (a # d == x)%Q <-> (inject_Z a == x * inject_Z (Zpos d))%Q.
Proof.
  rewrite Qmake_Qdiv. split; intros H.
  - rewrite <- H. field. done.
  - rewrite H. field. done.
Qed.

Lemma Qmake_le_l (a : Z) (d : positive) (x : Q) :
  (x <= a # d)%Q <-> (x * inject_Z (Zpos d) <= inject_Z a)%Q.
Proof.
  rewrite Qmake_Qdiv. split; intros H.
  - apply (Qmult_le_r _ _ (/ inject_Z (Z.pos d))); [by apply Qinv_lt_0_compat|].
    rewrite <- Qmult_assoc, Qmult_inv_r, Qmult_1_r; done.
  - apply (Qmult_le_r _ _ (/ inject_Z (Z.pos d))) in H; [|by apply Qinv_lt_0_compat].
    rewrite <- Qmult_assoc, Qmult_inv_r, Qmult_1_r in H; done.
Qed.

Lemma Qmake_lt_r (a : Z) (d : positive) (x : Q) :
  (a # d < x)%Q <-> (inject_Z a < x * inject_Z (Zpos d))%Q.
Proof.
  rewrite Qmake_Qdiv. split; intros H.
  - apply (Qmult_lt_r _ _ (/ inject_Z (Z.pos d))); [by apply Qinv_lt_0_compat|].
    rewrite <- (Qmult_assoc x), Qmult_inv_r, Qmult_1_r; done.
  - apply (Qmult_lt_r _ _ (/ inject_Z (Z.pos d))) in H; [|by apply Qinv_lt_0_compat].
    rewrite <- (Qmult_assoc x), Qmult_inv_r, Qmult_1_r in H; done.
Qed.

(** [floor_log2] finds the binade. *)
Lemma floor_log2_spec a d :
  0 < a ->
  (Number.pow2 (Number.floor_log2 a d) <= a # d)%Q /\
  (a # d < Number.pow2 (Number.floor_log2 a d + 1))%Q.
Proof.
  intros Ha. unfold Number.floor_log2.
  set (la := Z.log2 a). set (ld := Z.log2 (Z.pos d)).
  destruct (Z.log2_spec a Ha) as [Ha1 Ha2]. fold la in Ha1, Ha2.
  destruct (Z.log2_spec (Z.pos d) ltac:(done)) as [Hd1 Hd2]. fold ld in Hd1, Hd2.
  assert (0 <= la) as Hla by apply Z.log2_nonneg.
  assert (0 <= ld) as Hld by apply Z.log2_nonneg.
  rewrite Zle_Qle, <- pow2_Z in Ha1, Hd1 by done.
  rewrite Zlt_Qlt, <- pow2_Z in Ha2, Hd2 by (unfold Z.succ; lia).
  unfold Z.succ in *.
  destruct (Qle_bool _ _) eqn:Hb.
  - apply Qle_bool_iff in Hb. split; [done|].
    apply Qmake_lt_r. eapply Qlt_le_trans; [exact Ha2|].
    replace (la + 1) with ((la - ld + 1) + ld) by lia. rewrite pow2_add.
    apply Qmult_le_l; [apply pow2_pos | done].
  - assert (a # d < Number.pow2 (la - ld))%Q as Hlt.
    { apply Qnot_le_lt. intros H%Qle_bool_iff. congruence. }
    split; [|by replace (la - ld - 1 + 1) with (la - ld) by lia].
    apply Qmake_le_l. eapply Qle_trans; [|exact Ha1].
    replace la with ((la - ld - 1) + (ld + 1)) at 2 by lia. rewrite pow2_add.
    apply Qmult_le_l; [apply pow2_pos | by apply Qlt_le_weak].
Qed.

Lemma dyadic_integers (n : Z) (d : positive) M j :
  0 <= j -> (n # d == inject_Z M * Number.pow2 (- j))%Q -> n * 2 ^ j = M * Z.pos d.
Proof.
  intros Hj H. apply Qmake_mult in H.
  apply inject_Z_injective. rewrite !inject_Z_mult, <- pow2_Z by done.
  rewrite H. rewrite <- !Qmult_assoc, (Qmult_comm (inject_Z (Z.pos d))).
  rewrite (Qmult_assoc (Number.pow2 (- j))), <- pow2_add.
  replace (- j + j) with 0 by lia. unfold Number.pow2 at 1. simpl. ring.
Qed.

Lemma dyadic_binade M j :
  0 < M ->
  (Number.pow2 (Z.log2 M - j) <= inject_Z M * Number.pow2 (- j))%Q /\
  (inject_Z M * Number.pow2 (- j) < Number.pow2 (Z.log2 M - j + 1))%Q.
Proof.
  intros HM. destruct (Z.log2_spec M HM) as [H1 H2].
  pose proof (Z.log2_nonneg M) as HL.
  rewrite Zle_Qle, <- pow2_Z in H1 by done.
  rewrite Zlt_Qlt, <- pow2_Z in H2 by (unfold Z.succ; lia). unfold Z.succ in H2.
  split.
  - replace (Z.log2 M - j) with (Z.log2 M + - j) by lia. rewrite pow2_add.
    apply Qmult_le_r; [apply pow2_pos | done].
  - replace (Z.log2 M - j + 1) with (Z.log2 M + 1 + - j) by lia. rewrite pow2_add.
    apply Qmult_lt_r; [apply pow2_pos | done].
Qed.

(** A rational [M / 2^j] with [M] of at most 53 bits is a double: the
    Number for it is the rational itself. *)
Lemma of_Q_dyadic q M j :
  0 <= j <= 1022 -> M <> 0 -> Z.abs M < 2 ^ 53 ->
  (q == inject_Z M * Number.pow2 (- j))%Q ->
  Number.of_Q q = Qred q.
Proof.
  intros Hj HM Hbound Hq. destruct q as [n d].
  pose proof (dyadic_integers n d M j ltac:(lia) Hq) as Hint.
  assert (0 < 2 ^ j) as Hpow by (apply Z.pow_pos_nonneg; lia).
  assert (Z.sgn n = Z.sgn M) as Hsgn by nia.
  assert (Z.abs n * 2 ^ j = Z.abs M * Z.pos d) as Habs by nia.
  assert (0 < Z.abs n) as Ha by nia.
  assert (0 < Z.abs M) as HaM by lia.
  set (L := Z.log2 (Z.abs M)).
  assert (0 <= L) as HL0 by apply Z.log2_nonneg.
  assert (L < 53) as HL by (by apply Z.log2_lt_pow2).
  assert (Number.floor_log2 (Z.abs n) d = L - j) as HE.
  { destruct (floor_log2_spec (Z.abs n) d Ha) as [E1 E2].
    destruct (dyadic_binade (Z.abs M) j HaM) as [F1 F2]. fold L in F1, F2.
    assert ((Z.abs n # d) == inject_Z (Z.abs M) * Number.pow2 (- j))%Q as Hq'.
    { apply Qmake_mult.
      rewrite <- (Qmult_assoc _ (Number.pow2 (- j))),
              (Qmult_comm (Number.pow2 (- j))), Qmult_assoc.
      rewrite <- inject_Z_mult, <- Habs, inject_Z_mult, <- pow2_Z by lia.
      rewrite <- Qmult_assoc, <- pow2_add.
      replace (j + - j) with 0 by lia. unfold Number.pow2. simpl. ring. }
    rewrite <- Hq' in F1, F2. by apply (binade_unique (Z.abs n # d)). }
  unfold Number.of_Q. cbn [Qnum Qden].
  assert ((Z.abs n =? 0) = false) as -> by (apply Z.eqb_neq; lia).
  rewrite HE. rewrite Z.max_l by lia.
  set (k := L - j - 52).
  assert (Number.scaled_round (Z.abs n) d k = Z.abs M * 2 ^ (52 - L)) as ->.
  { unfold Number.scaled_round.
    assert (0 < 2 ^ (52 - L)) as Hp by (apply Z.pow_pos_nonneg; lia).
    destruct (0 <=? k) eqn:Hk.
    - apply Z.leb_le in Hk. assert (j = 0) as -> by lia. assert (L = 52) as HL52 by lia.
      replace k with 0 by lia. rewrite HL52. change (2 ^ (52 - 52)) with 1.
      change (2 ^ 0) with 1 in *. rewrite !Z.mul_1_r in *. rewrite Habs.
      rewrite Z.div_mul, Z.mod_mul by done. simpl.
      by destruct d.
    - apply Z.leb_gt in Hk.
      assert (Z.abs n * 2 ^ (- k) = Z.abs M * 2 ^ (52 - L) * Z.pos d) as ->.
      { replace (- k) with (j + (52 - L)) by lia.
        rewrite Z.pow_add_r by lia. rewrite Z.mul_assoc, Habs. ring. }
      rewrite Z.div_mul, Z.mod_mul by done. simpl. by destruct d. }
  apply Qred_complete. rewrite Hq, Hsgn.
  replace (Z.sgn M * (Z.abs M * 2 ^ (52 - L))) with (M * 2 ^ (52 - L)) by nia.
  rewrite inject_Z_mult, <- pow2_Z by lia.
  rewrite <- Qmult_assoc, <- pow2_add.
  by replace (52 - L + k) with (- j) by lia.
Qed.

Lemma Qred_inject_Z m : Qred (inject_Z m) = inject_Z m.
Proof.
  unfold Qred, inject_Z.
  pose proof (Z.ggcd_gcd m 1) as Hg. pose proof (Z.ggcd_correct_divisors m 1) as Hd.
  destruct (Z.ggcd m 1) as [g [q1 q2]]. simpl in *.
  rewrite Z.gcd_1_r in Hg. subst g. destruct Hd as [H1 H2].
  assert (q1 = m) as -> by lia. assert (q2 = 1) as -> by lia. done.
Qed.

(** Whole numbers below 2^53 are doubles. *)
Lemma of_Q_integer (n : Z) (d : positive) (m : Z) :
  Z.abs m < 2 ^ 53 -> n = m * Z.pos d -> Number.of_Q (n # d) = inject_Z m.
Proof.
  intros Hm ->. destruct (decide (m = 0)) as [->|Hne]; [by rewrite Z.mul_0_l|].
  rewrite (of_Q_dyadic _ m 0); [| lia | done | done |].
  - rewrite <- (Qred_complete (inject_Z m)); [apply Qred_inject_Z|].
    unfold Qeq, inject_Z. simpl. lia.
  - unfold Number.pow2. simpl. unfold Qeq. simpl. lia.
Qed.

(** *** The Number depends on the real only *)

Lemma scaled_round_scale g a d a' d' k :
  0 < g -> a' = g * a -> Z.pos d' = g * Z.pos d ->
  Number.scaled_round a' d' k = Number.scaled_round a d k.
Proof.
  intros Hg -> Hd. unfold Number.scaled_round. rewrite Hd.
  set (num := if 0 <=? k then a else a * 2 ^ (- k)).
  set (den := if 0 <=? k then Z.pos d * 2 ^ k else Z.pos d).
  assert ((if 0 <=? k then g * a else g * a * 2 ^ (- k)) = g * num) as ->
    by (subst num; destruct (0 <=? k); ring).
  assert ((if 0 <=? k then g * Z.pos d * 2 ^ k else g * Z.pos d) = g * den) as ->
    by (subst den; destruct (0 <=? k); ring).
  assert (0 < den) as Hden.
  { subst den. destruct (0 <=? k) eqn:Hk; [|done]. apply Z.leb_le in Hk.
    pose proof (Z.pow_pos_nonneg 2 k). nia. }
  rewrite Z.div_mul_cancel_l, Z.mul_mod_distr_l by lia.
  cbv zeta.
  assert ((2 * (g * (num mod den)) <? g * den) = (2 * (num mod den) <? den)) as ->.
  { destruct (Z.ltb_spec (2 * (num mod den)) den);
      [apply Z.ltb_lt | apply Z.ltb_ge]; nia. }
  assert ((g * den <? 2 * (g * (num mod den))) = (den <? 2 * (num mod den))) as ->.
  { destruct (Z.ltb_spec den (2 * (num mod den)));
      [apply Z.ltb_lt | apply Z.ltb_ge]; nia. }
  done.
Qed.

Lemma floor_log2_proper a d a' d' :
  0 < a -> 0 < a' -> (a # d == a' # d')%Q ->
  Number.floor_log2 a d = Number.floor_log2 a' d'.
Proof.
  intros Ha Ha' H.
  destruct (floor_log2_spec a d Ha) as [E1 E2].
  destruct (floor_log2_spec a' d' Ha') as [F1 F2].
  rewrite <- H in F1, F2. by apply (binade_unique (a # d)).
Qed.

Lemma of_Q_Qred q : Number.of_Q q = Number.of_Q (Qred q).
Proof.
  destruct q as [n d]. unfold Qred.
  pose proof (Z.ggcd_gcd n (Z.pos d)) as Hg.
  pose proof (Z.ggcd_correct_divisors n (Z.pos d)) as Hdiv.
  pose proof (Z.gcd_nonneg n (Z.pos d)) as Hnonneg.
  destruct (Z.ggcd n (Z.pos d)) as [g [q1 q2]]. cbn [fst snd] in *.
  rewrite <- Hg in Hnonneg. destruct Hdiv as [Hn Hd].
  pose proof (Pos2Z.is_pos d) as Hdpos.
  assert (0 < g) as Hgpos by (destruct (Z.eq_dec g 0) as [->|]; lia).
  assert (0 < q2) as Hq2 by nia.
  unfold Number.of_Q. cbn [Qnum Qden].
  destruct (Z.eqb_spec (Z.abs q1) 0) as [H0|H0].
  { assert ((Z.abs n =? 0) = true) as -> by (apply Z.eqb_eq; nia). done. }
  assert ((Z.abs n =? 0) = false) as -> by (apply Z.eqb_neq; nia).
  assert (Z.abs n = g * Z.abs q1) as Habs by nia.
  assert (Z.pos d = g * Z.pos (Z.to_pos q2)) as Hd' by (rewrite Z2Pos.id; lia).
  assert (Number.floor_log2 (Z.abs n) d
          = Number.floor_log2 (Z.abs q1) (Z.to_pos q2)) as ->.
  { apply floor_log2_proper; [lia..|]. unfold Qeq. cbn [Qnum Qden].
    rewrite Habs, Hd'. ring. }
  rewrite (scaled_round_scale g (Z.abs q1) (Z.to_pos q2) (Z.abs n) d _ Hgpos Habs Hd').
  assert (Z.sgn n = Z.sgn q1) as -> by nia. done.
Qed.

(** Equal reals have the same Number. *)
Lemma of_Q_proper q q' : (q == q')%Q -> Number.of_Q q = Number.of_Q q'.
Proof.
  intros H. by rewrite (of_Q_Qred q), (of_Q_Qred q'), (Qred_complete _ _ H).
Qed.

Example Number_tenth :
  Number.of_Q (1 # 10) = (3602879701896397 # 36028797018963968)%Q.
Proof. by vm_compute. Qed.

Example Number_ties_to_even :
  Number.of_Q (inject_Z 9007199254740993) = inject_Z 9007199254740992 /\
  Number.of_Q (inject_Z 9007199254740995) = inject_Z 9007199254740996.
Proof. by vm_compute. Qed.

Example Duration_second :
  Duration_total_minutes "PT1S" = Ok (4803839602528529 # 288230376151711744)%Q.
Proof. by vm_compute. Qed.

Example Duration_too_long :
  Duration_total_minutes "PT9007199254740993M" = Throw RangeError /\
  Duration_total_minutes "PT9007199254740992S" = Throw RangeError /\
  is_ok (Duration_total_minutes "PT9007199254740991S") = true.
Proof. by vm_compute. Qed.
(** *** The Number for a real is a double nearest to it *)

Lemma round_half num den :
  0 <= num -> 0 < den ->
  let f := num / den in
  let r := 2 * (num mod den) in
  let m := if r <? den then f
           else if den <? r then f + 1
           else if Z.even f then f else f + 1 in
  2 * Z.abs (num - m * den) <= den /\ f <= m <= f + 1.
Proof.
  intros Hnum Hden. cbv zeta.
  pose proof (Z.div_mod num den ltac:(lia)) as Hdiv.
  pose proof (Z.mod_pos_bound num den Hden) as Hmod.
  destruct (Z.ltb_spec (2 * (num mod den)) den);
    [|destruct (Z.ltb_spec den (2 * (num mod den))); [|destruct (Z.even _)]];
    split; nia.
Qed.

Lemma pow2_half k : (Number.pow2 (k - 1) == (1 # 2) * Number.pow2 k)%Q.
Proof.
  replace (k - 1) with (-1 + k) by lia. rewrite pow2_add. by vm_compute.
Qed.

Lemma pow2_cancel k : (Number.pow2 (- k) * Number.pow2 k == 1)%Q.
Proof. rewrite <- pow2_add. by replace (- k + k) with 0 by lia. Qed.

(** [scaled_round] is within a half of the scaled rational, and between
    its floor and the next integer. *)
Lemma scaled_round_spec a d k :
  0 <= a ->
  exists num den,
    0 <= num /\ 0 < den /\
    (num # Z.to_pos den == (a # d) * Number.pow2 (- k))%Q /\
    2 * Z.abs (num - Number.scaled_round a d k * den) <= den /\
    num / den <= Number.scaled_round a d k <= num / den + 1.
Proof.
  intros Ha. unfold Number.scaled_round.
  set (num := if 0 <=? k then a else a * 2 ^ (- k)).
  set (den := if 0 <=? k then Z.pos d * 2 ^ k else Z.pos d).
  assert (0 <= num) as Hnum.
  { subst num. destruct (0 <=? k) eqn:Hk; [done|]. apply Z.leb_gt in Hk.
    pose proof (Z.pow_pos_nonneg 2 (- k)). nia. }
  assert (0 < den) as Hden.
  { subst den. destruct (0 <=? k) eqn:Hk; [|done]. apply Z.leb_le in Hk.
    pose proof (Z.pow_pos_nonneg 2 k). nia. }
  exists num, den. split; [done|]. split; [done|].
  split; [|apply (round_half num den Hnum Hden)].
  apply Qmake_mult. rewrite Z2Pos.id by done.
  assert ((a # d) * inject_Z (Z.pos d) == inject_Z a)%Q as Had
    by (symmetry; apply (proj1 (Qmake_mult a d (a # d))); reflexivity).
  subst num den. destruct (0 <=? k) eqn:Hk.
  - apply Z.leb_le in Hk. rewrite inject_Z_mult, <- pow2_Z by done.
    transitivity ((a # d) * inject_Z (Z.pos d)
                  * (Number.pow2 (- k) * Number.pow2 k))%Q; [|ring].
    by rewrite pow2_cancel, Qmult_1_r, Had.
  - apply Z.leb_gt in Hk. rewrite inject_Z_mult, <- pow2_Z by lia.
    rewrite <- Had. ring.
Qed.

Lemma Qabs_half num den m :
  0 < den -> 2 * Z.abs (num - m * den) <= den ->
  (Qabs ((num # Z.to_pos den) - inject_Z m) <= 1 # 2)%Q.
Proof.
  intros Hden H. apply Qabs_Qle_condition.
  unfold Qle, Qminus, Qplus, Qopp, inject_Z. cbn [Qnum Qden].
  rewrite !Pos2Z.inj_mul, Z2Pos.id by done. split; lia.
Qed.

(** The rounding of a rational that is not negative: the result is a
    multiple [m * 2^k] of the unit of its binade, with [m] of at most 53
    bits (or 2^53, the next binade), nearest to the rational. *)
Lemma scaled_round_nearest a d :
  0 < a ->
  let k := Z.max (Number.floor_log2 a d) (-1022) - 52 in
  let m := Number.scaled_round a d k in
  0 <= m <= 2 ^ 53 /\
  (Qabs ((a # d) - inject_Z m * Number.pow2 k) <= Number.pow2 (k - 1))%Q.
Proof.
  intros Ha. cbv zeta.
  set (k := Z.max (Number.floor_log2 a d) (-1022) - 52).
  destruct (scaled_round_spec a d k ltac:(lia))
    as (num & den & Hnum & Hden & Hq & Hhalf & Hlo & Hhi).
  set (m := Number.scaled_round a d k) in *.
  split.
  - split; [pose proof (Z.div_pos num den Hnum Hden); lia|].
    assert (num / den < 2 ^ 53); [|lia].
    apply Z.div_lt_upper_bound; [done|].
    destruct (floor_log2_spec a d Ha) as [_ Hup].
    assert (num # Z.to_pos den < inject_Z (2 ^ 53))%Q as Hlt.
    { rewrite Hq, <- pow2_Z by done.
      apply (Qmult_lt_r _ _ (Number.pow2 k)); [apply pow2_pos|].
      rewrite <- Qmult_assoc, pow2_cancel, Qmult_1_r, <- pow2_add.
      eapply Qlt_le_trans; [exact Hup|].
      apply Qpower_le_compat_l; [subst k; lia | done]. }
    unfold Qlt, inject_Z in Hlt. cbn [Qnum Qden] in Hlt.
    rewrite Z2Pos.id in Hlt by done. lia.
  - assert ((a # d) - inject_Z m * Number.pow2 k
            == ((num # Z.to_pos den) - inject_Z m) * Number.pow2 k)%Q as ->.
    { rewrite Hq. unfold Qminus. rewrite Qmult_plus_distr_l.
      rewrite <- Qmult_assoc, pow2_cancel. ring. }
    rewrite Qabs_Qmult, (Qabs_pos (Number.pow2 k))
      by apply Qlt_le_weak, pow2_pos.
    rewrite pow2_half. apply Qmult_le_compat_r; [|apply Qlt_le_weak, pow2_pos].
    by apply Qabs_half.
Qed.

(** The Number for a real [q] is [m * 2^k] with [m] of at most 53 bits (or
    2^53), [k] the exponent of the unit of the binade of [q], and it is
    within half a unit of [q]. *)
Lemma of_Q_nearest q :
  Qnum q <> 0 ->
  let k := Z.max (Number.floor_log2 (Z.abs (Qnum q)) (Qden q)) (-1022) - 52 in
  exists m,
    Z.abs m <= 2 ^ 53 /\
    (Number.of_Q q == inject_Z m * Number.pow2 k)%Q /\
    (Qabs (q - Number.of_Q q) <= Number.pow2 (k - 1))%Q.
Proof.
  intros Hn. cbv zeta. destruct q as [n d]. cbn [Qnum Qden] in *.
  destruct (scaled_round_nearest (Z.abs n) d ltac:(lia)) as [Hm Hnear].
  set (k := Z.max (Number.floor_log2 (Z.abs n) d) (-1022) - 52) in *.
  set (m := Number.scaled_round (Z.abs n) d k) in *.
  assert (Number.of_Q (n # d) == inject_Z (Z.sgn n * m) * Number.pow2 k)%Q as Hof.
  { unfold Number.of_Q. cbn [Qnum Qden].
    assert ((Z.abs n =? 0) = false) as -> by (apply Z.eqb_neq; lia).
    apply Qred_correct. }
  exists (Z.sgn n * m). split; [nia|]. split; [exact Hof|].
  rewrite Hof.
  assert ((n # d) - inject_Z (Z.sgn n * m) * Number.pow2 k
          == inject_Z (Z.sgn n)
             * ((Z.abs n # d) - inject_Z m * Number.pow2 k))%Q as ->.
  { rewrite inject_Z_mult.
    assert (n # d == inject_Z (Z.sgn n) * (Z.abs n # d))%Q as ->; [|ring].
    unfold Qeq, Qmult, inject_Z. cbn [Qnum Qden]. nia. }
  rewrite Qabs_Qmult.
  assert (Qabs (inject_Z (Z.sgn n)) == 1)%Q as ->; [|by rewrite Qmult_1_l].
  destruct n; [done | by vm_compute..].
Qed.

(** * The reading of durations *)

(** ** Characters *)

Lemma digit_lower c : JS.is_digit c = true -> JS.lower_char c = c.
Proof. destruct c as [[] [] [] [] [] [] [] []]; by vm_compute. Qed.

Lemma separator_lower c :
  Temporal.is_decimal_separator c = true -> JS.lower_char c = c.
Proof. destruct c as [[] [] [] [] [] [] [] []]; by vm_compute. Qed.

Lemma separator_not_digit c :
  Temporal.is_decimal_separator c = true -> JS.is_digit c = false.
Proof. destruct c as [[] [] [] [] [] [] [] []]; by vm_compute. Qed.

Lemma designator_not_digit des c :
  JS.is_digit (JS.lower_char des) = false ->
  Temporal.designator des c = true -> JS.is_digit c = false.
Proof.
  intros Hdes H. destruct (JS.is_digit c) eqn:Hc; [|done].
  unfold Temporal.designator in H. rewrite (digit_lower c Hc) in H.
  apply Ascii.eqb_eq in H. congruence.
Qed.

Lemma designator_not_separator des c :
  Temporal.is_decimal_separator (JS.lower_char des) = false ->
  Temporal.designator des c = true -> Temporal.is_decimal_separator c = false.
Proof.
  intros Hdes H. destruct (Temporal.is_decimal_separator c) eqn:Hc; [|done].
  unfold Temporal.designator in H. rewrite (separator_lower c Hc) in H.
  apply Ascii.eqb_eq in H. congruence.
Qed.

Lemma designator_other des des' c :
  JS.lower_char des <> JS.lower_char des' ->
  Temporal.designator des' c = true -> Temporal.designator des c = false.
Proof.
  unfold Temporal.designator. intros Hne H. apply Ascii.eqb_eq in H.
  apply Ascii.eqb_neq. congruence.
Qed.

Lemma is_digits_spec ds :
  is_digits ds = true <->
  JS.nonempty ds = true /\ String_forall JS.is_digit ds = true.
Proof. unfold is_digits. apply andb_true_iff. Qed.

Lemma append_single a c r : (a +:+ String c "") +:+ r = a +:+ String c r.
Proof. by rewrite append_assoc. Qed.

Lemma append_fraction a sep fs c r :
  (a +:+ String sep (fs +:+ String c "")) +:+ r
  = a +:+ String sep (fs +:+ String c r).
Proof. by rewrite append_assoc, append_cons, append_single. Qed.

(** ** The components, from the text to the reading *)

Lemma date_component_written des ds c r :
  is_digits ds = true -> JS.is_digit c = false ->
  Temporal.designator des c = true ->
  Temporal.date_component des (ds +:+ String c r)
  = (Some (Temporal.digits_value ds), r).
Proof.
  intros [Hn Hd]%is_digits_spec Hc Hdes. unfold Temporal.date_component.
  rewrite (span_app _ ds (String c r) Hd Hc).
  destruct ds; [done|]. by rewrite Hdes.
Qed.

Lemma date_foreign_other des ds c r :
  String_forall JS.is_digit ds = true -> JS.is_digit c = false ->
  Temporal.designator des c = false ->
  date_foreign des (ds +:+ String c r).
Proof.
  intros Hd Hc Hdes. unfold date_foreign, Temporal.date_component.
  rewrite (span_app _ ds (String c r) Hd Hc).
  destruct ds; [done|]. by rewrite Hdes.
Qed.

Lemma date_foreign_empty des : date_foreign des "".
Proof. done. Qed.

Lemma date_foreign_part des des' txt v rest :
  JS.lower_char des <> JS.lower_char des' ->
  JS.is_digit (JS.lower_char des') = false ->
  date_part des' txt v -> date_foreign des rest -> date_foreign des (txt +:+ rest).
Proof.
  intros Hne Hdes' [|ds c [_ Hd]%is_digits_spec Hc] Hrest; [done|].
  rewrite append_single. apply date_foreign_other; [done| |].
  - by apply (designator_not_digit des').
  - by apply (designator_other des des').
Qed.

Lemma date_component_part des txt v rest :
  JS.is_digit (JS.lower_char des) = false ->
  date_part des txt v -> date_foreign des rest ->
  Temporal.date_component des (txt +:+ rest) = (v, rest).
Proof.
  intros Hdes [|ds c Hd Hc] Hrest; [done|].
  rewrite append_single. apply date_component_written; [done| |done].
  by apply (designator_not_digit des).
Qed.

Lemma time_component_written des unit_ns txt v rest :
  JS.is_digit (JS.lower_char des) = false ->
  Temporal.is_decimal_separator (JS.lower_char des) = false ->
  time_part des unit_ns txt v -> v <> None ->
  Temporal.time_component des unit_ns (txt +:+ rest) = (v, rest).
Proof.
  intros Hdes Hsep [|ds c Hds Hc|ds sep fs c Hds Hs Hfs Hlen Hc] Hv; [done| |].
  - apply is_digits_spec in Hds as [Hn Hd].
    rewrite append_single. unfold Temporal.time_component.
    rewrite (span_app _ ds (String c rest) Hd (designator_not_digit _ _ Hdes Hc)).
    destruct ds; [done|].
    by rewrite (designator_not_separator _ _ Hsep Hc), Hc.
  - apply is_digits_spec in Hds as [Hn Hd]. apply is_digits_spec in Hfs as [Hfn Hfd].
    rewrite append_fraction. unfold Temporal.time_component.
    rewrite (span_app _ ds (String sep (fs +:+ String c rest)) Hd
               (separator_not_digit _ Hs)).
    destruct ds; [done|]. rewrite Hs.
    rewrite (span_app _ fs (String c rest) Hfd (designator_not_digit _ _ Hdes Hc)).
    destruct fs; [done|]. rewrite Hc.
    by rewrite (proj2 (Nat.leb_le _ _) Hlen).
Qed.

Lemma time_foreign_empty des : time_foreign des "".
Proof. done. Qed.

Lemma time_foreign_part des des' unit_ns txt v rest :
  JS.lower_char des <> JS.lower_char des' ->
  JS.is_digit (JS.lower_char des') = false ->
  Temporal.is_decimal_separator (JS.lower_char des') = false ->
  time_part des' unit_ns txt v -> time_foreign des rest ->
  time_foreign des (txt +:+ rest).
Proof.
  intros Hne Hdes' Hsep' [|ds c Hds Hc|ds sep fs c Hds Hs Hfs Hlen Hc] Hrest u;
    [apply Hrest| |].
  - apply is_digits_spec in Hds as [Hn Hd].
    rewrite append_single. unfold Temporal.time_component.
    rewrite (span_app _ ds (String c rest) Hd (designator_not_digit _ _ Hdes' Hc)).
    destruct ds; [done|].
    by rewrite (designator_not_separator _ _ Hsep' Hc),
               (designator_other des des' c Hne Hc).
  - apply is_digits_spec in Hds as [Hn Hd]. apply is_digits_spec in Hfs as [Hfn Hfd].
    rewrite append_fraction. unfold Temporal.time_component.
    rewrite (span_app _ ds (String sep (fs +:+ String c rest)) Hd
               (separator_not_digit _ Hs)).
    destruct ds; [done|]. rewrite Hs.
    rewrite (span_app _ fs (String c rest) Hfd (designator_not_digit _ _ Hdes' Hc)).
    destruct fs; [done|]. rewrite (designator_other des des' c Hne Hc).
    by rewrite andb_false_r.
Qed.

Lemma time_component_part des unit_ns txt v rest :
  JS.is_digit (JS.lower_char des) = false ->
  Temporal.is_decimal_separator (JS.lower_char des) = false ->
  time_part des unit_ns txt v -> time_foreign des rest ->
  Temporal.time_component des unit_ns (txt +:+ rest) = (v, rest).
Proof.
  intros Hdes Hsep Hpart Hrest. destruct v as [x|].
  - by apply time_component_written.
  - inversion Hpart; subst. apply Hrest.
Qed.

(** ** The components, from the reading to the text *)

Lemma date_component_inv des s v r :
  Temporal.date_component des s = (v, r) ->
  exists txt, s = txt +:+ r /\ date_part des txt v.
Proof.
  unfold Temporal.date_component.
  destruct (JS.span JS.is_digit s) as [ds r1] eqn:E.
  destruct (span_spec _ _ _ _ E) as (-> & Hd & _).
  assert ((None, ds +:+ r1) = (v, r) ->
                    exists txt, ds +:+ r1 = txt +:+ r /\ date_part des txt v) as Hnone.
  { intros [= <- <-]. exists "". split; [done | constructor]. }
  destruct ds as [|d ds']; [by apply Hnone|].
  destruct r1 as [|c r1']; [by apply Hnone|].
  destruct (Temporal.designator des c) eqn:Hc; [|by apply Hnone].
  intros [= <- <-]. exists (String d ds' +:+ String c "").
  split; [symmetry; apply append_single|]. constructor; [|done].
  by apply is_digits_spec.
Qed.

Lemma time_component_inv des unit_ns s v r :
  Temporal.time_component des unit_ns s = (v, r) ->
  exists txt, s = txt +:+ r /\ time_part des unit_ns txt v.
Proof.
  unfold Temporal.time_component.
  destruct (JS.span JS.is_digit s) as [ds r1] eqn:E.
  destruct (span_spec _ _ _ _ E) as (-> & Hd & _).
  assert ((None, ds +:+ r1) = (v, r) ->
                    exists txt, ds +:+ r1 = txt +:+ r /\ time_part des unit_ns txt v)
    as Hnone.
  { intros [= <- <-]. exists "". split; [done | constructor]. }
  destruct ds as [|d ds']; [by apply Hnone|].
  destruct r1 as [|c r1']; [by apply Hnone|].
  destruct (Temporal.is_decimal_separator c) eqn:Hs.
  - destruct (JS.span JS.is_digit r1') as [fs r2] eqn:F.
    destruct (span_spec _ _ _ _ F) as (-> & Hfd & _).
    destruct fs as [|f fs']; [by apply Hnone|].
    destruct r2 as [|x r2']; [by apply Hnone|].
    destruct (String.length (String f fs') <=? 9)%nat eqn:Hlen; [|by apply Hnone].
    destruct (Temporal.designator des x) eqn:Hx; [|by apply Hnone].
    intros [= <- <-].
    exists (String d ds' +:+ String c (String f fs' +:+ String x "")).
    split; [symmetry; apply append_fraction|].
    constructor; try done; [by apply is_digits_spec..|].
    by apply Nat.leb_le.
  - destruct (Temporal.designator des c) eqn:Hc; [|by apply Hnone].
    intros [= <- <-]. exists (String d ds' +:+ String c "").
    split; [symmetry; apply append_single|]. constructor; [|done].
    by apply is_digits_spec.
Qed.

(** ** The whole text *)

Lemma parse_sign_inv s sgn s1 :
  Temporal.parse_sign s = (sgn, s1) ->
  exists sg, s = sg +:+ s1 /\ sign_part sg sgn.
Proof.
  destruct s as [|c r]; [intros [= <- <-]; exists ""; split; [done | constructor]|].
  unfold Temporal.parse_sign.
  destruct (Ascii.eqb c "-") eqn:Hm; [apply Ascii.eqb_eq in Hm as ->|].
  { intros [= <- <-]. exists "-". split; [done | constructor]. }
  destruct (Ascii.eqb c "+") eqn:Hp; [apply Ascii.eqb_eq in Hp as ->|].
  { intros [= <- <-]. exists "+". split; [done | constructor]. }
  assert ((1, String c r) = (sgn, s1) ->
          exists sg, String c r = sg +:+ s1 /\ sign_part sg sgn) as H.
  { intros [= <- <-]. exists "". split; [done | constructor]. }
  destruct c as [[] [] [] [] [] [] [] []]; try exact H; done.
Qed.

Lemma designator_P p : Temporal.designator "P" p = true -> p = "P"%char \/ p = "p"%char.
Proof. destruct p as [[] [] [] [] [] [] [] []]; vm_compute; auto; done. Qed.

Lemma parse_sign_text sg sgn p r :
  sign_part sg sgn -> Temporal.designator "P" p = true ->
  Temporal.parse_sign (sg +:+ String p r) = (sgn, String p r).
Proof.
  intros Hsg [-> | ->]%designator_P; by destruct Hsg.
Qed.

Lemma date_foreign_nodigit des c r : JS.is_digit c = false -> date_foreign des (String c r).
Proof.
  intros Hc. unfold date_foreign, Temporal.date_component. simpl. by rewrite Hc.
Qed.

Lemma time_tail_date_foreign des tail time_ns :
  time_tail tail time_ns -> date_foreign des tail.
Proof.
  intros [|t th h tmi mi ts sec Ht]; [done|].
  apply date_foreign_nodigit. by apply (designator_not_digit "T").
Qed.

(** The reading of a duration text is the duration it writes. *)
Lemma parse_text s d : duration_text s d -> Temporal.parse s = Ok d.
Proof.
  intros [sg sgn p ty y tmo mo tw w td dd tail tns Hsg Hp Hy Hmo Hw Hd Htail Hany].
  unfold Temporal.parse. rewrite (parse_sign_text _ _ _ _ Hsg Hp), Hp.
  pose proof (time_tail_date_foreign "Y" _ _ Htail) as Fy.
  pose proof (time_tail_date_foreign "M" _ _ Htail) as Fm.
  pose proof (time_tail_date_foreign "W" _ _ Htail) as Fw.
  pose proof (time_tail_date_foreign "D" _ _ Htail) as Fd.
  rewrite (date_component_part "Y" ty y); [|done|done|].
  2:{ apply (date_foreign_part "Y" "M" tmo mo); [done..|].
      apply (date_foreign_part "Y" "W" tw w); [done..|].
      by apply (date_foreign_part "Y" "D" td dd). }
  rewrite (date_component_part "M" tmo mo); [|done|done|].
  2:{ apply (date_foreign_part "M" "W" tw w); [done..|].
      by apply (date_foreign_part "M" "D" td dd). }
  rewrite (date_component_part "W" tw w); [|done|done|].
  2:{ by apply (date_foreign_part "W" "D" td dd). }
  rewrite (date_component_part "D" td dd); [|done..].
  destruct Htail as [|t th h tmi mi ts sec Ht Hh Hmi Hsec Hpresent Hfh Hfm].
  - by rewrite (Hany eq_refl).
  - rewrite Ht. rewrite <- (append_empty_r ts).
    rewrite (time_component_part "H" _ th h); [|done|done|done|].
    2:{ apply (time_foreign_part "H" "M" Temporal.ns_per_minute tmi mi); [done..|].
        by apply (time_foreign_part "H" "S" Temporal.ns_per_second ts sec). }
    rewrite (time_component_part "M" _ tmi mi); [|done|done|done|].
    2:{ by apply (time_foreign_part "M" "S" Temporal.ns_per_second ts sec). }
    rewrite (time_component_part "S" _ ts sec); [|done..].
    rewrite Hpresent.
    assert (Temporal.has_fraction h
            && (Temporal.present mi || Temporal.present sec) = false) as ->.
    { destruct (Temporal.has_fraction h); [|done].
      by destruct (Hfh eq_refl) as [-> ->]. }
    assert (Temporal.has_fraction mi && Temporal.present sec = false) as ->.
    { destruct (Temporal.has_fraction mi); [|done]. by rewrite (Hfm eq_refl). }
    done.
Qed.

(** What is read is a duration text. *)
Lemma parse_inv s d : Temporal.parse s = Ok d -> duration_text s d.
Proof.
  unfold Temporal.parse.
  destruct (Temporal.parse_sign s) as [sgn s1] eqn:Es.
  destruct (parse_sign_inv _ _ _ Es) as (sg & -> & Hsg).
  destruct s1 as [|p s2]; [done|].
  destruct (Temporal.designator "P" p) eqn:Hp; [|done].
  destruct (Temporal.date_component "Y" s2) as [y s3] eqn:Ey.
  destruct (date_component_inv _ _ _ _ Ey) as (ty & -> & Hy).
  destruct (Temporal.date_component "M" s3) as [mo s4] eqn:Emo.
  destruct (date_component_inv _ _ _ _ Emo) as (tmo & -> & Hmo).
  destruct (Temporal.date_component "W" s4) as [w s5] eqn:Ew.
  destruct (date_component_inv _ _ _ _ Ew) as (tw & -> & Hw).
  destruct (Temporal.date_component "D" s5) as [dd s6] eqn:Ed.
  destruct (date_component_inv _ _ _ _ Ed) as (td & -> & Hd).
  destruct s6 as [|t s7].
  - destruct (_ || _) eqn:Hany; [|done]. intros [= <-].
    by apply (duration_text_intro sg sgn p ty y tmo mo tw w td dd "" 0);
      try constructor.
  - destruct (Temporal.designator "T" t) eqn:Ht; [|done].
    destruct (Temporal.time_component "H" _ s7) as [h s8] eqn:Eh.
    destruct (time_component_inv _ _ _ _ _ Eh) as (th & -> & Hh).
    destruct (Temporal.time_component "M" _ s8) as [mi s9] eqn:Emi.
    destruct (time_component_inv _ _ _ _ _ Emi) as (tmi & -> & Hmi).
    destruct (Temporal.time_component "S" _ s9) as [sec s10] eqn:Esec.
    destruct (time_component_inv _ _ _ _ _ Esec) as (ts & -> & Hsec).
    destruct s10; [|done]. rewrite append_empty_r.
    destruct (_ && _) eqn:Hc; [|done]. intros [= <-].
    apply andb_true_iff in Hc as [[Hpresent Hfh]%andb_true_iff Hfm].
    apply (duration_text_intro sg sgn p ty y tmo mo tw w td dd
             (String t (th +:+ tmi +:+ ts))); try done.
    constructor; try done.
    + intros Hf. rewrite Hf in Hfh. simpl in Hfh.
      by destruct mi, sec.
    + intros Hf. rewrite Hf in Hfm. simpl in Hfm. by destruct sec.
Qed.

(** [Temporal.parse] reads exactly the duration texts. *)
Lemma parse_spec s d : Temporal.parse s = Ok d <-> duration_text s d.
Proof. split; [apply parse_inv | apply parse_text]. Qed.

Lemma duration_text_unique s d d' : duration_text s d -> duration_text s d' -> d = d'.
Proof. intros H H'. apply parse_text in H, H'. congruence. Qed.

Lemma duration_text_nonempty s d : duration_text s d -> JS.nonempty s = true.
Proof. intros [sg sgn p ? ? ? ? ? ? ? ? ? ? Hsg]. by destruct Hsg. Qed.
(** ** The records that the normalizer accepts *)

Lemma parse_magnitude s d :
  Temporal.parse s = Ok d ->
  (Temporal.sign d = 1 \/ Temporal.sign d = -1) /\
  0 <= Temporal.days d /\ 0 <= Temporal.time_ns d.
Proof.
  unfold Temporal.parse.
  destruct (Temporal.parse_sign s) as [sgn s1] eqn:Es.
  destruct (parse_sign_inv _ _ _ Es) as (sg & _ & Hsg).
  assert (sgn = 1 \/ sgn = -1) as Hsgn by (destruct Hsg; auto).
  clear Es Hsg. intros H.
  destruct s1 as [|p s2]; [done|].
  destruct (Temporal.designator "P" p); [|done].
  destruct (Temporal.date_component "Y" s2) as [y s3].
  destruct (Temporal.date_component "M" s3) as [mo s4].
  destruct (Temporal.date_component "W" s4) as [w s5].
  destruct (Temporal.date_component "D" s5) as [dd s6] eqn:Ed.
  pose proof (date_component_nonneg _ _ _ _ Ed) as Hd.
  destruct s6 as [|t s7].
  - destruct (_ || _); [|done]. by injection H as <-.
  - destruct (Temporal.designator "T" t); [|done].
    destruct (Temporal.time_component "H" _ s7) as [h s8] eqn:Eh.
    destruct (Temporal.time_component "M" _ s8) as [mi s9] eqn:Em.
    destruct (Temporal.time_component "S" _ s9) as [sec s10] eqn:Esec.
    pose proof (time_component_nonneg _ Temporal.ns_per_hour _ _ _ ltac:(done) Eh).
    pose proof (time_component_nonneg _ Temporal.ns_per_minute _ _ _ ltac:(done) Em).
    pose proof (time_component_nonneg _ Temporal.ns_per_second _ _ _ ltac:(done) Esec).
    destruct s10; [|done]. destruct (_ && _); [|done].
    injection H as <-. simpl. repeat split; [done..|lia].
Qed.

(** The durations of the grammar, without years, months and weeks and
    shorter than 2^53 seconds, are the ones that Temporal reads and
    converts to minutes. *)
Lemma convertible_iff duration :
  convertible duration <-> is_ok (Duration_total_minutes duration) = true.
Proof.
  unfold convertible, Duration_total_minutes. split.
  - intros (d & Ht & Hy & Hm & Hw & Hlt). apply parse_spec in Ht.
    assert (Temporal.from duration = Ok d) as ->.
    { apply from_parse. split; [done|]. unfold Temporal.is_valid.
      rewrite Hy, Hm, Hw. by apply Z.ltb_lt in Hlt as ->. }
    simpl. unfold Temporal.total_minutes. by rewrite Hy, Hm, Hw.
  - destruct (Temporal.from duration) as [d|] eqn:E; [|done]. simpl.
    unfold Temporal.total_minutes.
    destruct (_ && _) eqn:H0; [|done]. intros _.
    apply from_parse in E as [Hp Hv]. exists d.
    split; [by apply parse_spec|].
    apply andb_true_iff in H0 as [[Hy Hm]%andb_true_iff Hw].
    apply Z.eqb_eq in Hy, Hm, Hw. repeat split; [done..|].
    unfold Temporal.is_valid in Hv.
    apply andb_true_iff in Hv as [_ Hv]. by apply Z.ltb_lt.
Qed.

Lemma well_formed_normalizable billableEntry :
  well_formed billableEntry <-> normalizable billableEntry = true.
Proof.
  unfold well_formed, normalizable. split.
  - intros [Htag (ti & Hti & Hdur)]. rewrite Hti. apply andb_true_iff. split.
    + destruct (BillableEntry.tags billableEntry ≫= head) as [tag|]; [|done].
      by destruct (Htag tag eq_refl) as [name ->].
    + destruct (TimeInterval.duration ti) as [duration|]; [|done].
      destruct (JS.nonempty duration) eqn:Hn; [|done].
      apply convertible_iff. by apply Hdur.
  - intros [Htag Hti]%andb_true_iff. split.
    + intros tag E. rewrite E in Htag. by destruct (Tag.name tag); [eexists|].
    + destruct (BillableEntry.timeInterval billableEntry) as [ti|]; [|done].
      exists ti. split; [done|]. intros duration Hs Hn.
      rewrite Hs, Hn in Hti. by apply convertible_iff.
Qed.

(** The minutes of an accepted record, from the duration that the grammar
    reads in its text. *)
Lemma durationMinutes_text billableEntry timeInterval entry duration d :
  BillableEntry.timeInterval billableEntry = Some timeInterval ->
  createTimeEntry billableEntry = Ok entry ->
  TimeInterval.duration timeInterval = Some duration ->
  duration_text duration d ->
  TimeEntry.durationMinutes entry
  = Some (Number.of_Q (Temporal.exact_minutes d)) /\
  Temporal.is_valid d = true.
Proof.
  intros Hti E Hs Ht.
  destruct (createTimeEntry_ok _ (createTimeEntry_normalizable _ _ E))
    as (ti & Hti' & E').
  rewrite Hti in Hti'. injection Hti' as <-.
  pose proof (createTimeEntry_normalizable _ _ E) as Hn.
  unfold normalizable in Hn. rewrite Hti, Hs in Hn.
  apply andb_true_iff in Hn as [_ Hn].
  rewrite E in E'. injection E' as ->. cbn [TimeEntry.durationMinutes].
  rewrite Hs. rewrite (duration_text_nonempty _ _ Ht) in Hn |- *.
  apply parse_spec in Ht. revert Hn.
  unfold Duration_total_minutes, Temporal.from. rewrite Ht.
  destruct (Temporal.is_valid d); [|done]. simpl.
  unfold Temporal.total_minutes. by destruct (_ && _).
Qed.

(** Hours, minutes and seconds, in minutes. *)
Lemma exact_minutes_hms sgn h m s :
  (Temporal.exact_minutes
     {| Temporal.sign := sgn; Temporal.years := 0; Temporal.months := 0;
        Temporal.weeks := 0; Temporal.days := 0;
        Temporal.time_ns := h * Temporal.ns_per_hour
                            + m * Temporal.ns_per_minute
                            + s * Temporal.ns_per_second |}
   == inject_Z sgn * (inject_Z (60 * h + m) + inject_Z s / 60))%Q.
Proof.
  unfold Temporal.exact_minutes. cbn [Temporal.sign Temporal.days Temporal.time_ns].
  change (Z.to_pos Temporal.ns_per_minute) with 60000000000%positive.
  unfold Temporal.ns_per_day, Temporal.ns_per_hour, Temporal.ns_per_minute,
    Temporal.ns_per_second.
  unfold Qeq. cbn. lia.
Qed.

(** The text of hours, minutes and seconds. *)
Lemma duration_text_hms sg sgn hs ms ss :
  sign_part sg sgn ->
  is_digits hs = true -> is_digits ms = true -> is_digits ss = true ->
  duration_text (sg +:+ "PT" +:+ (hs +:+ "H") +:+ (ms +:+ "M") +:+ (ss +:+ "S"))
    {| Temporal.sign := sgn; Temporal.years := 0; Temporal.months := 0;
       Temporal.weeks := 0; Temporal.days := 0;
       Temporal.time_ns :=
         Temporal.digits_value hs * Temporal.ns_per_hour
         + Temporal.digits_value ms * Temporal.ns_per_minute
         + Temporal.digits_value ss * Temporal.ns_per_second |}.
Proof.
  intros Hsg Hh Hm Hs.
  apply (duration_text_intro sg sgn "P" "" None "" None "" None "" None
           (String "T" ((hs +:+ "H") +:+ (ms +:+ "M") +:+ (ss +:+ "S")))
           (Temporal.digits_value hs * Temporal.ns_per_hour
            + Temporal.digits_value ms * Temporal.ns_per_minute
            + Temporal.digits_value ss * Temporal.ns_per_second));
    [done | done | constructor.. | | done].
  apply (time_tail_written "T" (hs +:+ "H")
           (Some (Temporal.digits_value hs * Temporal.ns_per_hour, false))
           (ms +:+ "M")
           (Some (Temporal.digits_value ms * Temporal.ns_per_minute, false))
           (ss +:+ "S")
           (Some (Temporal.digits_value ss * Temporal.ns_per_second, false)));
    [done | by constructor.. | done | done | done].
Qed.

(** The text of hours and minutes, and the text of seconds. *)
Lemma duration_text_hm sg sgn hs ms :
  sign_part sg sgn -> is_digits hs = true -> is_digits ms = true ->
  duration_text (sg +:+ "PT" +:+ (hs +:+ "H") +:+ (ms +:+ "M"))
    {| Temporal.sign := sgn; Temporal.years := 0; Temporal.months := 0;
       Temporal.weeks := 0; Temporal.days := 0;
       Temporal.time_ns :=
         Temporal.digits_value hs * Temporal.ns_per_hour
         + Temporal.digits_value ms * Temporal.ns_per_minute + 0 |}.
Proof.
  intros Hsg Hh Hm.
  rewrite <- (append_empty_r (ms +:+ "M")).
  apply (duration_text_intro sg sgn "P" "" None "" None "" None "" None
           (String "T" ((hs +:+ "H") +:+ (ms +:+ "M") +:+ ""))
           (Temporal.digits_value hs * Temporal.ns_per_hour
            + Temporal.digits_value ms * Temporal.ns_per_minute + 0));
    [done | done | constructor.. | | done].
  apply (time_tail_written "T" (hs +:+ "H")
           (Some (Temporal.digits_value hs * Temporal.ns_per_hour, false))
           (ms +:+ "M")
           (Some (Temporal.digits_value ms * Temporal.ns_per_minute, false))
           "" None);
    [done | by constructor.. | done | done | done].
Qed.

Lemma duration_text_s sg sgn ss :
  sign_part sg sgn -> is_digits ss = true ->
  duration_text (sg +:+ "PT" +:+ (ss +:+ "S"))
    {| Temporal.sign := sgn; Temporal.years := 0; Temporal.months := 0;
       Temporal.weeks := 0; Temporal.days := 0;
       Temporal.time_ns :=
         0 + 0 + Temporal.digits_value ss * Temporal.ns_per_second |}.
Proof.
  intros Hsg Hs.
  apply (duration_text_intro sg sgn "P" "" None "" None "" None "" None
           (String "T" ("" +:+ "" +:+ (ss +:+ "S")))
           (0 + 0 + Temporal.digits_value ss * Temporal.ns_per_second));
    [done | done | constructor.. | | done].
  apply (time_tail_written "T" "" None "" None (ss +:+ "S")
           (Some (Temporal.digits_value ss * Temporal.ns_per_second, false)));
    [done | by constructor.. | done | done | done].
Qed.

Example convertible_examples :
  convertible "PT1H30M" /\ convertible "P0Y0M0W1D" /\ convertible "-pt1,5h" /\
  convertible "PT9007199254740991S" /\
  ~ convertible "P0.5D" /\ ~ convertible "PT1.5H30M" /\ ~ convertible "P1M" /\
  ~ convertible "PT" /\ ~ convertible "1h30m" /\
  ~ convertible "PT9007199254740992S" /\ ~ convertible "PT9007199254740993M".
Proof.
  rewrite !convertible_iff.
  repeat split; try (by vm_compute); by intros [=].
Qed.
(** C4, amended: the normalizer returns an entry for every record that has
    a time interval object, a name on its first tag if it has a tag, and
    whose duration, if it has one that is not empty, is a duration text
    (an optional sign, P, digits before Y, M, W and D, then T and digits
    before H, M and S, a fraction of at most nine digits on the last time
    component only, at least one component) with years, months and weeks
    absent or zero and a length below 2^53 seconds; the entry has the id
    and description of the record, no category when there is no first tag,
    no issue id when there is no task label, no start date when the start
    is missing and no duration when the duration is missing. On every
    other record it raises a TypeError or a RangeError. *)
Theorem C4_normalizer_returns (billableEntry : BillableEntry.t) :
  (well_formed billableEntry ->
   exists entry timeInterval,
     BillableEntry.timeInterval billableEntry = Some timeInterval /\
     createTimeEntry billableEntry = Ok entry /\
     TimeEntry.id entry = BillableEntry.id billableEntry /\
     TimeEntry.description entry = BillableEntry.description billableEntry /\
     (BillableEntry.tags billableEntry ≫= head = None ->
      TimeEntry.type entry = None) /\
     (BillableEntry.task billableEntry ≫= Task.name = None ->
      TimeEntry.issueId entry = None) /\
     (TimeInterval.start timeInterval = None -> TimeEntry.startDate entry = None) /\
     (TimeInterval.duration timeInterval = None ->
      TimeEntry.durationMinutes entry = None)) /\
  (~ well_formed billableEntry ->
   exists e, createTimeEntry billableEntry = Throw e /\
             (e = TypeError \/ e = RangeError)).
Proof.
  split.
  - intros H%well_formed_normalizable.
    destruct (createTimeEntry_ok _ H) as (ti & Hti & E).
    eexists _, ti. split; [done|]. split; [exact E|]. simpl.
    repeat split.
    + by intros ->.
    + by intros ->.
    + by intros ->.
    + by intros ->.
  - intros H. destruct (normalizable billableEntry) eqn:Hn.
    { destruct H. by apply well_formed_normalizable. }
    destruct (createTimeEntry_throws _ Hn) as [e He]. exists e.
    split; [done|]. by apply (createTimeEntry_error billableEntry).
Qed.

Lemma C4_normalizer_returns_witness :
  exists entry,
    createTimeEntry Sample.billableEntry = Ok entry /\
    TimeEntry.id entry = "64c777ddd3fcab07cfbb210c" /\
    TimeEntry.description entry = "review".
Proof.
  destruct (proj1 (C4_normalizer_returns Sample.billableEntry)
              (proj2 (well_formed_normalizable Sample.billableEntry) eq_refl))
    as (entry & ti & _ & E & Hid & Hdesc & _).
  exists entry. split; [exact E|]. split; [exact Hid | exact Hdesc].
Defined.

(** C7, amended: on a record the normalizer accepts, a missing or empty
    duration gives no minutes, and a duration text gives the double nearest
    to its length in minutes: the signed nanoseconds of its days (24 hours
    each), hours, minutes, seconds and fraction, over the nanoseconds of a
    minute. A length of a whole number k of minutes gives exactly k; the
    text of h hours, m minutes and s seconds gives the double nearest to
    60 h + m + s / 60, negated under a minus sign; the text of h hours and
    m minutes gives 60 h + m, the text of s seconds the double nearest to
    s / 60; one hour and thirty minutes give 90, and 45 seconds give 3/4. The minutes are not negative
    whenever the duration is written without a minus sign. *)
Theorem C7_duration_conversion (billableEntry : BillableEntry.t)
    (timeInterval : TimeInterval.t) (entry : TimeEntry.t) :
  BillableEntry.timeInterval billableEntry = Some timeInterval ->
  createTimeEntry billableEntry = Ok entry ->
  (TimeInterval.duration timeInterval = None \/
   TimeInterval.duration timeInterval = Some "" ->
   TimeEntry.durationMinutes entry = None) /\
  (forall duration,
      TimeInterval.duration timeInterval = Some duration -> duration <> "" ->
      exists d,
        duration_text duration d /\
        TimeEntry.durationMinutes entry
        = Some (Number.of_Q
                  ((Temporal.sign d
                    * (Temporal.days d * Temporal.ns_per_day + Temporal.time_ns d))
                   # 60000000000)) /\
        forall k,
          Temporal.sign d
          * (Temporal.days d * Temporal.ns_per_day + Temporal.time_ns d)
          = k * Temporal.ns_per_minute ->
          TimeEntry.durationMinutes entry = Some (inject_Z k)) /\
  (forall sg sgn hs ms ss,
      sign_part sg sgn ->
      is_digits hs = true -> is_digits ms = true -> is_digits ss = true ->
      TimeInterval.duration timeInterval
      = Some (sg +:+ "PT" +:+ (hs +:+ "H") +:+ (ms +:+ "M") +:+ (ss +:+ "S")) ->
      TimeEntry.durationMinutes entry
      = Some (Number.of_Q
                (inject_Z sgn
                 * (inject_Z (60 * Temporal.digits_value hs
                              + Temporal.digits_value ms)
                    + inject_Z (Temporal.digits_value ss) / 60)))) /\
  (forall sg sgn hs ms,
      sign_part sg sgn -> is_digits hs = true -> is_digits ms = true ->
      TimeInterval.duration timeInterval
      = Some (sg +:+ "PT" +:+ (hs +:+ "H") +:+ (ms +:+ "M")) ->
      TimeEntry.durationMinutes entry
      = Some (inject_Z (sgn * (60 * Temporal.digits_value hs
                               + Temporal.digits_value ms)))) /\
  (forall sg sgn ss,
      sign_part sg sgn -> is_digits ss = true ->
      TimeInterval.duration timeInterval = Some (sg +:+ "PT" +:+ (ss +:+ "S")) ->
      TimeEntry.durationMinutes entry
      = Some (Number.of_Q (inject_Z (sgn * Temporal.digits_value ss) / 60))) /\
  (TimeInterval.duration timeInterval = Some "PT1H30M" ->
   TimeEntry.durationMinutes entry = Some 90%Q) /\
  (TimeInterval.duration timeInterval = Some "PT45S" ->
   TimeEntry.durationMinutes entry = Some (3 # 4)%Q) /\
  (forall duration q,
      TimeInterval.duration timeInterval = Some duration ->
      is_negative duration = false ->
      TimeEntry.durationMinutes entry = Some q -> (0 <= q)%Q).
Proof.
  intros Hti E.
  pose proof (createTimeEntry_normalizable _ _ E) as Hn.
  destruct (createTimeEntry_ok _ Hn) as (ti & Hti' & E').
  rewrite Hti in Hti'. injection Hti' as <-.
  assert (TimeEntry.durationMinutes entry
          = match TimeInterval.duration timeInterval with
            | Some duration =>
                if JS.nonempty duration then
                  match Duration_total_minutes duration with
                  | Ok q => Some q
                  | Throw _ => None
                  end
                else None
            | None => None
            end) as Hmin.
  { rewrite E in E'. by injection E' as ->. }
  split; [by intros [H|H]; rewrite Hmin, H|].
  split.
  { intros duration Hs Hne.
    apply well_formed_normalizable in Hn as [_ (ti & Hti' & Hconv)].
    rewrite Hti in Hti'. injection Hti' as <-.
    destruct (Hconv duration Hs) as (d & Ht & _); [by destruct duration|].
    exists d. split; [done|].
    destruct (durationMinutes_text _ _ _ _ _ Hti E Hs Ht) as [Hd Hv].
    split; [exact Hd|]. intros k Hk. rewrite Hd. f_equal.
    destruct (parse_magnitude _ _ (proj2 (parse_spec _ _) Ht)) as (Hsg & Hdays & Hns).
    unfold Temporal.is_valid in Hv. apply andb_true_iff in Hv as [_ Hv].
    apply Z.ltb_lt in Hv.
    unfold Temporal.exact_minutes. apply of_Q_integer.
    - revert Hk Hv.
      unfold Temporal.ns_per_day, Temporal.ns_per_hour, Temporal.ns_per_minute,
        Temporal.ns_per_second.
      destruct Hsg as [-> | ->]; lia.
    - rewrite Hk. by rewrite Z2Pos.id. }
  split.
  { intros sg sgn hs ms ss Hsg Hh Hm Hs Hd.
    destruct (durationMinutes_text _ _ _ _ _ Hti E Hd
                (duration_text_hms sg sgn hs ms ss Hsg Hh Hm Hs)) as [-> _].
    f_equal. apply of_Q_proper, exact_minutes_hms. }
  split.
  { intros sg sgn hs ms Hsg Hh Hm Hd.
    pose proof (duration_text_hm sg sgn hs ms Hsg Hh Hm) as Ht.
    destruct (durationMinutes_text _ _ _ _ _ Hti E Hd Ht) as [-> Hv].
    f_equal.
    destruct (parse_magnitude _ _ (proj2 (parse_spec _ _) Ht)) as (_ & _ & Hns).
    unfold Temporal.is_valid in Hv. apply andb_true_iff in Hv as [_ Hv].
    apply Z.ltb_lt in Hv. revert Hv Hns.
    unfold Temporal.exact_minutes.
    cbn [Temporal.sign Temporal.days Temporal.time_ns].
    change (Z.to_pos Temporal.ns_per_minute) with 60000000000%positive.
    unfold Temporal.ns_per_day, Temporal.ns_per_hour, Temporal.ns_per_minute,
      Temporal.ns_per_second.
    intros Hv Hns. apply of_Q_integer; [destruct Hsg; lia | lia]. }
  split.
  { intros sg sgn ss Hsg Hs Hd.
    destruct (durationMinutes_text _ _ _ _ _ Hti E Hd
                (duration_text_s sg sgn ss Hsg Hs)) as [-> _].
    f_equal. apply of_Q_proper.
    unfold Temporal.exact_minutes.
    cbn [Temporal.sign Temporal.days Temporal.time_ns].
    change (Z.to_pos Temporal.ns_per_minute) with 60000000000%positive.
    unfold Temporal.ns_per_day, Temporal.ns_per_hour, Temporal.ns_per_minute,
      Temporal.ns_per_second.
    unfold Qeq. cbn. lia. }
  split; [by intros H; rewrite Hmin, H|].
  split; [by intros H; rewrite Hmin, H|].
  intros duration q Hs Hneg. rewrite Hmin, Hs.
  destruct (JS.nonempty duration); [|done].
  destruct (Duration_total_minutes duration) as [q'|] eqn:Eq; [|done].
  intros [= <-]. by apply (Duration_total_minutes_nonneg duration).
Qed.

Lemma C7_duration_conversion_witness :
  TimeEntry.durationMinutes Sample.entry = Some 90%Q.
Proof.
  apply (C7_duration_conversion Sample.billableEntry
           {| TimeInterval.start := Some "2024-03-14T09:00:00Z";
              TimeInterval.duration := Some "PT1H30M" |}
           Sample.entry eq_refl eq_refl).
  reflexivity.
Defined.
(** ** The decision on an entry, with the index of the run *)

(** The work type of the data, from the properties of [workTypes]. *)
Lemma workItemData_workTypeId workTypes entry d w :
  WorkItemData.workTypeId (workItemData workTypes entry d) = Some w <->
  exists type,
    TimeEntry.type entry = Some type /\ JS.nonempty type = true /\
    JS.get_property workTypes type = Some w /\
    JS.truthy_value (Some w) = true.
Proof.
  cbn [workItemData WorkItemData.workTypeId]. split.
  - destruct (TimeEntry.type entry) as [type|]; [|done].
    destruct (JS.nonempty type) eqn:Ht; [|done]. simpl.
    destruct (JS.truthy_value (JS.get_property workTypes type)) eqn:Hw; [|done].
    intros E. rewrite E in Hw. by exists type.
  - intros (type & -> & -> & -> & ->). done.
Qed.

(** The index of a run has a marker set for the issue of every entry. *)
Lemma index_of_entries fuel timeEntries yt yt1 g pairs entry i :
  Promise_all_map (workItemsByIssueId_entry fuel) (uniqueIssueIds timeEntries) yt
  = (yt1, g, Ok pairs) ->
  entry ∈ timeEntries ->
  TimeEntry.issueId entry = Some i -> JS.nonempty i = true ->
  exists items,
    YouTrack.issues yt !! i = Some items /\
    Map_of pairs !! i = Some (list_to_set (workItemInternalIds items)).
Proof.
  intros E Hin Hi Hn.
  destruct (Promise_all_index fuel (uniqueIssueIds timeEntries) yt)
    as (g' & r & E' & _ & _ & Hr).
  rewrite E in E'. injection E' as _ _ <-.
  destruct Hr as [|Hr]; [done|].
  apply (index_lookup yt (uniqueIssueIds timeEntries)); [done|].
  apply uniqueIssueIds_elem. split; [done|]. by exists entry.
Qed.

(** C2, amended: for an entry with a start date, (1) without issue id the
    body warns that there is no issue and creates nothing; (2) with an
    issue id for which the index has no marker set it raises a TypeError
    and creates nothing, which no run comes to, since the index that a run
    builds has the marker set of the issue of every entry; (3) with an
    issue id whose marker set holds the entry id it logs a skip and creates
    nothing; (4) otherwise it creates, with the data: description, a space
    and the bracketed entry id; the start date; the duration; and a work
    type exactly when the category is present, not empty, and the property
    of that name of the work types object is truthy, which is then the
    work type sent: the id of a work item type of that name if it is not
    empty, or, when no type has that name, the member of
    [Object.prototype] of that name. *)
Theorem C2_decision_per_entry
    options workTypes (idx : gmap string (gset string)) (entry : TimeEntry.t)
    (d : Date) yt :
  TimeEntry.startDate entry = Some d ->
  (JS.truthy (TimeEntry.issueId entry) = false ->
   sync_entry options workTypes idx entry yt =
   (yt, [WarnNoIssue (TimeEntry.description entry) d], Ok tt)) /\
  (forall i,
      TimeEntry.issueId entry = Some i -> JS.nonempty i = true ->
      idx !! i = None ->
      sync_entry options workTypes idx entry yt = (yt, [], Throw TypeError)) /\
  (forall fuel timeEntries yt0 yt1 g pairs i,
      Promise_all_map (workItemsByIssueId_entry fuel) (uniqueIssueIds timeEntries) yt0
      = (yt1, g, Ok pairs) ->
      entry ∈ timeEntries ->
      TimeEntry.issueId entry = Some i -> JS.nonempty i = true ->
      exists items,
        YouTrack.issues yt0 !! i = Some items /\
        Map_of pairs !! i = Some (list_to_set (workItemInternalIds items))) /\
  (forall i s,
      TimeEntry.issueId entry = Some i -> JS.nonempty i = true ->
      idx !! i = Some s -> TimeEntry.id entry ∈ s ->
      sync_entry options workTypes idx entry yt =
      (yt, [LogSkipping (TimeEntry.description entry) i d], Ok tt)) /\
  (forall i s,
      TimeEntry.issueId entry = Some i -> JS.nonempty i = true ->
      idx !! i = Some s -> TimeEntry.id entry ∉ s ->
      exists data,
        sync_entry options workTypes idx entry yt =
        ((if Options.dryRun options then mret tt else postIssueWorkItem i data)
           ≫= fun _ => emit (LogSynced (TimeEntry.description entry) i d)) yt /\
        WorkItemData.description data =
          TimeEntry.description entry +:+ " [" +:+ TimeEntry.id entry +:+ "]" /\
        WorkItemData.date data = d /\
        WorkItemData.durationMinutes data = TimeEntry.durationMinutes entry /\
        (forall w,
            WorkItemData.workTypeId data = Some w <->
            exists type,
              TimeEntry.type entry = Some type /\ JS.nonempty type = true /\
              JS.get_property workTypes type = Some w /\
              JS.truthy_value (Some w) = true) /\
        (forall id,
            WorkItemData.workTypeId data = Some (JS.Str id) <->
            exists type,
              TimeEntry.type entry = Some type /\ JS.nonempty type = true /\
              workTypes !! type = Some id /\ JS.nonempty id = true) /\
        (forall member,
            WorkItemData.workTypeId data = Some (JS.Inherited member) <->
            TimeEntry.type entry = Some member /\
            workTypes !! member = None /\ member ∈ JS.Object_prototype)).
Proof.
  intros Hd. split; [by apply sync_entry_no_issue|].
  split; [intros i; by apply (sync_entry_not_indexed _ _ _ _ d)|].
  split; [intros *; by apply index_of_entries|].
  split; [intros i s; by apply sync_entry_exists|].
  intros i s Hi Hn Hx Hin. exists (workItemData workTypes entry d).
  split; [by apply (sync_entry_create _ _ _ _ d i s)|].
  split; [done|]. split; [done|]. split; [done|].
  split; [intros w; apply workItemData_workTypeId|].
  split.
  - intros id. rewrite workItemData_workTypeId. split.
    + intros (type & Ht & Hne & Hg & Htr). exists type.
      apply get_property_Str in Hg. by repeat split.
    + intros (type & Ht & Hne & Hg & Htr). exists type.
      split; [done|]. split; [done|]. split; [by apply get_property_Str | done].
  - intros member. rewrite workItemData_workTypeId. split.
    + intros (type & Ht & Hne & Hg & _).
      apply get_property_Inherited in Hg as (-> & Hproto & Hown). by repeat split.
    + intros (Ht & Hown & Hproto). exists member.
      split; [done|]. split; [|split; [by apply get_property_Inherited | done]].
      revert Hproto. unfold JS.Object_prototype.
      rewrite !elem_of_cons, elem_of_nil.
      intros H. repeat (destruct H as [->|H]; [done|]). done.
Qed.

Lemma C2_decision_per_entry_witness :
  exists data,
    sync_entry options_default Sample.workTypes {[ "AB-1" := ∅ ]} Sample.entry
      Sample.youTrack
    = (postIssueWorkItem "AB-1" data ≫= fun _ =>
       emit (LogSynced "review" "AB-1" Sample.date)) Sample.youTrack /\
    WorkItemData.description data = "review [64c777ddd3fcab07cfbb210c]" /\
    WorkItemData.date data = Sample.date /\
    WorkItemData.durationMinutes data = Some 90%Q /\
    WorkItemData.workTypeId data = Some (JS.Str "7-1").
Proof.
  assert (({[ "AB-1" := ∅ ]} : gmap string (gset string)) !! "AB-1" = Some ∅)
    as Hidx by (by vm_compute).
  destruct (proj2 (proj2 (proj2 (proj2
              (C2_decision_per_entry options_default Sample.workTypes
                 {[ "AB-1" := ∅ ]} Sample.entry Sample.date
                 Sample.youTrack eq_refl))))
              "AB-1" ∅ eq_refl eq_refl Hidx (not_elem_of_empty _))
    as (data & E & Hdesc & Hdate & Hdur & _ & Htype & _).
  exists data. repeat split; [exact E | exact Hdesc | exact Hdate | exact Hdur |].
  apply Htype. exists "development". repeat split; by vm_compute.
Defined.

Lemma C1_idempotence_witness :
  let run1 := sync 1 Sample.now options_default Sample.clockifyApi Sample.youTrack in
  let run2 := sync 1 Sample.now options_default Sample.clockifyApi run1.1.1 in
  length (posts run1.1.2) = 1%nat /\
  posts run2.1.2 = [] /\ run2.1.1 = run1.1.1 /\
  console run2.1.2 = resynced <$> console run1.1.2 /\ run2.2 = run1.2.
Proof.
  split; [by vm_compute|].
  destruct (C1_idempotence 1 1 Sample.now options_default Sample.clockifyApi
              Sample.youTrack) as (Hposts & Hstate & Hlog).
  - reflexivity.
  - intros dateRange entries _ [= <-]. repeat constructor; by vm_compute.
  - by vm_compute.
  - intros i p _. reflexivity.
  - split; [exact Hposts|]. split; [exact Hstate|]. apply Hlog. by vm_compute.
Defined.

Lemma C9_dry_run_witness :
  let dry := sync 1 Sample.now (with_dryRun true options_default)
                  Sample.clockifyApi Sample.youTrack in
  let live := sync 1 Sample.now (with_dryRun false options_default)
                   Sample.clockifyApi Sample.youTrack in
  length (posts live.1.2) = 1%nat /\
  dry.1.2 = LogDryRunMode :: List.filter not_post live.1.2 /\
  console dry.1.2 = LogDryRunMode :: console live.1.2 /\
  dry.2 = live.2.
Proof.
  split; [by vm_compute|].
  apply (proj2 (proj2 (C9_dry_run 1 Sample.now options_default Sample.clockifyApi
                         Sample.youTrack))).
  - by vm_compute.
  - intros i p _. reflexivity.
Defined.
(** ** A tracker that refuses *)

(** A create request that the tracker refuses stops the live run with the
    HTTP error, after the request and before the line of the entry; the
    tracker is as it was, so the next run sends the request again. The dry
    run of the same entries sends nothing and logs the entry as synced. *)
Example refused_create :
  let live := sync 1 Sample.now options_default Sample.clockifyApi Sample2.refusing in
  let again := sync 1 Sample.now options_default Sample.clockifyApi live.1.1 in
  let dry := sync 1 Sample.now (with_dryRun true options_default)
                  Sample.clockifyApi Sample2.refusing in
  live.2 = Throw HttpError /\ live.1.1 = Sample2.refusing /\
  length (posts live.1.2) = 1%nat /\
  console live.1.2 = [LogSyncing Sample.range] /\
  posts again.1.2 = posts live.1.2 /\
  dry.2 = Ok tt /\ posts dry.1.2 = [] /\
  console dry.1.2
  = [LogDryRunMode; LogSyncing Sample.range; LogSynced "review" "AB-1" Sample.date].
Proof. by vm_compute. Qed.
